(** * NodeVault record store: a shallow embedding of [db/index.js], of the
      activity logger ([events/logger.js]) and of the search, update,
      delete and statistics commands of the interactive shell.

    Conventions of the embedding.
    - JavaScript numbers that occur as [userID]s, counters and time values
      are integers; they are modelled by [Z] (no rounding of doubles).
    - Strings are byte strings; [trim] and [toLowerCase] act on ASCII.
    - An [async] function is run to completion before the next one starts
      (the shell awaits every call), so it is a state transformer; a thrown
      exception keeps the state changes made before it.
    - Everything the code obtains from outside (clock readings, whether a
      driver or file-system call succeeds, the identifier chosen by the
      storage engine) is supplied by an [Env] record, one per API call.
    - The collection holds documents of the data model: an [_id], and
      optionally a numeric [userID], string timestamps; what the driver
      hands to the code are JavaScript values, on which the code's dynamic
      tests ([typeof], truthiness, [String(...)]) are modelled.
    - The driver is the current one (mongodb 6 and later, with its bson):
      [new ObjectId(s)] takes 24 hexadecimal digits only, and
      [findOneAndUpdate] and [findOneAndDelete], called without
      [includeResultMetadata], resolve to the document itself or to null,
      so that the [res.value] which the code reads is the [value] field of
      the record.
    - [Date.parse] is exact on the strings that [toISOString] emits; what
      the engine makes of any other string is part of the [Env].
    - Console lines are recorded without the configuration values and
      error messages that the code interpolates into them. *)

From Stdlib Require Import ZArith List String Ascii Bool Lia Sorted.
Import ListNotations.
Local Open Scope string_scope.
Local Open Scope Z_scope.

(** ** Characters and strings, as the JavaScript built-ins treat them *)

Module Js.

Definition is_digit (c : ascii) : bool :=
  let n := nat_of_ascii c in (48 <=? n)%nat && (n <=? 57)%nat.

Definition is_space (c : ascii) : bool :=
  let n := nat_of_ascii c in
  ((9 <=? n)%nat && (n <=? 13)%nat) || (n =? 32)%nat.

Definition is_hex (c : ascii) : bool :=
  let n := nat_of_ascii c in
  is_digit c || ((65 <=? n)%nat && (n <=? 70)%nat)
             || ((97 <=? n)%nat && (n <=? 102)%nat).

Definition lower_char (c : ascii) : ascii :=
  let n := nat_of_ascii c in
  if ((65 <=? n)%nat && (n <=? 90)%nat)%bool then ascii_of_nat (n + 32) else c.

Fixpoint string_forall (p : ascii -> bool) (s : string) : bool :=
  match s with
  | EmptyString => true
  | String c r => p c && string_forall p r
  end.

Fixpoint string_map (f : ascii -> ascii) (s : string) : string :=
  match s with
  | EmptyString => EmptyString
  | String c r => String (f c) (string_map f r)
  end.

(** [String.prototype.toLowerCase] *)
Definition toLowerCase (s : string) : string := string_map lower_char s.

Fixpoint trimStart (s : string) : string :=
  match s with
  | String c r => if is_space c then trimStart r else s
  | EmptyString => EmptyString
  end.

Fixpoint string_rev_onto (s acc : string) : string :=
  match s with
  | EmptyString => acc
  | String c r => string_rev_onto r (String c acc)
  end.

Definition string_rev (s : string) : string := string_rev_onto s EmptyString.

Definition trimEnd (s : string) : string := string_rev (trimStart (string_rev s)).

(** [String.prototype.trim] *)
Definition trim (s : string) : string := trimEnd (trimStart s).

(** [s.includes(t)]: [t] occurs in [s] as a contiguous substring. *)
Fixpoint includes (s t : string) : bool :=
  prefix t s ||
  match s with
  | EmptyString => false
  | String _ r => includes r t
  end.

(** [/^\d+$/.test(s)] *)
Definition all_digits (s : string) : bool :=
  negb (String.eqb s EmptyString) && string_forall is_digit s.

Definition digit_val (c : ascii) : Z := Z.of_nat (nat_of_ascii c) - 48.

Fixpoint parse_digits (acc : Z) (s : string) : Z :=
  match s with
  | EmptyString => acc
  | String c r => parse_digits (10 * acc + digit_val c) r
  end.

(** [parseInt(s, 10)] on a string of decimal digits. *)
Definition parseInt (s : string) : Z := parse_digits 0 s.

Definition digit (k : Z) : ascii := ascii_of_nat (48 + Z.to_nat k).

(** Decimal numeral of a natural number, most significant digit first. *)
Fixpoint dec_digits (fuel : nat) (n : Z) (acc : string) : string :=
  match fuel with
  | O => acc
  | S f =>
      let acc' := String (digit (n mod 10)) acc in
      if n <? 10 then acc' else dec_digits f (n / 10) acc'
  end.

Definition dec_of_nonneg (n : Z) : string :=
  dec_digits (S (Z.to_nat (Z.log2 n))) n EmptyString.

(** [String(n)] for an integer [n]. *)
Definition string_of_Z (n : Z) : string :=
  if n <? 0 then String "-"%char (dec_of_nonneg (- n)) else dec_of_nonneg n.

(** [s.replace(c, d)] with one-character strings: the first [c] only. *)
Fixpoint replace_first (c d : ascii) (s : string) : string :=
  match s with
  | EmptyString => EmptyString
  | String x r => if Ascii.eqb x c then String d r else String x (replace_first c d r)
  end.

(** [s.replace(/c/g, d)]: every [c]. *)
Definition replace_all (c d : ascii) (s : string) : string :=
  string_map (fun x => if Ascii.eqb x c then d else x) s.

(** [s.split(c)[0]]: the part before the first [c]. *)
Fixpoint before_first (c : ascii) (s : string) : string :=
  match s with
  | EmptyString => EmptyString
  | String x r => if Ascii.eqb x c then EmptyString else String x (before_first c r)
  end.

(** [s.replace(/\..+/, '')]: cut at the first dot that is followed by a
    character other than a line terminator. *)
Definition is_line_terminator (c : ascii) : bool :=
  let n := nat_of_ascii c in (n =? 10)%nat || (n =? 13)%nat.

Fixpoint drop_line (s : string) : string :=
  match s with
  | EmptyString => EmptyString
  | String y r => if is_line_terminator y then s else drop_line r
  end.

Fixpoint cut_fraction (s : string) : string :=
  match s with
  | EmptyString => EmptyString
  | String x r =>
      if Ascii.eqb x "."%char then
        match r with
        | EmptyString => s
        | String y _ =>
            if is_line_terminator y then String x (cut_fraction r)
            else drop_line r
        end
      else String x (cut_fraction r)
  end.

(** [s.slice(0, n)] *)
Definition slice0 (n : nat) (s : string) : string := substring 0 n s.

End Js.

(** ** Dates

    A time value is a number of milliseconds since 1970-01-01T00:00:00Z;
    [None] is the Invalid Date.  The calendar is the proleptic Gregorian
    one of ECMAScript. *)

Module JsDate.

Definition msPerDay : Z := 86400000.

(** Largest time value of a valid Date (8.64e15). *)
Definition maxTime : Z := 8640000000000000.

Definition civil_from_days (z0 : Z) : Z * Z * Z :=
  let z := z0 + 719468 in
  let era := z / 146097 in
  let doe := z mod 146097 in
  let yoe := (doe - doe / 1460 + doe / 36524 - doe / 146096) / 365 in
  let doy := doe - (365 * yoe + yoe / 4 - yoe / 100) in
  let mp := (5 * doy + 2) / 153 in
  let d := doy - (153 * mp + 2) / 5 + 1 in
  let m := if mp <? 10 then mp + 3 else mp - 9 in
  (yoe + era * 400 + (if m <=? 2 then 1 else 0), m, d).

Definition days_from_civil (y m d : Z) : Z :=
  let y' := if m <=? 2 then y - 1 else y in
  let era := y' / 400 in
  let yoe := y' mod 400 in
  let mp := if 2 <? m then m - 3 else m + 9 in
  let doy := (153 * mp + 2) / 5 + d - 1 in
  let doe := yoe * 365 + yoe / 4 - yoe / 100 + doy in
  era * 146097 + doe - 719468.

Definition pad2 (n : Z) (k : string) : string :=
  String (Js.digit (n / 10 mod 10)) (String (Js.digit (n mod 10)) k).

Definition pad3 (n : Z) (k : string) : string :=
  String (Js.digit (n / 100 mod 10)) (pad2 n k).

Definition pad4 (n : Z) (k : string) : string :=
  String (Js.digit (n / 1000 mod 10)) (pad3 n k).

Definition pad6 (n : Z) (k : string) : string :=
  String (Js.digit (n / 100000 mod 10)) (String (Js.digit (n / 10000 mod 10)) (pad4 n k)).

(** [Date.prototype.toISOString] of a valid time value:
    [YYYY-MM-DDTHH:mm:ss.sssZ], the year with a sign and six digits when it
    is outside 0..9999. *)
Definition iso_of_time (t : Z) : string :=
  let '(y, m, d) := civil_from_days (t / msPerDay) in
  let r := t mod msPerDay in
  let rest :=
    String "-" (pad2 m (String "-" (pad2 d (String "T"
      (pad2 (r / 3600000) (String ":" (pad2 (r / 60000 mod 60) (String ":"
        (pad2 (r / 1000 mod 60) (String "." (pad3 (r mod 1000) "Z"))))))))))) in
  if (0 <=? y) && (y <=? 9999) then pad4 y rest
  else if y <? 0 then String "-" (pad6 (- y) rest)
  else String "+" (pad6 y rest).

Definition num2 (a b : ascii) : Z := 10 * Js.digit_val a + Js.digit_val b.

Definition num3 (a b c : ascii) : Z := 10 * num2 a b + Js.digit_val c.

Definition num4 (a b c d : ascii) : Z := 10 * num3 a b c + Js.digit_val d.

(** [y]-[m]-[d] is a day of the calendar: it is the date of its own
    day number. *)
Definition calendar_day (y m d : Z) : bool :=
  let '(y', m', d') := civil_from_days (days_from_civil y m d) in
  (y' =? y) && (m' =? m) && (d' =? d).

Definition time_of_fields (y m d h mi s ms : Z) : option Z :=
  if (1 <=? m) && (m <=? 12) && (1 <=? d) && (d <=? 31) && calendar_day y m d
     && ((h <=? 23) || ((h =? 24) && (mi =? 0) && (s =? 0) && (ms =? 0)))
     && (mi <=? 59) && (s <=? 59)
  then
    let t := days_from_civil y m d * msPerDay
             + h * 3600000 + mi * 60000 + s * 1000 + ms in
    if (- maxTime <=? t) && (t <=? maxTime) then Some t else None
  else None.

Definition num6 (a b c d e f : ascii) : Z :=
  10 * (10 * num4 a b c d + Js.digit_val e) + Js.digit_val f.

(** The part of an ISO timestamp after the year: [-MM-DDTHH:mm:ss.sssZ]. *)
Definition parse_after_year (y : Z) (l : list ascii) : option Z :=
  match l with
  | ["-"; m1; m2; "-"; d1; d2; "T";
     h1; h2; ":"; i1; i2; ":"; s1; s2; "."; f1; f2; f3; "Z"]%char =>
      if forallb Js.is_digit
           [m1; m2; d1; d2; h1; h2; i1; i2; s1; s2; f1; f2; f3]
      then time_of_fields y (num2 m1 m2) (num2 d1 d2)
             (num2 h1 h2) (num2 i1 i2) (num2 s1 s2) (num3 f1 f2 f3)
      else None
  | _ => None
  end.

Definition parse_expanded (sign : Z) (l : list ascii) : option Z :=
  match l with
  | y1 :: y2 :: y3 :: y4 :: y5 :: y6 :: rest =>
      let y := num6 y1 y2 y3 y4 y5 y6 in
      if forallb Js.is_digit [y1; y2; y3; y4; y5; y6]
         && negb ((sign <? 0) && (y =? 0))
      then parse_after_year (sign * y) rest
      else None
  | _ => None
  end.

Definition parse_plain (l : list ascii) : option Z :=
  match l with
  | y1 :: y2 :: y3 :: y4 :: rest =>
      if forallb Js.is_digit [y1; y2; y3; y4]
      then parse_after_year (num4 y1 y2 y3 y4) rest
      else None
  | _ => None
  end.

(** The time value of a string in the form that [toISOString] emits: a
    four-digit year, or a sign and a six-digit year (minus zero is not a
    year), a day of the calendar and a time of the day; [None] for every
    other string. *)
Definition parse_iso (s : string) : option Z :=
  match list_ascii_of_string s with
  | c :: l =>
      if Ascii.eqb c "+" then parse_expanded 1 l
      else if Ascii.eqb c "-" then parse_expanded (-1) l
      else parse_plain (c :: l)
  | [] => None
  end.

(** [TimeClip]: a time value out of the range of dates is NaN. *)
Definition clip (t : option Z) : option Z :=
  match t with
  | Some t => if (- maxTime <=? t) && (t <=? maxTime) then Some t else None
  | None => None
  end.

(** [Date.parse].  A string in the form that [toISOString] emits has the
    time value it denotes.  What any other string denotes is up to the
    engine (the shorter forms of the date-time format, dates that roll
    over, and whatever its fallback parser makes of free text): it is
    given by [other], where [None] is NaN. *)
Definition parse (other : string -> option Z) (s : string) : option Z :=
  match parse_iso s with
  | Some t => Some t
  | None => clip (other s)
  end.

(** Exhaustive checks over an interval, used to validate the calendar
    arithmetic on one 400-year cycle. *)
Fixpoint check_from (n : nat) (k : Z) (p : Z -> bool) : bool :=
  match n with
  | O => true
  | S n' => p k && check_from n' (k + 1) p
  end.

Definition cycle_ok (doe : Z) : bool :=
  let '(y, m, d) := civil_from_days (doe - 719468) in
  (days_from_civil y m d =? doe - 719468) && (0 <=? y) && (y <=? 400)
  && (1 <=? m) && (m <=? 12) && (1 <=? d) && (d <=? 31).

End JsDate.

(** ** Values, documents and the driver's data *)

Module Vault.

(** What a JavaScript exception carries is not used by the code (every
    handler ignores or prints it), so an error is only its kind. *)
Inductive error : Type :=
| ParseError        (* new MongoClient(uri) on a malformed connection string *)
| ConnectionError   (* client.connect() rejected *)
| ArgumentError     (* client.db(name) on a name the driver refuses *)
| DriverError       (* a collection operation rejected *)
| FsError           (* an fs.promises call rejected *)
| BSONError         (* new ObjectId(s) on a malformed string *)
| TypeError         (* property access on null or undefined *)
| RangeError.       (* toISOString on an Invalid Date *)

Inductive result (A : Type) : Type :=
| Ok (a : A)
| Throw (e : error).

Arguments Ok {A} a.
Arguments Throw {A} e.

Definition rbind {A B} (r : result A) (k : A -> result B) : result B :=
  match r with
  | Ok a => k a
  | Throw e => Throw e
  end.

(** [try { r } catch (e) { h e }] for pure code. *)
Definition rcatch {A} (r : result A) (h : error -> result A) : result A :=
  match r with
  | Ok a => Ok a
  | Throw e => h e
  end.

(** The storage engine's native object id: 12 bytes, written as 24
    lower-case hexadecimal digits. *)
Record ObjectId : Type := mkObjectId { oid_hex : string }.

Definition ObjectId_eqb (a b : ObjectId) : bool :=
  String.eqb (oid_hex a) (oid_hex b).

(** [new ObjectId(s)] on a string: accepted iff [s] is 24 hexadecimal
    digits, otherwise the constructor throws. *)
Definition ObjectId_new (s : string) : result ObjectId :=
  if (String.length s =? 24)%nat && Js.string_forall Js.is_hex s
  then Ok (mkObjectId (Js.toLowerCase s))
  else Throw BSONError.

(** The JavaScript values that occur in documents. *)
Inductive jsval : Type :=
| JUndefined
| JNull
| JBool (b : bool)
| JNum (n : Z)
| JStr (s : string)
| JOid (o : ObjectId).

(** Truthiness, as tested by [if (v)], [!v], [v || w] and [v ? a : b]. *)
Definition truthy (v : jsval) : bool :=
  match v with
  | JUndefined | JNull => false
  | JBool b => b
  | JNum n => negb (n =? 0)
  | JStr s => negb (String.eqb s EmptyString)
  | JOid _ => true
  end.

(** [a || b] *)
Definition js_or (a b : jsval) : jsval := if truthy a then a else b.

(** [String(v)] *)
Definition String_ (v : jsval) : string :=
  match v with
  | JUndefined => "undefined"
  | JNull => "null"
  | JBool true => "true"
  | JBool false => "false"
  | JNum n => Js.string_of_Z n
  | JStr s => s
  | JOid o => oid_hex o
  end.

(** [v.toString()]: a property access, so it throws on null and undefined. *)
Definition toString (v : jsval) : result string :=
  match v with
  | JUndefined | JNull => Throw TypeError
  | _ => Ok (String_ v)
  end.

(** [Number(v)]; [None] is NaN.  For strings only the empty string and
    plain decimal digit strings are given a number. *)
Definition Number_ (v : jsval) : option Z :=
  match v with
  | JUndefined => None
  | JNull => Some 0
  | JBool b => Some (if b then 1 else 0)
  | JNum n => Some n
  | JStr s =>
      let t := Js.trim s in
      if String.eqb t EmptyString then Some 0
      else if Js.all_digits t then Some (Js.parseInt t) else None
  | JOid _ => None
  end.

(** [new Date(v)]; [None] is the Invalid Date.  [other] is what the
    engine makes of the strings that are not in the [toISOString] form. *)
Definition Date_new (other : string -> option Z) (v : jsval) : option Z :=
  match v with
  | JUndefined => None
  | JNull => Some 0
  | JBool b => Some (if b then 1 else 0)
  | JNum n =>
      if (- JsDate.maxTime <=? n) && (n <=? JsDate.maxTime) then Some n else None
  | JStr s => JsDate.parse other s
  | JOid o => JsDate.parse other (oid_hex o)
  end.

(** [d.toISOString()] throws a RangeError on the Invalid Date. *)
Definition toISOString (d : option Z) : result string :=
  match d with
  | Some t => Ok (JsDate.iso_of_time t)
  | None => Throw RangeError
  end.

(** A document as JavaScript code sees it: the properties the code reads,
    [JUndefined] where the property is absent. *)
Record jsdoc : Type := mkDoc {
  d__id : jsval;
  d_id : jsval;
  d_userID : jsval;
  d_name : jsval;
  d_value : jsval;
  d_createdAt : jsval;
  d_updatedAt : jsval
}.

(** The object built by [toPublic]; [None] in [p_id], [p_created] and
    [p_updated] is [null]. *)
Record public : Type := mkPublic {
  p_id : option string;
  p_userID : jsval;
  p_name : jsval;
  p_value : jsval;
  p_created : option string;
  p_createdAt : jsval;
  p_updatedAt : jsval;
  p_updated : option string
}.

(** [toPublic(doc)]; the argument [None] is a null or undefined [doc]. *)
Definition toPublic (other : string -> option Z) (doc : option jsdoc)
    : result (option public) :=
  match doc with
  | None => Ok None
  | Some doc =>
      rbind
        (if truthy (d__id doc) then
           rbind (rcatch (toString (d__id doc))
                         (fun _ => Ok (String_ (d__id doc))))
                 (fun s => Ok (Some s))
         else if truthy (d_id doc) then Ok (Some (String_ (d_id doc)))
         else Ok None)
        (fun id =>
      let created :=
        if truthy (d_createdAt doc)
        then Some (Js.slice0 10 (String_ (d_createdAt doc))) else None in
      let createdAtISO := js_or (d_createdAt doc) JNull in
      let updatedAtISO := js_or (d_updatedAt doc) JNull in
      rbind
        (if truthy updatedAtISO then
           rbind (toISOString (Date_new other updatedAtISO))
                 (fun iso =>
                    Ok (Some (Js.before_first "." (Js.replace_first "T" " " iso))))
         else Ok None)
        (fun updated =>
      Ok (Some {| p_id := id;
                  p_userID := js_or (d_userID doc) JNull;
                  p_name := d_name doc;
                  p_value := d_value doc;
                  p_created := created;
                  p_createdAt := createdAtISO;
                  p_updatedAt := updatedAtISO;
                  p_updated := updated |})))
  end.

(** A document of the [records] collection as the storage engine keeps
    it.  The engine gives every document an [_id]; the other fields are
    those of the data model, optional where the code allows for their
    absence. *)
Record record : Type := mkRecord {
  r_id : ObjectId;
  r_userID : option Z;
  r_name : string;
  r_value : string;
  r_createdAt : option string;
  r_updatedAt : option string
}.

Definition opt_val {A} (f : A -> jsval) (o : option A) : jsval :=
  match o with
  | Some a => f a
  | None => JUndefined
  end.

(** The document the driver hands to the code for a stored record. *)
Definition fetch (r : record) : jsdoc :=
  {| d__id := JOid (r_id r);
     d_id := JUndefined;
     d_userID := opt_val JNum (r_userID r);
     d_name := JStr (r_name r);
     d_value := JStr (r_value r);
     d_createdAt := opt_val JStr (r_createdAt r);
     d_updatedAt := opt_val JStr (r_updatedAt r) |}.

(** The same under the projection [{ userID: 1 }]. *)
Definition fetch_userID (r : record) : jsdoc :=
  {| d__id := JOid (r_id r);
     d_id := JUndefined;
     d_userID := opt_val JNum (r_userID r);
     d_name := JUndefined;
     d_value := JUndefined;
     d_createdAt := JUndefined;
     d_updatedAt := JUndefined |}.

(** The filters the code passes to the driver. *)
Inductive query : Type :=
| Q_all                 (* {} *)
| Q_userID_exists       (* { userID: { $exists: true } } *)
| Q_userID (n : Z)      (* { userID: n } *)
| Q_id (o : ObjectId)   (* { _id: o } *)
| Q_id_absent.          (* { _id: { $exists: false } } *)

Definition matches (q : query) (r : record) : bool :=
  match q with
  | Q_all => true
  | Q_userID_exists => match r_userID r with Some _ => true | None => false end
  | Q_userID n => match r_userID r with Some k => k =? n | None => false end
  | Q_id o => ObjectId_eqb (r_id r) o
  | Q_id_absent => false
  end.

(** The [id] argument of [updateRecord] and [deleteRecord]. *)
Inductive token : Type :=
| T_undefined
| T_null
| T_number (n : Z)
| T_string (s : string).

(** [getQueryFromId(id)] *)
Definition getQueryFromId (id : token) : result query :=
  match id with
  | T_undefined | T_null => Ok Q_id_absent
  | T_number n => Ok (Q_userID n)
  | T_string s0 =>
      let s := Js.trim s0 in
      if (String.length s =? 0)%nat then Ok Q_id_absent
      else if Js.all_digits s then Ok (Q_userID (Js.parseInt s))
      else rcatch (rbind (ObjectId_new s) (fun o => Ok (Q_id o)))
                  (fun _ => Ok Q_id_absent)
  end.

(** One entry of a backup file. *)
Record exportDoc : Type := mkExport {
  x__id : option string;
  x_userID : jsval;
  x_name : jsval;
  x_value : jsval;
  x_createdAt : jsval
}.

Definition exportOf (d : jsdoc) : exportDoc :=
  {| x__id := if truthy (d__id d) then Some (String_ (d__id d)) else None;
     x_userID := js_or (d_userID d) JNull;
     x_name := js_or (d_name d) JNull;
     x_value := js_or (d_value d) JNull;
     x_createdAt := js_or (d_createdAt d) JNull |}.

(** ** The process state and the outside world *)

(** A listener of the activity logger: [rec => writeLog(`<action> id=...`)]. *)
Inductive listener : Type :=
| LogLine (action : string).

(** What a run leaves behind, oldest first. *)
Inductive effect : Type :=
| Inserted (r : record)                             (* insertOne acknowledged *)
| Emitted (event : string) (payload : option public)  (* vaultEvents.emit *)
| BackupCalled                                      (* createBackup() entered *)
| BackupWritten (file : string) (docs : list exportDoc)
| MkDir (dir : string)
| ConsoleLog (line : string)
| ConsoleError (line : string)
| LogAppended (line : string).                      (* fs.appendFile(LOG_FILE) *)

Record state : Type := mkState {
  (* module variables of db/index.js *)
  client : bool;            (* [client] holds a MongoClient *)
  collection : bool;        (* [collection] is set *)
  staticUserId : Z;
  (* the records collection on the server *)
  records : list record;
  (* listeners registered on the event bus, with their event names *)
  listeners : list (string * listener);
  trace : list effect
}.

(** The steps by which [ensureConnection] gets its collection handle. *)
Inductive connect_stage : Type :=
| AtConstructor   (* new MongoClient(MONGO_URI) *)
| AtConnect       (* client.connect() *)
| AtDatabase.     (* client.db(dbNameInUse) *)

Definition connect_stage_eqb (a b : connect_stage) : bool :=
  match a, b with
  | AtConstructor, AtConstructor | AtConnect, AtConnect | AtDatabase, AtDatabase => true
  | _, _ => false
  end.

(** What one API call gets from outside. *)
Record Env : Type := mkEnv {
  connect_ok : bool;       (* no step of the connection fails *)
  scan_ok : bool;          (* the query for the largest userID resolves *)
  mkdir_ok : bool;         (* fs.promises.mkdir of ensureConnection resolves *)
  insert_ok : bool;        (* insertOne resolves *)
  fresh_id : ObjectId;     (* the _id the driver generates for the insert *)
  findOne_ok : bool;       (* findOne resolves *)
  find_ok : bool;          (* find({}).toArray() of listRecords resolves *)
  modify_ok : bool;        (* findOneAndUpdate / findOneAndDelete resolves *)
  close_ok : bool;         (* client.close() resolves *)
  now : Z;                 (* new Date() in the API function *)
  backup_mkdir_ok : bool;  (* fs.promises.mkdir of createBackup resolves *)
  backup_find_ok : bool;   (* find({}).toArray() of createBackup resolves *)
  backup_write_ok : bool;  (* fs.promises.writeFile resolves *)
  backup_now : Z;          (* new Date() in createBackup *)
  log_now : Z;             (* new Date() in writeLog *)
  connect_failure : connect_stage;
                           (* the step that fails when connect_ok does not hold *)
  other_dates : string -> option Z
                           (* the engine's Date.parse on strings that are not
                              in the toISOString form *)
}.

(** The step [st] of the connection fails: the constructor throws on a
    malformed connection string, [connect()] rejects, or [client.db] throws
    on a name that the driver refuses. *)
Definition fails (e : Env) (st : connect_stage) : bool :=
  negb (connect_ok e) && connect_stage_eqb (connect_failure e) st.

(** Computations: state transformers that return a value or throw.  The
    state reached when an exception is thrown is kept. *)
Definition M (A : Type) : Type := state -> result A * state.

Definition ret {A} (a : A) : M A := fun s => (Ok a, s).

Definition throw {A} (e : error) : M A := fun s => (Throw e, s).

Definition bind {A B} (m : M A) (k : A -> M B) : M B :=
  fun s =>
    match m s with
    | (Ok a, s') => k a s'
    | (Throw e, s') => (Throw e, s')
    end.

(** [try { m } catch (e) { h e }] *)
Definition try_catch {A} (m : M A) (h : error -> M A) : M A :=
  fun s =>
    match m s with
    | (Ok a, s') => (Ok a, s')
    | (Throw e, s') => h e s'
    end.

Definition lift {A} (r : result A) : M A := fun s => (r, s).

Definition gets {A} (f : state -> A) : M A := fun s => (Ok (f s), s).

Definition modify (f : state -> state) : M unit := fun s => (Ok tt, f s).

Declare Scope vault_scope.
Delimit Scope vault_scope with vault.
Notation "x <- m ;; k" := (bind m (fun x => k))
  (at level 61, m at next level, right associativity) : vault_scope.
Notation "m ;; k" := (bind m (fun _ => k))
  (at level 61, right associativity) : vault_scope.
Local Open Scope vault_scope.

Definition set_client (b : bool) (s : state) : state :=
  mkState b (collection s) (staticUserId s) (records s) (listeners s) (trace s).

Definition set_collection (b : bool) (s : state) : state :=
  mkState (client s) b (staticUserId s) (records s) (listeners s) (trace s).

Definition set_staticUserId (n : Z) (s : state) : state :=
  mkState (client s) (collection s) n (records s) (listeners s) (trace s).

Definition set_records (rs : list record) (s : state) : state :=
  mkState (client s) (collection s) (staticUserId s) rs (listeners s) (trace s).

Definition set_listeners (ls : list (string * listener)) (s : state) : state :=
  mkState (client s) (collection s) (staticUserId s) (records s) ls (trace s).

Definition tell (e : effect) : M unit :=
  modify (fun s =>
    mkState (client s) (collection s) (staticUserId s) (records s)
            (listeners s) (trace s ++ [e])).

Fixpoint mapM {A B} (f : A -> M B) (l : list A) : M (list B) :=
  match l with
  | [] => ret []
  | a :: r => b <- f a ;; bs <- mapM f r ;; ret (b :: bs)
  end.

(** ** The driver's collection operations *)

(** The record with the largest [userID] among those that have one, the
    first such record on a tie: [find(...).sort({ userID: -1 }).limit(1)]. *)
Fixpoint top_userID (rs : list record) : option record :=
  match rs with
  | [] => None
  | r :: rest =>
      match r_userID r, top_userID rest with
      | None, t => t
      | Some _, None => Some r
      | Some n, Some r' =>
          match r_userID r' with
          | Some n' => if n' <=? n then Some r else Some r'
          | None => Some r
          end
      end
  end.

Definition has_id (o : ObjectId) (rs : list record) : bool :=
  existsb (fun r => ObjectId_eqb (r_id r) o) rs.

(** [collection.insertOne(doc)]: the engine refuses a duplicate [_id]. *)
Definition insertOne (e : Env) (name value : string) (userID : Z)
    (createdAt : string) : M ObjectId :=
  rs <- gets records ;;
  if insert_ok e && negb (has_id (fresh_id e) rs) then
    let r := mkRecord (fresh_id e) (Some userID) name value (Some createdAt) None in
    modify (set_records (rs ++ [r])) ;;
    tell (Inserted r) ;;
    ret (fresh_id e)
  else throw DriverError.

(** [collection.findOne(q)] *)
Definition findOne (e : Env) (q : query) : M (option jsdoc) :=
  rs <- gets records ;;
  if findOne_ok e then ret (option_map fetch (find (matches q) rs))
  else throw DriverError.

(** [collection.find(q).toArray()] *)
Definition findAll (ok : bool) (q : query) : M (list jsdoc) :=
  rs <- gets records ;;
  if ok then ret (map fetch (filter (matches q) rs))
  else throw DriverError.

(** Applies [f] to the first record that matches [q]. *)
Fixpoint update_first (q : query) (f : record -> record) (rs : list record)
    : list record :=
  match rs with
  | [] => []
  | r :: rest => if matches q r then f r :: rest else r :: update_first q f rest
  end.

Fixpoint remove_first (q : query) (rs : list record) : list record :=
  match rs with
  | [] => []
  | r :: rest => if matches q r then rest else r :: remove_first q rest
  end.

Definition apply_set (newName newValue updatedAt : string) (r : record) : record :=
  mkRecord (r_id r) (r_userID r) newName newValue (r_createdAt r) (Some updatedAt).

(** [collection.findOneAndUpdate(q, { $set: {...} }, { returnDocument: 'after' })].
    The code does not ask for the result metadata, so the call resolves to
    the document itself, as it is after the update, or to null when
    nothing matched. *)
Definition findOneAndUpdate (e : Env) (q : query)
    (newName newValue updatedAt : string) : M (option record) :=
  rs <- gets records ;;
  if modify_ok e then
    match find (matches q) rs with
    | Some r =>
        modify (set_records (update_first q (apply_set newName newValue updatedAt) rs)) ;;
        ret (Some (apply_set newName newValue updatedAt r))
    | None => ret None
    end
  else throw DriverError.

(** [collection.findOneAndDelete(q)]: resolves to the deleted document, or
    to null when nothing matched. *)
Definition findOneAndDelete (e : Env) (q : query) : M (option record) :=
  rs <- gets records ;;
  if modify_ok e then
    match find (matches q) rs with
    | Some r =>
        modify (set_records (remove_first q rs)) ;;
        ret (Some r)
    | None => ret None
    end
  else throw DriverError.

(** [res.value] where [res] is a document of the collection: the
    record's own [value] field, a string. *)
Definition value_field (res : record) : jsval := d_value (fetch res).

(** The properties that [toPublic] reads, on a string: a string has none
    of them. *)
Definition string_properties : jsdoc :=
  {| d__id := JUndefined;
     d_id := JUndefined;
     d_userID := JUndefined;
     d_name := JUndefined;
     d_value := JUndefined;
     d_createdAt := JUndefined;
     d_updatedAt := JUndefined |}.

(** ** The event bus and the activity logger *)

(** [writeLog(line)] of the activity logger.  [fs.appendFile] is given a
    callback that ignores the outcome. *)
Definition writeLog (e : Env) (line : string) : M unit :=
  let ts := JsDate.iso_of_time (log_now e) in
  let out := "[" ++ ts ++ "] " ++ line ++ String "010" EmptyString in
  tell (LogAppended out) ;;
  tell (ConsoleLog (Js.trim out)).

Definition null_or (o : option string) : string :=
  match o with
  | Some s => s
  | None => "null"
  end.

(** A listener applied to the payload of an event: reading [rec.id] of a
    null payload throws. *)
Definition run_listener (e : Env) (l : listener) (payload : option public) : M unit :=
  match l, payload with
  | LogLine _, None => throw TypeError
  | LogLine action, Some rec =>
      writeLog e (action ++ " id=" ++ null_or (p_id rec)
                         ++ " name=" ++ String_ (p_name rec))
  end.

Fixpoint run_listeners (e : Env) (ls : list (string * listener))
    (event : string) (payload : option public) : M unit :=
  match ls with
  | [] => ret tt
  | (ev, l) :: rest =>
      (if String.eqb ev event
       then try_catch (run_listener e l payload) (fun _ => ret tt)
       else ret tt) ;;
      run_listeners e rest event payload
  end.

(** Modelled from the spec: the event bus ([events/index.js], required by
    [db/index.js] as [vaultEvents]) is not among the sources.  It is a
    process-wide publish/subscribe channel; a publication reaches the
    listeners registered for that event kind, in registration order, and a
    listener that throws stops neither the others nor the publisher. *)
Definition emit (e : Env) (event : string) (payload : option public) : M unit :=
  tell (Emitted event payload) ;;
  ls <- gets listeners ;;
  run_listeners e ls event payload.

(** What [require('../db')] evaluates to: the properties of
    [module.exports] in [db/index.js]. *)
Inductive export_val : Type :=
| E_function
| E_emitter.

Definition db_exports : list (string * export_val) :=
  [ ("init", E_function); ("close", E_function); ("addRecord", E_function);
    ("listRecords", E_function); ("updateRecord", E_function);
    ("deleteRecord", E_function) ].

Fixpoint property (name : string) (obj : list (string * export_val))
    : option export_val :=
  match obj with
  | [] => None
  | (k, v) :: rest => if String.eqb k name then Some v else property name rest
  end.

(** The subscription block of the activity logger:
    [if (db && db.emitter && db.emitter.on) { db.emitter.on('add', ...); ... }] *)
Definition logger_subscribe (db : list (string * export_val)) (s : state) : state :=
  match property "emitter" db with
  | Some E_emitter =>
      set_listeners (listeners s ++ [ ("add", LogLine "ADD");
                                      ("update", LogLine "UPDATE");
                                      ("delete", LogLine "DELETE") ]) s
  | _ => s
  end.

(** The process after the entry script has loaded [./db] and
    [./events/logger], in front of a collection that holds [rs]. *)
Definition boot (rs : list record) : state :=
  logger_subscribe db_exports (mkState false false 1 rs [] []).

(** ** db/index.js *)

Definition BACKUP_DIR : string := "backups".

(** [ensureBackupDir()]; [ok] tells whether [fs.promises.mkdir] resolves. *)
Definition ensureBackupDir (ok : bool) : M unit :=
  try_catch
    (if ok then tell (MkDir BACKUP_DIR) else throw FsError)
    (fun _ => ret tt).

Definition ensureConnection (e : Env) : M unit :=
  c <- gets collection ;;
  if c then ret tt
  else
    cl <- gets client ;;
    (if negb cl then
       (if fails e AtConstructor then throw ParseError else ret tt) ;;
       modify (set_client true) ;;
       try_catch
         (if fails e AtConnect then throw ConnectionError else ret tt)
         (fun err =>
            tell (ConsoleError "Failed to connect to MongoDB with MONGO_URI:") ;;
            tell (ConsoleError "Check that MongoDB is running and the URI is correct (host, port, auth).") ;;
            tell (ConsoleError "Example for Compass-local DB: mongodb://localhost:27017/scd_Project") ;;
            throw err)
     else ret tt) ;;
    (if fails e AtDatabase then throw ArgumentError else ret tt) ;;
    modify (set_collection true) ;;
    try_catch
      (rs <- gets records ;;
       if scan_ok e then
         match option_map fetch_userID (top_userID rs) with
         | Some d =>
             match d_userID d with
             | JNum maxVal => modify (set_staticUserId (maxVal + 1))
             | _ => ret tt
             end
         | None => ret tt
         end
       else throw DriverError)
      (fun _ => ret tt) ;;
    tell (ConsoleLog "Connected to MongoDB.") ;;
    n <- gets staticUserId ;;
    tell (ConsoleLog ("Next userID will start at: " ++ Js.string_of_Z n)) ;;
    ensureBackupDir (mkdir_ok e).

Definition createBackup (e : Env) : M unit :=
  tell BackupCalled ;;
  c <- gets collection ;;
  connected <-
    (if negb c then
       try_catch (ensureConnection e ;; ret true)
         (fun _ =>
            tell (ConsoleError "Backup: failed to ensure DB connection:") ;;
            ret false)
     else ret true) ;;
  if connected : bool then
    ensureBackupDir (backup_mkdir_ok e) ;;
    try_catch
      (docs <- findAll (backup_find_ok e) Q_all ;;
       let exportDocs := map exportOf docs in
       let stamp :=
         Js.cut_fraction (Js.replace_all ":" "-" (JsDate.iso_of_time (backup_now e))) in
       let filename := "backup_" ++ stamp ++ ".json" in
       let filePath := BACKUP_DIR ++ "/" ++ filename in
       (if backup_write_ok e then tell (BackupWritten filePath exportDocs)
        else throw FsError) ;;
       tell (ConsoleLog ("Backup created: " ++ filePath)))
      (fun _ => tell (ConsoleError "Failed to create backup:"))
  else ret tt.

Definition init (e : Env) : M unit := ensureConnection e.

Definition close (e : Env) : M unit :=
  cl <- gets client ;;
  if cl then
    try_catch (if close_ok e then ret tt else throw DriverError) (fun _ => ret tt) ;;
    modify (set_client false) ;;
    modify (set_collection false)
  else ret tt.

Definition addRecord (e : Env) (name value : string) : M (option public) :=
  ensureConnection e ;;
  userID <- gets staticUserId ;;
  modify (set_staticUserId (userID + 1)) ;;
  let createdAt := JsDate.iso_of_time (now e) in
  insertedId <- insertOne e name value userID createdAt ;;
  doc <- findOne e (Q_id insertedId) ;;
  out <- lift (toPublic (other_dates e) doc) ;;
  try_catch (emit e "recordAdded" out) (fun _ => ret tt) ;;
  try_catch (createBackup e) (fun _ => ret tt) ;;
  ret out.

Definition listRecords (e : Env) : M (list (option public)) :=
  ensureConnection e ;;
  docs <- findAll (find_ok e) Q_all ;;
  mapM (fun d => lift (toPublic (other_dates e) (Some d))) docs.

(** In [updateRecord] and [deleteRecord], [res] is the document that the
    driver call resolves to, so [res.value] is the [value] field of the
    record, and [toPublic(res.value)] is [toPublic] of a string. *)
Definition updateRecord (e : Env) (id : token) (newName newValue : string)
    : M (option public) :=
  ensureConnection e ;;
  query <- lift (getQueryFromId id) ;;
  let updatedAt := JsDate.iso_of_time (now e) in
  res <- findOneAndUpdate e query newName newValue updatedAt ;;
  match res with
  | None => ret None
  | Some r =>
      if negb (truthy (value_field r)) then ret None
      else
        out <- lift (toPublic (other_dates e) (Some string_properties)) ;;
        try_catch (emit e "recordUpdated" out) (fun _ => ret tt) ;;
        ret out
  end.

Definition deleteRecord (e : Env) (id : token) : M (option public) :=
  ensureConnection e ;;
  query <- lift (getQueryFromId id) ;;
  res <- findOneAndDelete e query ;;
  match res with
  | None => ret None
  | Some r =>
      if negb (truthy (value_field r)) then ret None
      else
        out <- lift (toPublic (other_dates e) (Some string_properties)) ;;
        try_catch (emit e "recordDeleted" out) (fun _ => ret tt) ;;
        try_catch (createBackup e) (fun _ => ret tt) ;;
        ret out
  end.

(** ** Runs of the exported API *)

Inductive call : Type :=
| Init
| Close
| AddRecord (name value : string)
| ListRecords
| UpdateRecord (id : token) (newName newValue : string)
| DeleteRecord (id : token).

Inductive answer : Type :=
| A_unit
| A_record (p : option public)
| A_list (l : list (option public)).

Definition run_call (e : Env) (c : call) : M answer :=
  match c with
  | Init => init e ;; ret A_unit
  | Close => close e ;; ret A_unit
  | AddRecord name value => p <- addRecord e name value ;; ret (A_record p)
  | ListRecords => l <- listRecords e ;; ret (A_list l)
  | UpdateRecord id n v => p <- updateRecord e id n v ;; ret (A_record p)
  | DeleteRecord id => p <- deleteRecord e id ;; ret (A_record p)
  end.

(** The calls are made one after the other, whatever each one returns or
    throws. *)
Fixpoint run (cs : list (Env * call)) (s : state) : list (result answer) * state :=
  match cs with
  | [] => ([], s)
  | (e, c) :: rest =>
      let '(r, s') := run_call e c s in
      let '(rs, s'') := run rest s' in
      (r :: rs, s'')
  end.

Definition is_close (c : call) : bool :=
  match c with
  | Close => true
  | _ => false
  end.

(** The [userID]s of the records inserted, in the order of insertion. *)
Fixpoint assigned (tr : list effect) : list Z :=
  match tr with
  | [] => []
  | Inserted r :: rest =>
      match r_userID r with
      | Some n => n :: assigned rest
      | None => assigned rest
      end
  | _ :: rest => assigned rest
  end.

(** The number of times [createBackup] was entered. *)
Fixpoint backups (tr : list effect) : nat :=
  match tr with
  | [] => O
  | BackupCalled :: rest => S (backups rest)
  | _ :: rest => backups rest
  end.

Fixpoint log_lines (tr : list effect) : list string :=
  match tr with
  | [] => []
  | LogAppended l :: rest => l :: log_lines rest
  | _ :: rest => log_lines rest
  end.

End Vault.

(** ** The search command of the interactive shell (menu option 2) *)

Module Shell.

Import Vault.

(** The predicate given to [records.filter]: [lower] is the lower-cased
    keyword. *)
Definition search_hit (term : string) (r : option public) : bool :=
  match r with
  | None => false
  | Some r =>
      let lower := Js.toLowerCase term in
      (Js.all_digits term &&
         match Number_ (p_userID r), Number_ (JStr term) with
         | Some a, Some b => a =? b
         | _, _ => false
         end)
      || Js.includes (Js.toLowerCase (match p_id r with Some i => i | None => EmptyString end)) lower
      || Js.includes (Js.toLowerCase (String_ (js_or (p_name r) (JStr EmptyString)))) lower
  end.



End Shell.

(** ** Notions used to state the results *)

Module VaultSpec.

Import Vault.
Local Open Scope vault_scope.
Local Open Scope list_scope.

(** [add_trace new s]: the state [s] with the effects [new] appended. *)
Definition add_trace (new : list effect) (s : state) : state :=
  mkState (client s) (collection s) (staticUserId s) (records s)
          (listeners s) (trace s ++ new).

(** Effects that are neither an insertion nor a backup request. *)
Definition plain (x : effect) : bool :=
  match x with
  | Inserted _ | BackupCalled => false
  | _ => true
  end.

(** Effects of the activity logger. *)
Definition from_logger (x : effect) : bool :=
  match x with
  | LogAppended _ | ConsoleLog _ => true
  | _ => false
  end.

(** Effects other than a line appended to the log file. *)
Definition not_log (x : effect) : bool :=
  match x with
  | LogAppended _ => false
  | _ => true
  end.

(** The largest [userID] in the collection, if any record has one. *)
Fixpoint max_userID (rs : list record) : option Z :=
  match rs with
  | [] => None
  | r :: rest =>
      match r_userID r, max_userID rest with
      | Some n, Some m => Some (Z.max n m)
      | Some n, None => Some n
      | None, m => m
      end
  end.

(** The counter after a connection is made in state [s] under [e]. *)
Definition seed (e : Env) (s : state) : Z :=
  match (if scan_ok e then max_userID (records s) else None) with
  | Some m => m + 1
  | None => staticUserId s
  end.

(** The path of the backup file written under [e]. *)
Definition backup_file (e : Env) : string :=
  (BACKUP_DIR ++ "/" ++
   ("backup_" ++
    Js.cut_fraction (Js.replace_all ":" "-" (JsDate.iso_of_time (backup_now e)))
    ++ ".json"))%string.

(** The effects of one [createBackup()] on a connected process. *)
Definition backup_effects (e : Env) (rs : list record) : list effect :=
  BackupCalled ::
  (if backup_mkdir_ok e then [MkDir BACKUP_DIR] else []) ++
  (if backup_find_ok e && backup_write_ok e
   then [BackupWritten (backup_file e) (map exportOf (map fetch rs));
         ConsoleLog ("Backup created: " ++ backup_file e)%string]
   else [ConsoleError "Failed to create backup:"]).

(** Seconds-precision rendering of a time value: [YYYY-MM-DD HH:mm:ss]. *)
Definition seconds_rendering (t : Z) : string :=
  Js.before_first "." (Js.replace_first "T" " " (JsDate.iso_of_time t)).

(** The public shape of a document, field by field, on an engine whose
    reading of other date strings is [other]. *)
Definition public_view (other : string -> option Z) (doc : jsdoc) : public :=
  {| p_id := if truthy (d__id doc) then Some (String_ (d__id doc))
             else if truthy (d_id doc) then Some (String_ (d_id doc))
             else None;
     p_userID := if truthy (d_userID doc) then d_userID doc else JNull;
     p_name := d_name doc;
     p_value := d_value doc;
     p_created := if truthy (d_createdAt doc)
                  then Some (Js.slice0 10 (String_ (d_createdAt doc))) else None;
     p_createdAt := if truthy (d_createdAt doc) then d_createdAt doc else JNull;
     p_updatedAt := if truthy (d_updatedAt doc) then d_updatedAt doc else JNull;
     p_updated := if truthy (d_updatedAt doc)
                  then option_map seconds_rendering (Date_new other (d_updatedAt doc))
                  else None |}.

(** [updatedAt] is absent (or falsy), or it denotes a valid date. *)
Definition updatedAt_ok (other : string -> option Z) (doc : jsdoc) : bool :=
  negb (truthy (d_updatedAt doc))
  || match Date_new other (d_updatedAt doc) with Some _ => true | None => false end.

(** What [toPublic] returns for a string: every field is null or
    undefined. *)
Definition blank : public :=
  {| p_id := None;
     p_userID := JNull;
     p_name := JUndefined;
     p_value := JUndefined;
     p_created := None;
     p_createdAt := JNull;
     p_updatedAt := JNull;
     p_updated := None |}.

(** What [updateRecord] and [deleteRecord] return for the document [r]
    that the driver call resolved to. *)
Definition returned_for (r : record) : option public :=
  if String.eqb (r_value r) EmptyString then None else Some blank.

(** The date of a time value, [YYYY-MM-DD]. *)
Definition date_rendering (t : Z) : string :=
  let '(y, m, d) := JsDate.civil_from_days (t / JsDate.msPerDay) in
  JsDate.pad4 y (String "-" (JsDate.pad2 m (String "-" (JsDate.pad2 d EmptyString)))).

(** The year of a time value. *)
Definition year_of (t : Z) : Z :=
  fst (fst (JsDate.civil_from_days (t / JsDate.msPerDay))).

(** The record that [addRecord] inserts when the counter reads [n]. *)
Definition new_record (e : Env) (name value : string) (n : Z) : record :=
  mkRecord (fresh_id e) (Some n) name value (Some (JsDate.iso_of_time (now e))) None.

(** The record that [findOneAndUpdate] and [findOneAndDelete] act on. *)
Definition found (q : query) (s : state) : option record :=
  find (matches q) (records s).

(** What one API call other than [close] does to a connected process. *)
Definition conn_step (s s' : state) : Prop :=
  exists new,
    trace s' = trace s ++ new
    /\ listeners s' = listeners s
    /\ collection s' = true
    /\ (listeners s = [] -> log_lines new = [])
    /\ staticUserId s <= staticUserId s'
    /\ (assigned new = []
        \/ (assigned new = [staticUserId s]
            /\ staticUserId s' = staticUserId s + 1)).

(** The same for a process in any state. *)
Definition full_step (s s' : state) : Prop :=
  exists new,
    trace s' = trace s ++ new
    /\ listeners s' = listeners s
    /\ (listeners s = [] -> log_lines new = [])
    /\ (collection s = true ->
        collection s' = true /\ staticUserId s <= staticUserId s')
    /\ (assigned new = []
        \/ exists n, assigned new = [n] /\ collection s' = true
                     /\ staticUserId s' = n + 1
                     /\ (collection s = true -> n = staticUserId s)).

(** Every call other than [close] is [ensureConnection] followed by the
    rest of the function. *)
Definition after_connection (e : Env) (c : call) : unit -> M answer :=
  match c with
  | Init => fun _ => ret A_unit
  | Close => fun _ => ret A_unit
  | AddRecord name value => fun _ =>
      p <- (userID <- gets staticUserId ;;
            modify (set_staticUserId (userID + 1)) ;;
            insertedId <- insertOne e name value userID (JsDate.iso_of_time (now e)) ;;
            doc <- findOne e (Q_id insertedId) ;;
            out <- lift (toPublic (other_dates e) doc) ;;
            try_catch (emit e "recordAdded" out) (fun _ => ret tt) ;;
            try_catch (createBackup e) (fun _ => ret tt) ;;
            ret out) ;;
      ret (A_record p)
  | ListRecords => fun _ =>
      l <- (docs <- findAll (find_ok e) Q_all ;;
            mapM (fun d => lift (toPublic (other_dates e) (Some d))) docs) ;;
      ret (A_list l)
  | UpdateRecord id n v => fun _ =>
      p <- (query <- lift (getQueryFromId id) ;;
            res <- findOneAndUpdate e query n v (JsDate.iso_of_time (now e)) ;;
            match res with
            | None => ret None
            | Some r =>
                if negb (truthy (value_field r)) then ret None
                else
                  out <- lift (toPublic (other_dates e) (Some string_properties)) ;;
                  try_catch (emit e "recordUpdated" out) (fun _ => ret tt) ;;
                  ret out
            end) ;;
      ret (A_record p)
  | DeleteRecord id => fun _ =>
      p <- (query <- lift (getQueryFromId id) ;;
            res <- findOneAndDelete e query ;;
            match res with
            | None => ret None
            | Some r =>
                if negb (truthy (value_field r)) then ret None
                else
                  out <- lift (toPublic (other_dates e) (Some string_properties)) ;;
                  try_catch (emit e "recordDeleted" out) (fun _ => ret tt) ;;
                  try_catch (createBackup e) (fun _ => ret tt) ;;
                  ret out
            end) ;;
      ret (A_record p)
  end.

(** The run contains no call of [close]. *)
Definition close_free (cs : list (Env * call)) : bool :=
  forallb (fun ec => negb (is_close (snd ec))) cs.

(** The three kinds of token of the identifier-resolution rule. *)
Definition numeric_token (id : token) (n : Z) : Prop :=
  id = T_number n
  \/ exists s, id = T_string s /\ Js.all_digits (Js.trim s) = true
              /\ n = Js.parseInt (Js.trim s).

Definition object_id_token (id : token) (o : ObjectId) : Prop :=
  exists s, id = T_string s /\ Js.all_digits (Js.trim s) = false
            /\ ObjectId_new (Js.trim s) = Ok o.

Definition unusable_token (id : token) : Prop :=
  id = T_undefined \/ id = T_null
  \/ exists s, id = T_string s
       /\ (Js.trim s = EmptyString
           \/ (Js.all_digits (Js.trim s) = false
               /\ exists err, ObjectId_new (Js.trim s) = Throw err)).

(** Some backup file was written. *)
Fixpoint backup_written (tr : list effect) : bool :=
  match tr with
  | [] => false
  | BackupWritten _ _ :: _ => true
  | _ :: rest => backup_written rest
  end.


End VaultSpec.

(** ** Concrete sessions *)

Module Scenario.

Import Vault.
Local Open Scope list_scope.

(** The identifier that the storage engine gives to the [k]-th insert. *)
Definition oid (k : Z) : ObjectId :=
  mkObjectId ("6909f3a2c1d4e5f60718293" ++ Js.string_of_Z k).

(** An engine that takes for a date no string but those in the
    [toISOString] form. *)
Definition iso_only : string -> option Z := fun _ => None.

(** The environment of the [k]-th call of a session, [k] milliseconds
    after 2025-11-04T15:22:10Z: in [fair] every outside operation
    succeeds; in the others one of them fails. *)
Definition fair (k : Z) : Env :=
  mkEnv true true true true (oid k) true true true true
        (1762269730000 + k) true true true (1762269730000 + k) (1762269730000 + k)
        AtConnect iso_only.

Definition insert_refused (k : Z) : Env :=
  mkEnv true true true false (oid k) true true true true
        (1762269730000 + k) true true true (1762269730000 + k) (1762269730000 + k)
        AtConnect iso_only.

Definition backup_refused (k : Z) : Env :=
  mkEnv true true true true (oid k) true true true true
        (1762269730000 + k) true true false (1762269730000 + k) (1762269730000 + k)
        AtConnect iso_only.

(** The process after one record has been added to an empty collection. *)
Definition one_record : state :=
  Eval vm_compute in snd (run [(fair 1, AddRecord "A" "1")] (boot [])).

(** The process after a record with an empty value has been added to an
    empty collection: the user has answered the value prompt with the
    return key. *)
Definition empty_value_added : state :=
  Eval vm_compute in snd (run [(fair 1, AddRecord "A" EmptyString)] (boot [])).

(** Two records are added, the second is deleted, the connection is closed
    and a third record is added. *)
Definition reuse_calls : list (Env * call) :=
  [ (fair 1, AddRecord "A" "1");
    (fair 2, AddRecord "B" "2");
    (fair 3, DeleteRecord (T_number 2));
    (fair 4, Close);
    (fair 5, AddRecord "C" "3") ].

(** The same session without the [close]. *)
Definition steady_calls : list (Env * call) :=
  [ (fair 1, AddRecord "A" "1");
    (fair 2, AddRecord "B" "2");
    (fair 3, DeleteRecord (T_number 2));
    (fair 5, AddRecord "C" "3") ].

(** A collection left by an earlier process. *)
Definition two_stored : list record :=
  [ mkRecord (oid 7) (Some 41) "x" "1" (Some "2025-11-04T15:22:10.123Z") None;
    mkRecord (oid 8) (Some 17) "y" "2" (Some "2025-11-04T15:22:11.456Z") None ].

(** The server is out of reach: [client.connect()] rejects. *)
Definition unreachable (k : Z) : Env :=
  mkEnv false true true true (oid k) true true true true
        (1762269730000 + k) true true true (1762269730000 + k) (1762269730000 + k)
        AtConnect iso_only.

(** The connection string is malformed: the constructor of the client
    throws. *)
Definition bad_uri (k : Z) : Env :=
  mkEnv false true true true (oid k) true true true true
        (1762269730000 + k) true true true (1762269730000 + k) (1762269730000 + k)
        AtConstructor iso_only.

(** A document whose [updatedAt] is a number beyond the range of dates
    (1e16). *)
Definition broken_doc : jsdoc :=
  mkDoc (JOid (oid 1)) JUndefined (JNum 1) (JStr "A") (JStr "1")
        (JStr "2025-11-04T15:22:10.123Z") (JNum 10000000000000000).

(** A document whose [createdAt] is not a timestamp. *)
Definition undated_doc : jsdoc :=
  mkDoc (JOid (oid 1)) JUndefined (JNum 1) (JStr "A") (JStr "1")
        (JStr "created today") JUndefined.

(** A document with the text [x] as [updatedAt]. *)
Definition text_doc : jsdoc :=
  mkDoc (JOid (oid 1)) JUndefined (JNum 1) (JStr "A") (JStr "1")
        (JStr "2025-11-04T15:22:10.123Z") (JStr "x").

(** A document that was updated a day after its creation. *)
Definition sample_doc : jsdoc :=
  mkDoc (JOid (oid 1)) JUndefined (JNum 1) (JStr "A") (JStr "1")
        (JStr "2025-11-04T15:22:10.123Z") (JStr "2025-11-05T08:00:00.000Z").

(** The time value of 2025-11-04T15:22:10.123Z. *)
Definition sample_time : Z := 1762269730123.

(** A listed record named "abc" whose userID is 1. *)
Definition abc_record : public :=
  mkPublic (Some "6909f3a2c1d4e5f607182931") (JNum 1) (JStr "abc") (JStr "v")
           (Some "2025-11-04") (JStr "2025-11-04T15:22:10.123Z") JNull None.

(** The connection is closed and a record is added. *)
Definition skipped_calls : list (Env * call) :=
  [ (fair 3, Close); (fair 4, AddRecord "C" "3") ].

End Scenario.

(** ** The search command, in the words of its comments *)

Module SearchSpec.

Import Vault.





End SearchSpec.

(** ** Further notions: the stored collection along a run *)

Module StoreSpec.

Import Vault VaultSpec.
Local Open Scope list_scope.

(** The [userID]s present in the collection, in store order. *)
Definition stored_ids (rs : list record) : list Z :=
  flat_map (fun r => match r_userID r with Some n => [n] | None => [] end) rs.

(** No two stored records share a [userID], and on a connected process
    every stored [userID] is below the counter. *)
Definition store_inv (s : state) : Prop :=
  NoDup (stored_ids (records s))
  /\ (collection s = true ->
      Forall (fun k => k < staticUserId s) (stored_ids (records s))).

(** Every largest-userID scan of the run resolves. *)
Definition scans_succeed (cs : list (Env * call)) : bool :=
  forallb (fun ec => scan_ok (fst ec)) cs.

(** Every clock reading of the run is a valid time value. *)
Definition clocks_valid (cs : list (Env * call)) : bool :=
  forallb (fun ec => (- JsDate.maxTime <=? now (fst ec))
                     && (now (fst ec) <=? JsDate.maxTime)) cs.

(** The stored [updatedAt] of [r] is absent or denotes a date. *)
Definition record_ok (other : string -> option Z) (r : record) : bool :=
  updatedAt_ok other (fetch r).

(** What a call other than [close] can do to the collection and the
    counter of a connected process. *)
Definition store_change (e : Env) (s s' : state) : Prop :=
  (records s' = records s /\ staticUserId s <= staticUserId s')
  \/ (exists name value,
        records s' = records s ++ [new_record e name value (staticUserId s)]
        /\ staticUserId s' = staticUserId s + 1)
  \/ (exists q n v,
        records s' = update_first q (apply_set n v (JsDate.iso_of_time (now e)))
                       (records s)
        /\ staticUserId s' = staticUserId s)
  \/ (exists q, records s' = remove_first q (records s)
                /\ staticUserId s' = staticUserId s).

(** The public records that [listRecords] returns for a collection. *)
Definition listing (other : string -> option Z) (rs : list record)
    : list (option public) :=
  map (fun r => Some (public_view other (fetch r))) rs.

(** What identifies a stored record: its [_id], [userID] and [createdAt]. *)
Definition identity (r : record) : ObjectId * option Z * option string :=
  (r_id r, r_userID r, r_createdAt r).

(** The backup files written, oldest first, each with its content. *)
Fixpoint written (tr : list effect) : list (string * list exportDoc) :=
  match tr with
  | [] => []
  | BackupWritten f docs :: rest => (f, docs) :: written rest
  | _ :: rest => written rest
  end.

(** The content of a backup of the collection [rs]. *)
Definition snapshot (rs : list record) : list exportDoc :=
  map exportOf (map fetch rs).

(** The message that [createBackup] prints when it has to connect by
    itself and fails. *)
Definition backup_reconnect (x : effect) : bool :=
  match x with
  | ConsoleError line => String.eqb line "Backup: failed to ensure DB connection:"
  | _ => false
  end.

(** A line written with [console.error]. *)
Definition console_error (x : effect) : bool :=
  match x with
  | ConsoleError _ => true
  | _ => false
  end.


(** [iso.replace(/[:]/g, '-').replace(/\..+/, '')], the stamp in the name
    of a backup file. *)
Definition stamp (s : string) : string :=
  Js.cut_fraction (Js.replace_all ":" "-" s).

End StoreSpec.

(** ** The commands of the shell that take a userID, and the statistics *)

Module Menu.

Import Vault.
Local Open Scope vault_scope.








(** [String(r.name || '')] *)
Definition name_text (r : public) : string :=
  String_ (js_or (p_name r) (JStr EmptyString)).

(** The loop of the statistics that keeps the longest name seen so far. *)
Fixpoint longestName (acc : string) (records : list (option public))
    : result string :=
  match records with
  | [] => Ok acc
  | None :: _ => Throw TypeError
  | Some r :: rest =>
      let name := name_text r in
      longestName (if (String.length acc <? String.length name)%nat then name else acc)
                  rest
  end.

(** [Math.max(...l)] and [Math.min(...l)] on time values, [None] being
    NaN: the result is NaN as soon as one argument is.  The code calls
    them on non-empty lists only. *)
Definition nan_step (f : Z -> Z -> Z) (acc y : option Z) : option Z :=
  match acc, y with
  | Some a, Some b => Some (f a b)
  | _, _ => None
  end.

Definition nan_fold (f : Z -> Z -> Z) (l : list (option Z)) : option Z :=
  match l with
  | [] => None
  | x :: rest => fold_left (nan_step f) rest x
  end.

(** [records.map(sel).filter(Boolean).map(ts => new Date(ts).getTime())] *)
Definition timestamps (other : string -> option Z) (sel : public -> jsval)
    (ps : list public) : list (option Z) :=
  map (Date_new other) (filter truthy (map sel ps)).

(** The entries of a list none of whose entries is null. *)
Fixpoint all_present (records : list (option public)) : option (list public) :=
  match records with
  | [] => Some []
  | None :: _ => None
  | Some r :: rest => option_map (cons r) (all_present rest)
  end.

(** [new Date(ts).toISOString().slice(0,10)] for a number or NaN. *)
Definition render_day (other : string -> option Z) (ts : option Z) : result string :=
  rbind (toISOString (match ts with Some t => Date_new other (JNum t) | None => None end))
        (fun iso => Ok (Js.slice0 10 iso)).

(** What the statistics print; [None] is shown as N/A. *)
Record statistics : Type := mkStatistics {
  st_total : nat;
  st_lastModified : option string;
  st_longestName : string;
  st_earliest : option string;
  st_latest : option string
}.

(** Case 8 of the menu on the records that [listRecords] has returned;
    [Ok None] is the report of an empty vault. *)
Definition statistics_of (other : string -> option Z)
    (records : list (option public)) : result (option statistics) :=
  match records with
  | [] => Ok None
  | _ :: _ =>
      match all_present records with
      | None => Throw TypeError
      | Some ps =>
          let modTimestamps :=
            timestamps other (fun r => js_or (p_updatedAt r) (p_createdAt r)) ps in
          let lastModifiedTs :=
            match modTimestamps with
            | [] => None
            | _ :: _ => nan_fold Z.max modTimestamps
            end in
          rbind
            (match lastModifiedTs with
             | Some t =>
                 if t =? 0 then Ok None
                 else rbind (toISOString (Date_new other (JNum t)))
                        (fun iso =>
                           Ok (Some (Js.before_first "." (Js.replace_first "T" " " iso))))
             | None => Ok None
             end)
            (fun lastModified =>
          rbind (longestName EmptyString records)
            (fun longest =>
          let createTimestamps := timestamps other p_createdAt ps in
          rbind
            (match createTimestamps with
             | [] => Ok (None, None)
             | _ :: _ =>
                 rbind (render_day other (nan_fold Z.min createTimestamps))
                   (fun earliest =>
                 rbind (render_day other (nan_fold Z.max createTimestamps))
                   (fun latest => Ok (Some earliest, Some latest)))
             end)
            (fun days =>
          Ok (Some (mkStatistics (List.length records) lastModified longest
                      (fst days) (snd days))))))
      end
  end.

(** The [createdAt] of a listed record is absent (or falsy), or it
    denotes a date. *)
Definition createdAt_ok (other : string -> option Z) (p : public) : bool :=
  negb (truthy (p_createdAt p))
  || match Date_new other (p_createdAt p) with Some _ => true | None => false end.

(** A time value within the range of dates. *)
Definition in_range (t : Z) : Prop := - JsDate.maxTime <= t <= JsDate.maxTime.

Definition valid_time (x : option Z) : Prop := exists t, x = Some t /\ in_range t.

Definition time_or_nan (x : option Z) : Prop :=
  match x with Some t => in_range t | None => True end.

End Menu.

(** ** The database name in the connection string *)

Module Uri.

(** [s] without its prefix [p], when it has it. *)
Fixpoint strip_prefix (p s : string) : option string :=
  match p, s with
  | EmptyString, _ => Some s
  | String a p', String b s' => if Ascii.eqb a b then strip_prefix p' s' else None
  | String _ _, EmptyString => None
  end.

(** The longest prefix of [s] whose characters satisfy [f], and the rest. *)
Fixpoint span (f : ascii -> bool) (s : string) : string * string :=
  match s with
  | EmptyString => (EmptyString, EmptyString)
  | String c r =>
      if f c then let '(a, b) := span f r in (String c a, b)
      else (EmptyString, s)
  end.

Definition not_slash (c : ascii) : bool := negb (Ascii.eqb c "/").

Definition segment_char (c : ascii) : bool :=
  negb (Ascii.eqb c "?") && negb (Ascii.eqb c "/").

(** The first group of
    [uri.match(/^mongodb(?:\+srv)?:\/\/[^\/]+\/([^?\/]+)(?:\?|$)/)], or
    [None] when the match fails.  Each quantified class is followed by a
    character outside it, so the match is found without backtracking. *)
Definition match_db_segment (uri : string) : option string :=
  match (match strip_prefix "mongodb+srv://" uri with
         | Some r => Some r
         | None => strip_prefix "mongodb://" uri
         end) with
  | None => None
  | Some rest =>
      let '(host, after) := span not_slash rest in
      if String.eqb host EmptyString then None
      else
        match after with
        | String s r =>
            if Ascii.eqb s "/" then
              let '(name, tail) := span segment_char r in
              if String.eqb name EmptyString then None
              else
                match tail with
                | EmptyString => Some name
                | String c _ => if Ascii.eqb c "?" then Some name else None
                end
            else None
        | EmptyString => None
        end
  end.

(** What [extractDbName] does: it returns a name, returns null, or lets
    the URIError of [decodeURIComponent] through. *)
Inductive extracted : Type :=
| Name (s : string)
| NoName
| URIError.

Section WithDecoder.

(** [decodeURIComponent]; [None] when it throws. *)
Variable decodeURIComponent : string -> option string.

(** [extractDbName(uri)]; the argument [None] is an undefined [uri]. *)
Definition extractDbName (uri : option string) : extracted :=
  match uri with
  | None => NoName
  | Some uri =>
      if String.eqb uri EmptyString then NoName
      else
        match match_db_segment uri with
        | Some m1 =>
            match decodeURIComponent m1 with
            | Some d => Name d
            | None => URIError
            end
        | None => NoName
        end
  end.

End WithDecoder.

(** What may follow the database name in the string: nothing, a query
    string, or a slash. *)
Definition after_name (tail : string) : bool :=
  match tail with
  | EmptyString => true
  | String c _ => Ascii.eqb c "?" || Ascii.eqb c "/"
  end.

Definition begins_query (tail : string) : bool :=
  match tail with
  | EmptyString => true
  | String c _ => Ascii.eqb c "?"
  end.

End Uri.

Module Scenario2.

Import Vault Scenario.
Local Open Scope list_scope.

(** An environment in which everything succeeds but the largest-userID
    scan. *)
Definition blind_scan : Env :=
  mkEnv true false true true (oid 2) true true true true
        1762269730002 true true true 1762269730002 1762269730002
        AtConnect iso_only.

(** The driver refuses the database name taken from the connection
    string. *)
Definition bad_database (k : Z) : Env :=
  mkEnv false true true true (oid k) true true true true
        (1762269730000 + k) true true true (1762269730000 + k) (1762269730000 + k)
        AtDatabase iso_only.

(** A collection with one record whose [value] is the empty string. *)
Definition empty_valued : list record :=
  [ mkRecord (oid 1) (Some 1) "A" EmptyString (Some "2025-11-04T15:22:10.001Z") None ].

(** A record left by an earlier process, with userID 1. *)
Definition first_stored : record :=
  mkRecord (oid 1) (Some 1) "old" "0" (Some "2025-11-03T10:00:00.000Z") None.

End Scenario2.

(** * Results

    ** Dates *)

Module DateFacts.

Import JsDate.

Example iso_epoch : iso_of_time 0 = "1970-01-01T00:00:00.000Z".
Proof. reflexivity. Qed.

Example iso_leap_day : iso_of_time 951782400000 = "2000-02-29T00:00:00.000Z".
Proof. reflexivity. Qed.

Example iso_before_epoch : iso_of_time (-1) = "1969-12-31T23:59:59.999Z".
Proof. reflexivity. Qed.

Example iso_last_instant : iso_of_time maxTime = "+275760-09-13T00:00:00.000Z".
Proof. reflexivity. Qed.

Example parse_sample : parse_iso "2025-11-04T15:22:10.123Z" = Some 1762269730123.
Proof. reflexivity. Qed.

Example parse_other_form : parse_iso "2025-11-04" = None.
Proof. reflexivity. Qed.

Example parse_no_such_day : parse_iso "2025-02-31T00:00:00.000Z" = None.
Proof. reflexivity. Qed.

Example backup_stamp :
  Js.cut_fraction (Js.replace_all ":" "-" (iso_of_time 1762269730123))
  = "2025-11-04T15-22-10".
Proof. reflexivity. Qed.

Ltac dlia := Z.div_mod_to_equations; lia.

Lemma check_from_sound n : forall k p,
  check_from n k p = true -> forall i, k <= i < k + Z.of_nat n -> p i = true.
Proof.
  induction n as [|n IH]; simpl check_from; intros k p H i Hi; [lia|].
  apply andb_true_iff in H. destruct H as [H1 H2].
  destruct (Z.eq_dec i k) as [->|Hne]; [exact H1|].
  apply (IH (k + 1) p H2). lia.
Qed.

Lemma cycle_ok_all : check_from (Z.to_nat 146097) 0 cycle_ok = true.
Proof. vm_cast_no_check (eq_refl true). Qed.

Lemma days_from_civil_shift y m d e :
  days_from_civil (y + e * 400) m d = days_from_civil y m d + e * 146097.
Proof.
  unfold days_from_civil.
  replace (if m <=? 2 then y + e * 400 - 1 else y + e * 400)
    with ((if m <=? 2 then y - 1 else y) + e * 400) by (destruct (m <=? 2); lia).
  rewrite Z.div_add, Z.mod_add by lia. lia.
Qed.

Lemma civil_from_days_shift z e :
  civil_from_days (z + e * 146097) =
  let '(y, m, d) := civil_from_days z in (y + e * 400, m, d).
Proof.
  unfold civil_from_days.
  replace (z + e * 146097 + 719468) with (z + 719468 + e * 146097) by lia.
  rewrite Z.div_add, Z.mod_add by lia.
  f_equal. f_equal. lia.
Qed.

Lemma civil_roundtrip z y m d :
  civil_from_days z = (y, m, d) ->
  days_from_civil y m d = z /\ 1 <= m <= 12 /\ 1 <= d <= 31
  /\ ((z + 719468) / 146097) * 400 <= y <= ((z + 719468) / 146097) * 400 + 400.
Proof.
  set (e := (z + 719468) / 146097).
  set (doe := (z + 719468) mod 146097).
  assert (Hdoe : 0 <= doe < 146097) by (apply Z.mod_pos_bound; lia).
  assert (Hz : z = (doe - 719468) + e * 146097).
  { pose proof (Z.div_mod (z + 719468) 146097 ltac:(lia)). subst e doe. lia. }
  intros Hc. rewrite Hz in Hc. rewrite civil_from_days_shift in Hc.
  pose proof (check_from_sound _ _ _ cycle_ok_all doe ltac:(lia)) as Hk.
  unfold cycle_ok in Hk.
  destruct (civil_from_days (doe - 719468)) as [[y0 m0] d0].
  assert (Hy : y = y0 + e * 400) by congruence.
  assert (Hm : m = m0) by congruence.
  assert (Hd : d = d0) by congruence.
  subst y m d.
  repeat (apply andb_true_iff in Hk; destruct Hk as [Hk ?]).
  apply Z.eqb_eq in Hk.
  rewrite days_from_civil_shift. lia.
Qed.

Lemma digit_cases k : 0 <= k <= 9 ->
  k = 0 \/ k = 1 \/ k = 2 \/ k = 3 \/ k = 4 \/ k = 5 \/ k = 6 \/ k = 7 \/ k = 8 \/ k = 9.
Proof. lia. Qed.

Ltac by_digit H :=
  apply digit_cases in H;
  repeat (destruct H as [H|H]; [subst; reflexivity|]); subst; reflexivity.

Lemma digit_is_digit k : 0 <= k <= 9 -> Js.is_digit (Js.digit k) = true.
Proof. intros H. by_digit H. Qed.

Lemma digit_val_digit k : 0 <= k <= 9 -> Js.digit_val (Js.digit k) = k.
Proof. intros H. by_digit H. Qed.

Lemma digit_not_plus k : 0 <= k <= 9 -> Ascii.eqb (Js.digit k) "+" = false.
Proof. intros H. by_digit H. Qed.

Lemma digit_not_minus k : 0 <= k <= 9 -> Ascii.eqb (Js.digit k) "-" = false.
Proof. intros H. by_digit H. Qed.

Lemma mod10 x : 0 <= x mod 10 <= 9.
Proof. pose proof (Z.mod_pos_bound x 10). lia. Qed.

Lemma num2_digits n : 0 <= n < 100 ->
  num2 (Js.digit (n / 10 mod 10)) (Js.digit (n mod 10)) = n.
Proof.
  intros H. unfold num2. rewrite !digit_val_digit by apply mod10.
  Z.div_mod_to_equations. lia.
Qed.

Lemma num3_digits n : 0 <= n < 1000 ->
  num3 (Js.digit (n / 100 mod 10)) (Js.digit (n / 10 mod 10)) (Js.digit (n mod 10)) = n.
Proof.
  intros H. unfold num3, num2. rewrite !digit_val_digit by apply mod10.
  Z.div_mod_to_equations. lia.
Qed.

Lemma num4_digits n : 0 <= n < 10000 ->
  num4 (Js.digit (n / 1000 mod 10)) (Js.digit (n / 100 mod 10))
       (Js.digit (n / 10 mod 10)) (Js.digit (n mod 10)) = n.
Proof.
  intros H. unfold num4, num3, num2. rewrite !digit_val_digit by apply mod10.
  Z.div_mod_to_equations. lia.
Qed.

Lemma num6_digits n : 0 <= n < 1000000 ->
  num6 (Js.digit (n / 100000 mod 10)) (Js.digit (n / 10000 mod 10))
       (Js.digit (n / 1000 mod 10)) (Js.digit (n / 100 mod 10))
       (Js.digit (n / 10 mod 10)) (Js.digit (n mod 10)) = n.
Proof.
  intros H. unfold num6, num4, num3, num2. rewrite !digit_val_digit by apply mod10.
  Z.div_mod_to_equations. lia.
Qed.

(** The text after the year is read back field by field. *)
Lemma parse_after_year_fields y m d h mi s ms :
  0 <= m < 100 -> 0 <= d < 100 -> 0 <= h < 100 -> 0 <= mi < 100 ->
  0 <= s < 100 -> 0 <= ms < 1000 ->
  parse_after_year y
    (list_ascii_of_string
       (String "-" (pad2 m (String "-" (pad2 d (String "T"
          (pad2 h (String ":" (pad2 mi (String ":"
             (pad2 s (String "." (pad3 ms "Z"))))))))))))) =
  time_of_fields y m d h mi s ms.
Proof.
  intros Hm Hd Hh Hmi Hs Hms.
  unfold pad3, pad2. cbn [list_ascii_of_string parse_after_year].
  cbn [forallb]. rewrite !digit_is_digit by apply mod10. cbn [andb].
  rewrite !num2_digits, num3_digits by assumption. reflexivity.
Qed.

Lemma time_of_fields_exact t y m d :
  - maxTime <= t <= maxTime ->
  civil_from_days (t / msPerDay) = (y, m, d) ->
  let r := t mod msPerDay in
  time_of_fields y m d (r / 3600000) (r / 60000 mod 60) (r / 1000 mod 60) (r mod 1000)
  = Some t.
Proof.
  intros Ht Hc r.
  destruct (civil_roundtrip _ _ _ _ Hc) as (Hdays & Hm & Hd & _).
  assert (Hr : 0 <= r < 86400000) by (apply Z.mod_pos_bound; unfold msPerDay; lia).
  assert (Hdm : t = msPerDay * (t / msPerDay) + r) by (apply Z.div_mod; unfold msPerDay; lia).
  unfold time_of_fields, calendar_day. rewrite Hdays, Hc, !Z.eqb_refl.
  replace ((1 <=? m) && (m <=? 12) && (1 <=? d) && (d <=? 31)) with true
    by (symmetry; rewrite !andb_true_iff, !Z.leb_le; lia).
  replace (r / 3600000 <=? 23) with true by (symmetry; apply Z.leb_le; dlia).
  replace (r / 60000 mod 60 <=? 59) with true by (symmetry; apply Z.leb_le; dlia).
  replace (r / 1000 mod 60 <=? 59) with true by (symmetry; apply Z.leb_le; dlia).
  cbn [andb orb].
  replace (t / msPerDay * msPerDay + r / 3600000 * 3600000 + r / 60000 mod 60 * 60000
           + r / 1000 mod 60 * 1000 + r mod 1000) with t
    by (unfold msPerDay in *; dlia).
  replace ((- maxTime <=? t) && (t <=? maxTime)) with true
    by (symmetry; rewrite andb_true_iff, !Z.leb_le; lia).
  reflexivity.
Qed.

Lemma parse_iso_exact t :
  - maxTime <= t <= maxTime -> parse_iso (iso_of_time t) = Some t.
Proof.
  intros Ht. unfold iso_of_time.
  destruct (civil_from_days (t / msPerDay)) as [[y m] d] eqn:Hc.
  pose proof (time_of_fields_exact t y m d Ht Hc) as Hf. cbv zeta in Hf.
  destruct (civil_roundtrip _ _ _ _ Hc) as (Hdays & Hm & Hd & Hy).
  set (r := t mod msPerDay) in *.
  assert (Hr : 0 <= r < 86400000) by (apply Z.mod_pos_bound; unfold msPerDay; lia).
  assert (Hy6 : - 1000000 < y < 1000000).
  { unfold maxTime, msPerDay in *.
    assert (- 100000000 <= t / 86400000 <= 100000000)
      by (split; [apply Z.div_le_lower_bound | apply Z.div_le_upper_bound]; lia).
    assert (- 700 <= (t / 86400000 + 719468) / 146097 <= 700)
      by (split; [apply Z.div_le_lower_bound | apply Z.div_le_upper_bound]; lia).
    lia. }
  assert (Hrest : forall yy,
    parse_after_year yy
      (list_ascii_of_string
         (String "-" (pad2 m (String "-" (pad2 d (String "T"
            (pad2 (r / 3600000) (String ":" (pad2 (r / 60000 mod 60) (String ":"
               (pad2 (r / 1000 mod 60) (String "." (pad3 (r mod 1000) "Z"))))))))))))) =
    time_of_fields yy m d (r / 3600000) (r / 60000 mod 60) (r / 1000 mod 60) (r mod 1000)).
  { intros yy. apply parse_after_year_fields; dlia. }
  destruct ((0 <=? y) && (y <=? 9999)) eqn:E4.
  - apply andb_true_iff in E4. rewrite !Z.leb_le in E4.
    unfold parse_iso, pad4, pad3, pad2 at 1.
    cbn [list_ascii_of_string].
    rewrite digit_not_plus, digit_not_minus by apply mod10.
    unfold parse_plain. cbn [forallb].
    rewrite !digit_is_digit by apply mod10. cbn [andb].
    rewrite num4_digits by lia.
    change (parse_after_year y ?l) with (parse_after_year y l).
    rewrite <- Hf. apply Hrest.
  - destruct (y <? 0) eqn:En.
    + apply Z.ltb_lt in En.
      unfold parse_iso, pad6, pad4, pad3, pad2 at 1.
      cbn [list_ascii_of_string Ascii.eqb Bool.eqb].
      unfold parse_expanded. cbn [forallb].
      rewrite !digit_is_digit by apply mod10. cbn [andb].
      rewrite num6_digits by lia.
      replace (- y =? 0) with false by (symmetry; apply Z.eqb_neq; lia).
      rewrite andb_false_r. cbn [negb].
      replace (-1 * - y) with y by lia.
      rewrite <- Hf. apply Hrest.
    + apply Z.ltb_ge in En.
      unfold parse_iso, pad6, pad4, pad3, pad2 at 1.
      cbn [list_ascii_of_string Ascii.eqb Bool.eqb].
      unfold parse_expanded. cbn [forallb].
      rewrite !digit_is_digit by apply mod10. cbn [andb].
      rewrite num6_digits by lia.
      replace (1 <? 0) with false by reflexivity. cbn [andb negb].
      replace (1 * y) with y by lia.
      rewrite <- Hf. apply Hrest.
Qed.

(** Whatever the engine makes of other strings, a timestamp written by
    [toISOString] reads back as the time value it was made from. *)
Lemma parse_iso_of_time other t :
  - maxTime <= t <= maxTime -> parse other (iso_of_time t) = Some t.
Proof. intros Ht. unfold parse. now rewrite parse_iso_exact. Qed.

End DateFacts.

(** ** The record store *)

Module VaultFacts.

Import Vault VaultSpec.
Local Open Scope vault_scope.
Local Open Scope list_scope.

Lemma add_trace_nil s : add_trace [] s = s.
Proof. destruct s; unfold add_trace; simpl. now rewrite app_nil_r. Qed.

Lemma add_trace_app a b s : add_trace b (add_trace a s) = add_trace (a ++ b) s.
Proof. unfold add_trace; simpl. now rewrite app_assoc. Qed.

Lemma tell_add_trace x s : tell x s = (Ok tt, add_trace [x] s).
Proof. reflexivity. Qed.

Lemma assigned_app a b : assigned (a ++ b) = assigned a ++ assigned b.
Proof.
  induction a as [|x a IH]; simpl; [reflexivity|].
  destruct x; try exact IH. destruct (r_userID r); simpl; now rewrite IH.
Qed.

Lemma backups_app a b : backups (a ++ b) = (backups a + backups b)%nat.
Proof.
  induction a as [|x a IH]; simpl; [reflexivity|].
  destruct x; simpl; now rewrite IH.
Qed.

Lemma log_lines_app a b : log_lines (a ++ b) = log_lines a ++ log_lines b.
Proof.
  induction a as [|x a IH]; simpl; [reflexivity|].
  destruct x; simpl; now rewrite IH.
Qed.

Lemma plain_assigned new : forallb plain new = true -> assigned new = [].
Proof.
  induction new as [|x new IH]; simpl; [reflexivity|].
  intros H. apply andb_true_iff in H. destruct H as [Hx H].
  destruct x; try discriminate; auto.
Qed.

Lemma plain_backups new : forallb plain new = true -> backups new = O.
Proof.
  induction new as [|x new IH]; simpl; [reflexivity|].
  intros H. apply andb_true_iff in H. destruct H as [Hx H].
  destruct x; try discriminate; auto.
Qed.

Lemma from_logger_plain new : forallb from_logger new = true -> forallb plain new = true.
Proof.
  induction new as [|x new IH]; simpl; [reflexivity|].
  intros H. apply andb_true_iff in H. destruct H as [Hx H].
  rewrite (IH H). destruct x; try discriminate; reflexivity.
Qed.

Lemma not_log_lines new : forallb not_log new = true -> log_lines new = [].
Proof.
  induction new as [|x new IH]; simpl; [reflexivity|].
  intros H. apply andb_true_iff in H. destruct H as [Hx H].
  destruct x; try discriminate; auto.
Qed.

(** *** The event bus *)

Lemma run_listeners_frame e ev p : forall ls s,
  exists new,
    run_listeners e ls ev p s = (Ok tt, add_trace new s)
    /\ forallb from_logger new = true.
Proof.
  induction ls as [|[k l] ls IH]; intros s.
  - exists []. rewrite add_trace_nil. split; reflexivity.
  - cbn [run_listeners]. unfold bind at 1.
    assert (H1 : exists new1,
      (if String.eqb k ev
       then try_catch (run_listener e l p) (fun _ => ret tt)
       else ret tt) s = (Ok tt, add_trace new1 s) /\ forallb from_logger new1 = true).
    { destruct (String.eqb k ev).
      - destruct l as [action], p as [rec|]; unfold try_catch, run_listener.
        + eexists [_; _].
          cbv [writeLog bind tell modify add_trace]; cbn [trace client collection staticUserId records listeners].
          rewrite <- app_assoc. split; reflexivity.
        + exists []. rewrite add_trace_nil. split; reflexivity.
      - exists []. rewrite add_trace_nil. split; reflexivity. }
    destruct H1 as (new1 & -> & Hp1).
    destruct (IH (add_trace new1 s)) as (new2 & -> & Hp2).
    exists (new1 ++ new2). rewrite add_trace_app. split; [reflexivity|].
    rewrite forallb_app, Hp1, Hp2. reflexivity.
Qed.

Lemma emit_frame e ev p s :
  exists new,
    emit e ev p s = (Ok tt, add_trace (Emitted ev p :: new) s)
    /\ forallb from_logger new = true
    /\ (listeners s = [] -> new = []).
Proof.
  destruct s as [cl co n rs ls tr].
  destruct ls as [|l ls].
  - exists []. repeat split; reflexivity.
  - destruct (run_listeners_frame e ev p (l :: ls)
                (mkState cl co n rs (l :: ls) (tr ++ [Emitted ev p])))
      as (new & H & Hp).
    exists new. split; [|split; [exact Hp | discriminate]].
    cbv [emit bind tell modify gets].
    cbn [client collection staticUserId records listeners trace].
    rewrite H. cbv [add_trace].
    cbn [client collection staticUserId records listeners trace].
    now rewrite <- app_assoc.
Qed.

(** *** Connection and backup *)

Lemma ensureBackupDir_frame ok s :
  exists new, ensureBackupDir ok s = (Ok tt, add_trace new s)
              /\ forallb plain new = true /\ forallb not_log new = true.
Proof.
  unfold ensureBackupDir, try_catch. destruct ok.
  - exists [MkDir BACKUP_DIR]. repeat split.
  - exists []. simpl. rewrite add_trace_nil. repeat split.
Qed.

Lemma ensureConnection_connected e s :
  collection s = true -> ensureConnection e s = (Ok tt, s).
Proof. intros H. unfold ensureConnection, bind, gets. now rewrite H. Qed.

Lemma top_userID_max rs :
  match top_userID rs with
  | Some r => In r rs /\ r_userID r = max_userID rs /\ max_userID rs <> None
  | None => max_userID rs = None
  end.
Proof.
  induction rs as [|r rs IH]; simpl; [reflexivity|].
  destruct (r_userID r) as [n|] eqn:En.
  - destruct (top_userID rs) as [r'|].
    + destruct IH as (Hin & Hm & Hne).
      destruct (max_userID rs) as [m|]; [|congruence].
      rewrite Hm.
      destruct (m <=? n) eqn:E.
      * apply Z.leb_le in E. rewrite En. repeat split; auto.
        -- f_equal. lia.
        -- discriminate.
      * apply Z.leb_gt in E. rewrite Hm. repeat split; auto.
        -- f_equal. lia.
        -- discriminate.
    + rewrite IH. rewrite En. repeat split; auto. discriminate.
  - destruct (top_userID rs) as [r'|].
    + destruct IH as (Hin & Hm & Hne). auto.
    + exact IH.
Qed.

Ltac mnorm :=
  cbv [bind ret throw try_catch lift gets modify tell add_trace
       set_client set_collection set_staticUserId set_records set_listeners];
  cbn [client collection staticUserId records listeners trace negb andb orb].

Ltac mnorm_in H :=
  cbv [bind ret throw try_catch lift gets modify tell add_trace
       set_client set_collection set_staticUserId set_records set_listeners] in H;
  cbn [client collection staticUserId records listeners trace negb andb orb] in H.

Lemma ensureConnection_fresh e s :
  collection s = false ->
  exists new,
    forallb plain new = true /\ forallb not_log new = true /\
    ((client s = false /\ fails e AtConstructor = true /\ new = [] /\
      ensureConnection e s = (Throw ParseError, s))
     \/
     (client s = false /\ fails e AtConnect = true /\
      ensureConnection e s = (Throw ConnectionError, add_trace new (set_client true s)))
     \/
     (fails e AtDatabase = true /\ new = [] /\
      ensureConnection e s = (Throw ArgumentError, set_client true s))
     \/
     ((client s = true \/ connect_ok e = true) /\ fails e AtDatabase = false /\
      ensureConnection e s =
        (Ok tt, add_trace new
                  (mkState true true (seed e s) (records s) (listeners s) (trace s))))).
Proof.
  intros Hc. destruct s as [cl co n rs ls tr]. cbn in Hc. subst co.
  pose proof (top_userID_max rs) as Ht.
  unfold seed, ensureConnection, ensureBackupDir, fails.
  cbn [client collection staticUserId records listeners trace].
  destruct (mkdir_ok e), cl, (connect_ok e), (connect_failure e), (scan_ok e);
    cbn [negb andb connect_stage_eqb]; mnorm;
    try (destruct (top_userID rs) as [r|];
         [ destruct Ht as (_ & Hm & _); rewrite <- Hm;
           cbn [option_map fetch_userID d_userID];
           destruct (r_userID r) as [k|]; cbn [opt_val]
         | rewrite Ht; cbn [option_map] ]);
    mnorm; rewrite <- ?app_assoc; cbn [app];
    first
      [ exists []; split; [reflexivity|]; split; [reflexivity|];
        first [ left; repeat split; reflexivity
              | right; right; left; repeat split; reflexivity ]
      | eexists; (split; [|split]); cycle 2;
        [ first [ right; left; split; [reflexivity|]; split; reflexivity
                | right; right; right; split; [auto; fail|]; split; reflexivity ]
        | reflexivity | reflexivity ] ].
Qed.

(** Every API function starts with [await ensureConnection()]. *)
Lemma ensureConnection_cases e s :
  (exists err s1, ensureConnection e s = (Throw err, s1)
     /\ collection s = false /\ collection s1 = false
     /\ staticUserId s1 = staticUserId s /\ records s1 = records s
     /\ listeners s1 = listeners s
     /\ exists new, trace s1 = trace s ++ new
          /\ forallb plain new = true /\ forallb not_log new = true)
  \/
  (exists s1, ensureConnection e s = (Ok tt, s1)
     /\ collection s1 = true /\ records s1 = records s
     /\ listeners s1 = listeners s
     /\ staticUserId s1 = (if collection s then staticUserId s else seed e s)
     /\ exists new, trace s1 = trace s ++ new
          /\ forallb plain new = true /\ forallb not_log new = true).
Proof.
  destruct (collection s) eqn:Hc.
  - right. exists s. rewrite ensureConnection_connected by exact Hc.
    repeat split; auto. exists []. now rewrite app_nil_r.
  - destruct (ensureConnection_fresh e s Hc) as
      (new & Hp & Hl & [(_ & _ & -> & H)|[(_ & _ & H)|[(_ & -> & H)|(_ & _ & H)]]]).
    + left. do 2 eexists. split; [exact H|]. repeat split; auto.
      exists []. now rewrite app_nil_r.
    + left. do 2 eexists. split; [exact H|]. repeat split; auto.
      exists new. auto.
    + left. do 2 eexists. split; [exact H|]. repeat split; auto.
      exists []. cbn. now rewrite app_nil_r.
    + right. eexists. split; [exact H|]. repeat split; auto.
      exists new. auto.
Qed.

Lemma bind_ensureConnection_ok {A} e (k : unit -> M A) s s1 :
  ensureConnection e s = (Ok tt, s1) ->
  bind (ensureConnection e) k s = k tt s1.
Proof. intros H. unfold bind. now rewrite H. Qed.

Lemma bind_ensureConnection_throw {A} e (k : unit -> M A) s s1 err :
  ensureConnection e s = (Throw err, s1) ->
  bind (ensureConnection e) k s = (Throw err, s1).
Proof. intros H. unfold bind. now rewrite H. Qed.

Lemma bind_connected {A} e (k : unit -> M A) s :
  collection s = true -> bind (ensureConnection e) k s = k tt s.
Proof.
  intros H. apply bind_ensureConnection_ok. now apply ensureConnection_connected.
Qed.

Lemma filter_all rs : filter (matches Q_all) rs = rs.
Proof. induction rs as [|r rs IH]; simpl; congruence. Qed.

Lemma createBackup_connected e s :
  collection s = true ->
  createBackup e s = (Ok tt, add_trace (backup_effects e (records s)) s).
Proof.
  intros Hc. destruct s as [cl co n rs ls tr]. cbn in Hc. subst co.
  unfold createBackup, ensureBackupDir, findAll, backup_effects, backup_file.
  destruct (backup_mkdir_ok e), (backup_find_ok e), (backup_write_ok e); mnorm;
    rewrite ?filter_all, <- ?app_assoc; cbn [app]; reflexivity.
Qed.

Lemma backup_effects_backups e rs : backups (backup_effects e rs) = 1%nat.
Proof.
  unfold backup_effects.
  destruct (backup_mkdir_ok e), (backup_find_ok e && backup_write_ok e); reflexivity.
Qed.

Lemma backup_effects_assigned e rs : assigned (backup_effects e rs) = [].
Proof.
  unfold backup_effects.
  destruct (backup_mkdir_ok e), (backup_find_ok e && backup_write_ok e); reflexivity.
Qed.

Lemma backup_effects_log e rs : log_lines (backup_effects e rs) = [].
Proof.
  unfold backup_effects.
  destruct (backup_mkdir_ok e), (backup_find_ok e && backup_write_ok e); reflexivity.
Qed.

(** [createBackup] returns normally in every state. *)
Lemma createBackup_total e s : exists s', createBackup e s = (Ok tt, s').
Proof.
  destruct (collection s) eqn:Hc.
  - eexists. now apply createBackup_connected.
  - destruct s as [cl co n rs ls tr]. cbn in Hc. subst co.
    unfold createBackup, ensureBackupDir, findAll. mnorm.
    destruct (ensureConnection e _) as [[[]|err] s1]; mnorm;
      destruct (backup_mkdir_ok e), (backup_find_ok e), (backup_write_ok e); mnorm;
      eexists; reflexivity.
Qed.

(** *** Normalisation *)

Lemma truthy_toString v : truthy v = true -> toString v = Ok (String_ v).
Proof. destruct v; simpl; try discriminate; reflexivity. Qed.

Lemma toPublic_view other doc :
  toPublic other (Some doc) =
  if updatedAt_ok other doc then Ok (Some (public_view other doc))
  else Throw RangeError.
Proof.
  unfold toPublic, updatedAt_ok, public_view, js_or.
  assert (Hid : (if truthy (d__id doc)
                 then rbind (rcatch (toString (d__id doc))
                                    (fun _ => Ok (String_ (d__id doc))))
                            (fun s => Ok (Some s))
                 else if truthy (d_id doc) then Ok (Some (String_ (d_id doc)))
                 else Ok None)
                = Ok (if truthy (d__id doc) then Some (String_ (d__id doc))
                      else if truthy (d_id doc) then Some (String_ (d_id doc))
                      else None)).
  { destruct (truthy (d__id doc)) eqn:E1.
    - rewrite truthy_toString by exact E1. reflexivity.
    - destruct (truthy (d_id doc)); reflexivity. }
  rewrite Hid. cbn [rbind].
  destruct (truthy (d_updatedAt doc)) eqn:Eu; cbn [negb orb truthy].
  - rewrite Eu. destruct (Date_new other (d_updatedAt doc)); reflexivity.
  - reflexivity.
Qed.

Lemma iso_nonempty t : String.eqb (JsDate.iso_of_time t) EmptyString = false.
Proof.
  unfold JsDate.iso_of_time.
  destruct (JsDate.civil_from_days _) as [[y m] d].
  destruct ((0 <=? y) && (y <=? 9999)); [reflexivity|].
  destruct (y <? 0); reflexivity.
Qed.

Lemma Date_new_iso other t :
  - JsDate.maxTime <= t <= JsDate.maxTime ->
  Date_new other (JStr (JsDate.iso_of_time t)) = Some t.
Proof. intros H. simpl. now apply DateFacts.parse_iso_of_time. Qed.

(** [toPublic] of a string. *)
Lemma toPublic_string other : toPublic other (Some string_properties) = Ok (Some blank).
Proof. reflexivity. Qed.

(** *** Lookups in the collection *)

Lemma ObjectId_eqb_eq a b : ObjectId_eqb a b = true <-> a = b.
Proof.
  unfold ObjectId_eqb. rewrite String.eqb_eq.
  destruct a as [x], b as [y]; simpl. split; congruence.
Qed.

Lemma find_app_fresh o r rs :
  has_id o rs = false -> r_id r = o ->
  find (matches (Q_id o)) (rs ++ [r]) = Some r.
Proof.
  intros Hf Hr. induction rs as [|x rs IH]; simpl in *.
  - replace (ObjectId_eqb (r_id r) o) with true; [reflexivity|].
    symmetry. now apply ObjectId_eqb_eq.
  - apply orb_false_iff in Hf. destruct Hf as [Hx Hf].
    rewrite Hx. auto.
Qed.

(** *** The API functions on a connected store *)

Ltac use_emit lnew Hp Hl :=
  match goal with
  | |- context [emit ?e ?ev ?p ?st] =>
      let H := fresh "Hemit" in
      destruct (emit_frame e ev p st) as (lnew & H & Hp & Hl);
      rewrite H; clear H
  end.

Ltac use_backup :=
  match goal with
  | |- context [createBackup ?e ?st] =>
      rewrite (createBackup_connected e st) by reflexivity
  end.

Lemma addRecord_connected e name value s :
  collection s = true ->
  let n := staticUserId s in
  let r := new_record e name value n in
  let out := public_view (other_dates e) (fetch r) in
  let s2 := mkState (client s) true (n + 1) (records s ++ [r]) (listeners s)
                    (trace s ++ [Inserted r]) in
  if insert_ok e && negb (has_id (fresh_id e) (records s)) then
    if findOne_ok e then
      exists lnew,
        addRecord e name value s =
          (Ok (Some out),
           add_trace (Emitted "recordAdded" (Some out) :: lnew
                      ++ backup_effects e (records s ++ [r])) s2)
        /\ forallb from_logger lnew = true
        /\ (listeners s = [] -> lnew = [])
    else addRecord e name value s = (Throw DriverError, s2)
  else addRecord e name value s = (Throw DriverError, set_staticUserId (n + 1) s).
Proof.
  intros Hc. destruct s as [cl co n rs ls tr]. cbn in Hc. subst co.
  cbn [staticUserId records client listeners trace]. cbv zeta.
  unfold addRecord.
  rewrite bind_connected by reflexivity.
  unfold insertOne. mnorm.
  destruct (insert_ok e && negb (has_id (fresh_id e) rs)) eqn:Ei; [|reflexivity].
  mnorm. unfold findOne. mnorm.
  destruct (findOne_ok e); [|reflexivity].
  apply andb_true_iff in Ei. destruct Ei as [_ Ei]. apply negb_true_iff in Ei.
  fold (new_record e name value n).
  rewrite (find_app_fresh (fresh_id e) (new_record e name value n) rs Ei eq_refl).
  cbn [option_map]. rewrite toPublic_view.
  replace (updatedAt_ok (other_dates e) (fetch (new_record e name value n)))
    with true by reflexivity.
  mnorm. use_emit lnew Hp Hl. mnorm. use_backup. mnorm.
  exists lnew. split; [|split; [exact Hp | exact Hl]].
  rewrite <- !app_assoc. reflexivity.
Qed.

Lemma getQueryFromId_total id : exists q, getQueryFromId id = Ok q.
Proof.
  destruct id as [| |n|s0]; simpl; eauto.
  destruct (String.length (Js.trim s0) =? 0)%nat; eauto.
  destruct (Js.all_digits (Js.trim s0)); eauto.
  destruct (ObjectId_new (Js.trim s0)); simpl; eauto.
Qed.

Lemma updateRecord_connected e id newName newValue s q :
  collection s = true ->
  getQueryFromId id = Ok q ->
  if modify_ok e then
    match found q s with
    | None => updateRecord e id newName newValue s = (Ok None, s)
    | Some r =>
        let s2 := set_records (update_first q (apply_set newName newValue
                                 (JsDate.iso_of_time (now e))) (records s)) s in
        if negb (String.eqb newValue EmptyString) then
          exists lnew,
            updateRecord e id newName newValue s =
              (Ok (Some blank),
               add_trace (Emitted "recordUpdated" (Some blank) :: lnew) s2)
            /\ forallb from_logger lnew = true
            /\ (listeners s = [] -> lnew = [])
        else updateRecord e id newName newValue s = (Ok None, s2)
    end
  else updateRecord e id newName newValue s = (Throw DriverError, s).
Proof.
  intros Hc Hq. destruct s as [cl co n rs ls tr]. cbn in Hc. subst co.
  unfold updateRecord, found.
  rewrite bind_connected by reflexivity.
  rewrite Hq. unfold findOneAndUpdate. mnorm.
  destruct (modify_ok e); [|reflexivity].
  destruct (find (matches q) rs) as [r|]; [|reflexivity].
  mnorm. unfold value_field. cbn [fetch apply_set d_value r_value truthy].
  destruct (String.eqb newValue EmptyString); cbn [negb]; [reflexivity|].
  rewrite toPublic_string.
  mnorm. use_emit lnew Hp Hl. mnorm.
  exists lnew. split; [|split; [exact Hp | exact Hl]].
  rewrite <- ?app_assoc. reflexivity.
Qed.

Lemma deleteRecord_connected e id s q :
  collection s = true ->
  getQueryFromId id = Ok q ->
  if modify_ok e then
    match found q s with
    | None => deleteRecord e id s = (Ok None, s)
    | Some r =>
        let s2 := set_records (remove_first q (records s)) s in
        if negb (String.eqb (r_value r) EmptyString) then
          exists lnew,
            deleteRecord e id s =
              (Ok (Some blank),
               add_trace (Emitted "recordDeleted" (Some blank)
                          :: lnew ++ backup_effects e (remove_first q (records s))) s2)
            /\ forallb from_logger lnew = true
            /\ (listeners s = [] -> lnew = [])
        else deleteRecord e id s = (Ok None, s2)
    end
  else deleteRecord e id s = (Throw DriverError, s).
Proof.
  intros Hc Hq. destruct s as [cl co n rs ls tr]. cbn in Hc. subst co.
  unfold deleteRecord, found.
  rewrite bind_connected by reflexivity.
  rewrite Hq. unfold findOneAndDelete. mnorm.
  destruct (modify_ok e); [|reflexivity].
  destruct (find (matches q) rs) as [r|]; [|reflexivity].
  mnorm. unfold value_field. cbn [fetch d_value truthy].
  destruct (String.eqb (r_value r) EmptyString); cbn [negb]; [reflexivity|].
  rewrite toPublic_string.
  mnorm. use_emit lnew Hp Hl. mnorm. use_backup. mnorm.
  exists lnew. split; [|split; [exact Hp | exact Hl]].
  rewrite <- !app_assoc. reflexivity.
Qed.

Lemma mapM_lift_state {A B} (f : A -> result B) (l : list A) (s : state) :
  snd (mapM (fun a => lift (f a)) l s) = s.
Proof.
  induction l as [|a l IH]; [reflexivity|].
  cbn [mapM]. unfold bind at 1. unfold lift at 1.
  destruct (f a); [|reflexivity].
  unfold bind.
  destruct (mapM (fun a0 => lift (f a0)) l s) as [[bs|err] s']; simpl in *;
    subst s'; reflexivity.
Qed.

Lemma listRecords_connected e s :
  collection s = true -> snd (listRecords e s) = s.
Proof.
  intros Hc. unfold listRecords.
  rewrite bind_connected by exact Hc.
  unfold findAll. mnorm. destruct (find_ok e); [|reflexivity].
  apply mapM_lift_state.
Qed.

(** *** One call, then a run of calls *)

Lemma conn_step_refl s : collection s = true -> conn_step s s.
Proof.
  intros Hc. exists []. rewrite app_nil_r. repeat split; auto. lia.
Qed.

Lemma addRecord_conn_step e name value s :
  collection s = true -> conn_step s (snd (addRecord e name value s)).
Proof.
  intros Hc. pose proof (addRecord_connected e name value s Hc) as H.
  cbv zeta in H.
  destruct (insert_ok e && negb (has_id (fresh_id e) (records s))).
  - destruct (findOne_ok e).
    + destruct H as (lnew & -> & Hp & Hl). cbn [snd].
      eexists. cbn [add_trace trace listeners collection staticUserId].
      rewrite <- app_assoc. split; [reflexivity|].
      split; [reflexivity|]. split; [reflexivity|].
      split; [|split; [lia|right]].
      * intros Hn. rewrite (Hl Hn). cbn [app log_lines].
        apply backup_effects_log.
      * cbn [app assigned new_record r_userID].
        rewrite assigned_app, (plain_assigned _ (from_logger_plain _ Hp)), backup_effects_assigned.
        split; reflexivity.
    + rewrite H. cbn [snd]. exists [Inserted (new_record e name value (staticUserId s))].
      cbn. repeat split; auto; try lia; try (right; split; reflexivity).
  - rewrite H. cbn [snd]. exists []. cbn. rewrite app_nil_r.
    repeat split; auto; lia.
Qed.

Lemma updateRecord_conn_step e id n v s :
  collection s = true -> conn_step s (snd (updateRecord e id n v s)).
Proof.
  intros Hc. destruct (getQueryFromId_total id) as (q & Hq).
  pose proof (updateRecord_connected e id n v s q Hc Hq) as H.
  destruct (modify_ok e).
  - destruct (found q s) as [r|].
    + cbv zeta in H. destruct (negb (String.eqb _ _)).
      * destruct H as (lnew & -> & Hp & Hl). cbn [snd].
        eexists. cbn [add_trace set_records trace listeners collection staticUserId].
        split; [reflexivity|]. split; [reflexivity|]. split; [exact Hc|].
        split; [|split; [lia|left]].
        -- intros Hn. rewrite (Hl Hn). reflexivity.
        -- cbn [assigned]. now apply plain_assigned, from_logger_plain.
      * rewrite H. cbn [snd]. exists []. cbn. rewrite app_nil_r.
        repeat split; auto; lia.
    + rewrite H. now apply conn_step_refl.
  - rewrite H. now apply conn_step_refl.
Qed.

Lemma deleteRecord_conn_step e id s :
  collection s = true -> conn_step s (snd (deleteRecord e id s)).
Proof.
  intros Hc. destruct (getQueryFromId_total id) as (q & Hq).
  pose proof (deleteRecord_connected e id s q Hc Hq) as H.
  destruct (modify_ok e).
  - destruct (found q s) as [r|].
    + cbv zeta in H. destruct (negb (String.eqb _ _)).
      * destruct H as (lnew & -> & Hp & Hl). cbn [snd].
        eexists. cbn [add_trace set_records trace listeners collection staticUserId].
        split; [reflexivity|]. split; [reflexivity|]. split; [exact Hc|].
        split; [|split; [lia|left]].
        -- intros Hn. rewrite (Hl Hn). cbn [app log_lines].
           apply backup_effects_log.
        -- cbn [assigned].
           rewrite assigned_app, (plain_assigned _ (from_logger_plain _ Hp)), backup_effects_assigned.
           reflexivity.
      * rewrite H. cbn [snd]. exists []. cbn. rewrite app_nil_r.
        repeat split; auto; lia.
    + rewrite H. now apply conn_step_refl.
  - rewrite H. now apply conn_step_refl.
Qed.

Lemma snd_bind_ret {A B} (m : M A) (f : A -> B) s :
  snd (bind m (fun a => ret (f a)) s) = snd (m s).
Proof. unfold bind, ret. destruct (m s) as [[a|err] s']; reflexivity. Qed.

Lemma run_call_conn_step e c s :
  is_close c = false -> collection s = true ->
  conn_step s (snd (run_call e c s)).
Proof.
  intros Hcl Hc. destruct c; try discriminate; cbn [run_call];
    rewrite snd_bind_ret.
  - unfold init. rewrite ensureConnection_connected by exact Hc.
    now apply conn_step_refl.
  - now apply addRecord_conn_step.
  - rewrite listRecords_connected by exact Hc. now apply conn_step_refl.
  - now apply updateRecord_conn_step.
  - now apply deleteRecord_conn_step.
Qed.

Lemma run_call_after_connection e c s :
  is_close c = false ->
  run_call e c s = bind (ensureConnection e) (after_connection e c) s.
Proof.
  intros Hcl. destruct c; try discriminate; cbn [run_call after_connection];
    unfold init, addRecord, listRecords, updateRecord, deleteRecord, bind;
    destruct (ensureConnection e s) as [[[]|err] s1]; reflexivity.
Qed.

Lemma run_call_full_step e c s :
  is_close c = false -> full_step s (snd (run_call e c s)).
Proof.
  intros Hcl.
  destruct (ensureConnection_cases e s) as
    [(err & s1 & H & Hc & Hc1 & Hn & Hr & Hls & new & Ht & Hp & Hl)
    |(s1 & H & Hc1 & Hr & Hls & Hn & new & Ht & Hp & Hl)].
  - rewrite run_call_after_connection by exact Hcl.
    rewrite (bind_ensureConnection_throw _ _ _ _ _ H). cbn [snd].
    exists new. repeat split; auto; try congruence.
    + intros _. now apply not_log_lines.
    + left. now apply plain_assigned.
  - pose proof (run_call_conn_step e c s1 Hcl Hc1) as Hs.
    rewrite (run_call_after_connection e c s1 Hcl) in Hs.
    rewrite (bind_connected e _ s1 Hc1) in Hs.
    rewrite run_call_after_connection by exact Hcl.
    rewrite (bind_ensureConnection_ok _ _ _ _ H).
    destruct Hs as (new2 & Ht2 & Hls2 & Hc2 & Hl2 & Hle & Ha).
    exists (new ++ new2). rewrite Ht2, Ht, <- app_assoc.
    split; [reflexivity|]. split; [congruence|].
    split; [|split].
    + intros Hnil. rewrite log_lines_app, (not_log_lines _ Hl), Hl2; [reflexivity|].
      congruence.
    + intros Hc. rewrite Hc in Hn. split; [exact Hc2 | lia].
    + rewrite assigned_app, (plain_assigned _ Hp). cbn [app].
      destruct Ha as [Ha|[Ha Hn2]]; [left; exact Ha|].
      right. exists (staticUserId s1). repeat split; auto.
      intros Hc. now rewrite Hc in Hn.
Qed.

Lemma close_step e s :
  exists s', close e s = (Ok tt, s')
    /\ trace s' = trace s /\ listeners s' = listeners s
    /\ staticUserId s' = staticUserId s /\ records s' = records s
    /\ (client s = true -> collection s' = false /\ client s' = false).
Proof.
  destruct s as [cl co n rs ls tr]. unfold close. mnorm.
  destruct cl; mnorm; [destruct (close_ok e); mnorm|];
    eexists; repeat split; discriminate.
Qed.

Lemma run_cons e c cs s :
  snd (run ((e, c) :: cs) s) = snd (run cs (snd (run_call e c s))).
Proof.
  cbn [run]. destruct (run_call e c s) as [r s1]. cbn [snd].
  destruct (run cs s1) as [rs s2]. reflexivity.
Qed.

(** On a connected process, a run without [close] gives no record a
    userID below the counter it starts with. *)
Lemma run_floor cs : forall s,
  close_free cs = true ->
  collection s = true ->
  exists new,
    trace (snd (run cs s)) = trace s ++ new
    /\ Forall (fun n => staticUserId s <= n) (assigned new).
Proof.
  induction cs as [|[e c] cs IH]; intros s Hcf Hcs.
  - exists []. cbn. rewrite app_nil_r. split; constructor.
  - cbn in Hcf. apply andb_true_iff in Hcf. destruct Hcf as [Hc Hcf].
    apply negb_true_iff in Hc. rewrite run_cons.
    destruct (run_call_full_step e c s Hc) as (new1 & Ht1 & _ & _ & Hmon & Ha).
    destruct (Hmon Hcs) as [Hc1 Hle].
    destruct (IH (snd (run_call e c s)) Hcf Hc1) as (new2 & Ht2 & Hf2).
    exists (new1 ++ new2). rewrite Ht2, Ht1, <- app_assoc.
    split; [reflexivity|]. rewrite assigned_app. apply Forall_app. split.
    + destruct Ha as [Ha|(n & Ha & _ & _ & Hn)]; rewrite Ha; constructor.
      * rewrite (Hn Hcs). lia.
      * constructor.
    + eapply Forall_impl; [|exact Hf2]. cbn. intros; lia.
Qed.

End VaultFacts.

(** ** The claims *)

Module Claims.
Import Vault VaultSpec VaultFacts Scenario SearchSpec.
Local Open Scope list_scope.

(** C1, as stated, fails: after [close()] the next connection re-seeds the
    counter from the stored maximum, so the userID of a deleted record is
    issued again within the same process. *)
Lemma userID_reused_after_close :
  assigned (trace (snd (run reuse_calls (boot [])))) = [1; 2; 2]
  /\ ~ StronglySorted Z.lt (assigned (trace (snd (run reuse_calls (boot []))))).
Proof.
  assert (H : assigned (trace (snd (run reuse_calls (boot [])))) = [1; 2; 2])
    by (vm_compute; reflexivity).
  split; [exact H|]. rewrite H. intros Hs.
  inversion Hs as [|a l Hl Hf]; subst.
  inversion Hl as [|b l' Hl' Hf']; subst.
  inversion Hf' as [|c l'' Hlt _]; subst. lia.
Qed.

(** C1 (amended): in any state of the process, over any sequence of API
    calls that does not contain [close], the userIDs given to the inserted
    records are strictly increasing, whatever is deleted or updated in
    between and whichever calls fail; on a connected process they are not
    below the current counter. *)
Theorem userIDs_increase_while_connected :
  forall (cs : list (Env * call)) (s : state),
    close_free cs = true ->
    exists new,
      trace (snd (run cs s)) = trace s ++ new
      /\ StronglySorted Z.lt (assigned new)
      /\ (collection s = true ->
          Forall (fun n => staticUserId s <= n) (assigned new)).
Proof.
  intros cs. induction cs as [|[e c] cs IH]; intros s Hcf.
  - exists []. cbn. rewrite app_nil_r. repeat split; constructor.
  - cbn in Hcf. apply andb_true_iff in Hcf. destruct Hcf as [Hc Hcf].
    apply negb_true_iff in Hc.
    rewrite run_cons.
    destruct (run_call_full_step e c s Hc) as (new1 & Ht1 & _ & _ & Hmon & Ha).
    destruct (IH (snd (run_call e c s)) Hcf) as (new2 & Ht2 & Hs2 & Hf2).
    exists (new1 ++ new2). rewrite Ht2, Ht1, <- app_assoc.
    split; [reflexivity|]. rewrite assigned_app.
    destruct Ha as [Ha|(n & Ha & Hc1 & Hn1 & Hn)]; rewrite Ha; cbn [app].
    + split; [exact Hs2|]. intros Hcs. destruct (Hmon Hcs) as [Hc1 Hle].
      eapply Forall_impl; [|exact (Hf2 Hc1)]. cbn. intros; lia.
    + specialize (Hf2 Hc1). split.
      * constructor; [exact Hs2|].
        eapply Forall_impl; [|exact Hf2]. cbn. intros; lia.
      * intros Hcs. constructor; [rewrite (Hn Hcs); lia|].
        eapply Forall_impl; [|exact Hf2]. cbn. intros a Ha'.
        rewrite (Hn Hcs) in Hn1. lia.
Qed.

Lemma userIDs_increase_while_connected_witness :
  close_free steady_calls = true
  /\ exists new,
       trace (snd (run steady_calls (boot []))) = trace (boot []) ++ new
       /\ StronglySorted Z.lt (assigned new)
       /\ (collection (boot []) = true ->
           Forall (fun n => staticUserId (boot []) <= n) (assigned new)).
Proof.
  split; [reflexivity|].
  apply (userIDs_increase_while_connected steady_calls (boot [])). reflexivity.
Defined.

Lemma length_zero_iff (s : string) : (String.length s =? 0)%nat = true <-> s = EmptyString.
Proof. destruct s; simpl; split; intros H; congruence. Qed.

(** C2: [getQueryFromId] never throws; a numeric token (a number, or a
    string that is all digits once trimmed) selects exactly the records
    with that userID, a non-numeric token that the ObjectId constructor
    accepts selects exactly the record with that internal id, and an
    absent, empty or malformed token selects no record; every token is
    of one of these three kinds. *)
Theorem id_resolution :
  forall id : token,
    exists q,
      getQueryFromId id = Ok q
      /\ (forall n, numeric_token id n ->
            forall r, matches q r = true <-> r_userID r = Some n)
      /\ (forall o, object_id_token id o ->
            forall r, matches q r = true <-> r_id r = o)
      /\ (unusable_token id -> forall r, matches q r = false)
      /\ ((exists n, numeric_token id n) \/ (exists o, object_id_token id o)
          \/ unusable_token id).
Proof.
  assert (Hnum : forall n r, matches (Q_userID n) r = true <-> r_userID r = Some n).
  { intros n r. simpl. destruct (r_userID r) as [k|].
    - rewrite Z.eqb_eq. split; congruence.
    - split; discriminate. }
  intros [| |n|s0].
  - exists Q_id_absent. split; [reflexivity|].
    split; [intros n [H|(s & H & _)]; discriminate|].
    split; [intros o (s & H & _); discriminate|].
    split; [reflexivity|]. right; right; left; reflexivity.
  - exists Q_id_absent. split; [reflexivity|].
    split; [intros n [H|(s & H & _)]; discriminate|].
    split; [intros o (s & H & _); discriminate|].
    split; [reflexivity|]. right; right; right; left; reflexivity.
  - exists (Q_userID n). split; [reflexivity|].
    split; [intros k [H|(s & H & _)]; [injection H as <-; apply Hnum|discriminate]|].
    split; [intros o (s & H & _); discriminate|].
    split; [intros [H|[H|(s & H & _)]]; discriminate|].
    left. exists n. left. reflexivity.
  - cbn [getQueryFromId].
    destruct (String.length (Js.trim s0) =? 0)%nat eqn:El.
    + apply length_zero_iff in El.
      exists Q_id_absent. split; [reflexivity|].
      split; [intros n [H|(s & H & Hd & _)]; [discriminate|];
              injection H as <-; rewrite El in Hd; discriminate|].
      split; [intros o (s & H & _ & Ho); injection H as <-;
              rewrite El in Ho; discriminate|].
      split; [reflexivity|].
      right; right; right; right. exists s0. auto.
    + assert (Hne : Js.trim s0 <> EmptyString).
      { intros E. apply length_zero_iff in E. congruence. }
      destruct (Js.all_digits (Js.trim s0)) eqn:Ed.
      * exists (Q_userID (Js.parseInt (Js.trim s0))). split; [reflexivity|].
        split; [intros n [H|(s & H & _ & ->)]; [discriminate|];
                injection H as <-; apply Hnum|].
        split; [intros o (s & H & Hd & _); injection H as <-; congruence|].
        split; [intros [H|[H|(s & H & [Ht|[Hd _]])]]; try discriminate;
                injection H as <-; congruence|].
        left. exists (Js.parseInt (Js.trim s0)). right. exists s0. auto.
      * destruct (ObjectId_new (Js.trim s0)) as [o|err] eqn:Eo; cbn [rbind rcatch].
        -- exists (Q_id o). split; [reflexivity|].
           split; [intros n [H|(s & H & Hd & _)]; [discriminate|];
                   injection H as <-; congruence|].
           split; [intros o' (s & H & _ & Ho); injection H as <-;
                   assert (o' = o) by congruence; subst o';
                   intros r; simpl; apply ObjectId_eqb_eq|].
           split; [intros [H|[H|(s & H & [Ht|[_ [err He]]])]]; try discriminate;
                   injection H as <-; congruence|].
           right; left. exists o, s0. auto.
        -- exists Q_id_absent. split; [reflexivity|].
           split; [intros n [H|(s & H & Hd & _)]; [discriminate|];
                   injection H as <-; congruence|].
           split; [intros o (s & H & _ & Ho); injection H as <-; congruence|].
           split; [reflexivity|].
           right; right; right; right. exists s0. split; [reflexivity|].
           right. split; [exact Ed|]. exists err. exact Eo.
Qed.

(** C3 is not met by the code.  [updateRecord] does replace name and
    value in the first matching record and stamps [updatedAt], and it
    returns null without raising when nothing matches; but what it returns
    after an update is not the new state of the record.  The driver call
    resolves to the document itself, and the code reads its [value]
    property as if it were the document: it returns [toPublic] of that
    string, in which every field is null or undefined, and null when the
    new value is the empty string. *)
Theorem updateRecord_result :
  forall (e : Env) (id : token) (newName newValue : string) (s s1 : state)
         (q : query),
    ensureConnection e s = (Ok tt, s1) ->
    modify_ok e = true ->
    getQueryFromId id = Ok q ->
    match found q s1 with
    | None => updateRecord e id newName newValue s = (Ok None, s1)
    | Some r =>
        let r' := apply_set newName newValue (JsDate.iso_of_time (now e)) r in
        exists s' new,
          updateRecord e id newName newValue s = (Ok (returned_for r'), s')
          /\ returned_for r' <> Some (public_view (other_dates e) (fetch r'))
          /\ (forall out, returned_for r' = Some out ->
                p_name out = JUndefined /\ p_value out = JUndefined
                /\ p_userID out = JNull /\ p_updatedAt out = JNull)
          /\ (newValue = EmptyString -> returned_for r' = None)
          /\ records s' =
               update_first q (apply_set newName newValue
                                 (JsDate.iso_of_time (now e))) (records s1)
          /\ staticUserId s' = staticUserId s1
          /\ trace s' = trace s1 ++ new
          /\ backups new = O
    end.
Proof.
  intros e id newName newValue s s1 q Hconn Hm Hq.
  assert (Hc : collection s1 = true).
  { destruct (ensureConnection_cases e s) as
      [(err & s0 & H & _)|(s0 & H & Hc & _)]; congruence. }
  assert (Heq : updateRecord e id newName newValue s
                = updateRecord e id newName newValue s1).
  { unfold updateRecord. rewrite (bind_ensureConnection_ok _ _ _ _ Hconn).
    now rewrite bind_connected by exact Hc. }
  rewrite Heq.
  pose proof (updateRecord_connected e id newName newValue s1 q Hc Hq) as H.
  rewrite Hm in H. destruct (found q s1) as [r|]; [|exact H].
  cbv zeta in H |- *. unfold returned_for. cbn [apply_set r_value].
  destruct (String.eqb newValue EmptyString) eqn:Ev; cbn [negb] in H.
  - exists (set_records (update_first q (apply_set newName newValue
              (JsDate.iso_of_time (now e))) (records s1)) s1), [].
    split; [exact H|]. split; [discriminate|].
    split; [discriminate|]. split; [reflexivity|].
    cbn [set_records records staticUserId trace]. rewrite app_nil_r.
    repeat split; reflexivity.
  - destruct H as (lnew & H & Hp & _).
    do 2 eexists. split; [exact H|]. split.
    + intros Heqv. apply (f_equal (option_map p_name)) in Heqv.
      discriminate Heqv.
    + split.
      * intros out Hout. injection Hout as <-. repeat split; reflexivity.
      * split.
        -- intros ->. discriminate Ev.
        -- cbn [add_trace set_records records staticUserId trace].
           repeat (split; [reflexivity|]).
           cbn [backups]. now apply plain_backups, from_logger_plain.
Qed.

Lemma updateRecord_result_witness :
  exists s',
    updateRecord (fair 2) (T_number 1) "B" "2" one_record = (Ok (Some blank), s')
    /\ records s' =
         [ mkRecord (oid 1) (Some 1) "B" "2" (Some "2025-11-04T15:22:10.001Z")
                    (Some "2025-11-04T15:22:10.002Z") ].
Proof.
  destruct (updateRecord_result (fair 2) (T_number 1) "B" "2" one_record one_record
              (Q_userID 1) eq_refl eq_refl eq_refl)
    as (s' & new & H & _ & _ & _ & Hr & _).
  exists s'. split; [exact H|]. rewrite Hr. reflexivity.
Defined.

(** An API function run in [s] behaves as in the state that
    [ensureConnection] leaves. *)
Lemma via_connection {A} e (k : unit -> M A) s :
  (exists err s1, ensureConnection e s = (Throw err, s1)
     /\ bind (ensureConnection e) k s = (Throw err, s1)
     /\ backups (trace s1) = backups (trace s))
  \/
  (exists s1, ensureConnection e s = (Ok tt, s1)
     /\ collection s1 = true
     /\ bind (ensureConnection e) k s = bind (ensureConnection e) k s1
     /\ backups (trace s1) = backups (trace s)).
Proof.
  destruct (ensureConnection_cases e s) as
    [(err & s1 & H & _ & _ & _ & _ & _ & new & Ht & Hp & _)
    |(s1 & H & Hc1 & _ & _ & _ & new & Ht & Hp & _)].
  - left. exists err, s1. split; [exact H|]. split.
    + now apply bind_ensureConnection_throw.
    + rewrite Ht, backups_app, (plain_backups _ Hp). lia.
  - right. exists s1. split; [exact H|]. split; [exact Hc1|]. split.
    + rewrite (bind_ensureConnection_ok _ _ _ _ H).
      now rewrite (bind_connected e k s1 Hc1).
    + rewrite Ht, backups_app, (plain_backups _ Hp). lia.
Qed.

Lemma deleteRecord_from e id s s1 :
  ensureConnection e s = (Ok tt, s1) ->
  deleteRecord e id s = deleteRecord e id s1 /\ collection s1 = true.
Proof.
  intros H.
  assert (Hc : collection s1 = true).
  { destruct (ensureConnection_cases e s) as
      [(err & s0 & H0 & _)|(s0 & H0 & Hc & _)]; congruence. }
  split; [|exact Hc]. unfold deleteRecord.
  rewrite (bind_ensureConnection_ok _ _ _ _ H).
  now rewrite bind_connected by exact Hc.
Qed.

Lemma addRecord_backups e name value s :
  backups (trace (snd (addRecord e name value s))) =
  (backups (trace s)
   + match fst (addRecord e name value s) with Ok _ => 1 | Throw _ => 0 end)%nat.
Proof.
  unfold addRecord at 1 2.
  destruct (via_connection e
    (fun _ => userID <- gets staticUserId ;;
       modify (set_staticUserId (userID + 1)) ;;
       insertedId <- insertOne e name value userID (JsDate.iso_of_time (now e)) ;;
       doc <- findOne e (Q_id insertedId) ;;
       out <- lift (toPublic (other_dates e) doc) ;;
       try_catch (emit e "recordAdded" out) (fun _ => ret tt) ;;
       try_catch (createBackup e) (fun _ => ret tt) ;;
       ret out)%vault s)
    as [(err & s1 & _ & -> & Hb)|(s1 & _ & Hc1 & -> & Hb)].
  - cbn [fst snd]. lia.
  - fold (addRecord e name value s1). rewrite <- Hb.
    pose proof (addRecord_connected e name value s1 Hc1) as H. cbv zeta in H.
    destruct (insert_ok e && negb (has_id (fresh_id e) (records s1))).
    + destruct (findOne_ok e).
      * destruct H as (lnew & -> & Hp & _). cbn [fst snd add_trace trace].
        rewrite !backups_app. cbn [backups].
        rewrite backups_app, (plain_backups _ (from_logger_plain _ Hp)),
          backup_effects_backups. cbn. lia.
      * rewrite H. cbn [fst snd trace]. rewrite backups_app. cbn. lia.
    + rewrite H. cbn. lia.
Qed.

Lemma deleteRecord_backups e id s :
  backups (trace (snd (deleteRecord e id s))) =
  (backups (trace s)
   + match fst (deleteRecord e id s) with Ok (Some _) => 1 | _ => 0 end)%nat.
Proof.
  unfold deleteRecord at 1 2.
  destruct (via_connection e
    (fun _ => query <- lift (getQueryFromId id) ;;
       res <- findOneAndDelete e query ;;
       match res with
       | None => ret None
       | Some r =>
           if negb (truthy (value_field r)) then ret None
           else
             out <- lift (toPublic (other_dates e) (Some string_properties)) ;;
             try_catch (emit e "recordDeleted" out) (fun _ => ret tt) ;;
             try_catch (createBackup e) (fun _ => ret tt) ;;
             ret out
       end)%vault s)
    as [(err & s1 & _ & -> & Hb)|(s1 & _ & Hc1 & -> & Hb)].
  - cbn [fst snd]. lia.
  - fold (deleteRecord e id s1). rewrite <- Hb.
    destruct (getQueryFromId_total id) as (q & Hq).
    pose proof (deleteRecord_connected e id s1 q Hc1 Hq) as H.
    destruct (modify_ok e); [|rewrite H; cbn; lia].
    destruct (found q s1) as [r|]; [|rewrite H; cbn; lia].
    cbv zeta in H. destruct (negb (String.eqb _ _)); [|rewrite H; cbn; lia].
    destruct H as (lnew & -> & Hp & _). cbn [fst snd add_trace set_records trace].
    rewrite backups_app. cbn [backups].
    rewrite backups_app, (plain_backups _ (from_logger_plain _ Hp)),
      backup_effects_backups. cbn. lia.
Qed.

Lemma updateRecord_backups e id newName newValue s :
  backups (trace (snd (updateRecord e id newName newValue s))) = backups (trace s).
Proof.
  unfold updateRecord.
  destruct (via_connection e
    (fun _ => query <- lift (getQueryFromId id) ;;
       res <- findOneAndUpdate e query newName newValue (JsDate.iso_of_time (now e)) ;;
       match res with
       | None => ret None
       | Some r =>
           if negb (truthy (value_field r)) then ret None
           else
             out <- lift (toPublic (other_dates e) (Some string_properties)) ;;
             try_catch (emit e "recordUpdated" out) (fun _ => ret tt) ;;
             ret out
       end)%vault s)
    as [(err & s1 & _ & -> & Hb)|(s1 & _ & Hc1 & -> & Hb)].
  - cbn [snd]. exact Hb.
  - fold (updateRecord e id newName newValue s1). rewrite <- Hb.
    destruct (getQueryFromId_total id) as (q & Hq).
    pose proof (updateRecord_connected e id newName newValue s1 q Hc1 Hq) as H.
    destruct (modify_ok e); [|rewrite H; reflexivity].
    destruct (found q s1) as [r|]; [|rewrite H; reflexivity].
    cbv zeta in H. destruct (negb (String.eqb _ _)); [|rewrite H; reflexivity].
    destruct H as (lnew & -> & Hp & _). cbn [snd add_trace set_records trace].
    rewrite backups_app. cbn [backups].
    rewrite (plain_backups _ (from_logger_plain _ Hp)). lia.
Qed.

(** C4 is not met by the code.  [createBackup] is entered exactly once by
    every [addRecord] that returns, never by [updateRecord], and never by
    a [deleteRecord] that finds no record; but a [deleteRecord] that
    finds a record, which it always removes, enters [createBackup] only
    when the [value] of that record is not the empty string: the code
    tests [res.value] where [res] is the deleted document, and returns
    null before the backup when it is empty.  A backup is made exactly
    when [deleteRecord] returns a record. *)
Theorem backup_triggers :
  forall (e : Env) (id : token) (s s1 : state) (q : query),
    ensureConnection e s = (Ok tt, s1) ->
    modify_ok e = true ->
    getQueryFromId id = Ok q ->
    match found q s1 with
    | None =>
        deleteRecord e id s = (Ok None, s1)
        /\ backups (trace s1) = backups (trace s)
    | Some r =>
        exists s',
          deleteRecord e id s = (Ok (returned_for r), s')
          /\ records s' = remove_first q (records s1)
          /\ backups (trace s') =
             (backups (trace s)
              + if String.eqb (r_value r) EmptyString then 0 else 1)%nat
    end
    /\ (forall s0 name value,
          backups (trace (snd (addRecord e name value s0))) =
          (backups (trace s0)
           + match fst (addRecord e name value s0) with Ok _ => 1 | Throw _ => 0 end)%nat)
    /\ (forall s0 id0,
          backups (trace (snd (deleteRecord e id0 s0))) =
          (backups (trace s0)
           + match fst (deleteRecord e id0 s0) with Ok (Some _) => 1 | _ => 0 end)%nat)
    /\ (forall s0 id0 newName newValue,
          backups (trace (snd (updateRecord e id0 newName newValue s0))) =
          backups (trace s0)).
Proof.
  intros e id s s1 q Hconn Hm Hq.
  split; [|split; [intros; apply addRecord_backups
                  |split; [intros; apply deleteRecord_backups
                          |intros; apply updateRecord_backups]]].
  destruct (deleteRecord_from e id s s1 Hconn) as [Heq Hc].
  assert (Hb : backups (trace s1) = backups (trace s)).
  { destruct (ensureConnection_cases e s) as
      [(err & s0 & H0 & _)|(s0 & H0 & _ & _ & _ & _ & new & Ht & Hp & _)];
      [congruence|].
    assert (s0 = s1) by congruence. subst s0.
    rewrite Ht, backups_app, (plain_backups _ Hp). lia. }
  rewrite Heq, <- Hb.
  pose proof (deleteRecord_connected e id s1 q Hc Hq) as H.
  rewrite Hm in H. destruct (found q s1) as [r|]; [|split; [exact H|reflexivity]].
  cbv zeta in H. unfold returned_for.
  destruct (String.eqb (r_value r) EmptyString); cbn [negb] in H.
  - eexists. split; [exact H|]. cbn [set_records records trace].
    split; [reflexivity|lia].
  - destruct H as (lnew & H & Hp & _). eexists. split; [exact H|].
    cbn [add_trace set_records records trace]. split; [reflexivity|].
    rewrite backups_app. cbn [backups].
    rewrite backups_app, (plain_backups _ (from_logger_plain _ Hp)),
      backup_effects_backups. lia.
Qed.

Lemma backup_triggers_witness :
  records empty_value_added =
    [ mkRecord (oid 1) (Some 1) "A" EmptyString (Some "2025-11-04T15:22:10.001Z") None ]
  /\ exists s',
       deleteRecord (fair 2) (T_number 1) empty_value_added = (Ok None, s')
       /\ records s' = []
       /\ backups (trace s') = backups (trace empty_value_added).
Proof.
  split; [reflexivity|].
  destruct (backup_triggers (fair 2) (T_number 1) empty_value_added empty_value_added
              (Q_userID 1) eq_refl eq_refl eq_refl)
    as ((s' & H & Hr & Hb) & _).
  exists s'. split; [exact H|]. split; [rewrite Hr; reflexivity|].
  rewrite Hb. cbn. lia.
Defined.

Lemma backup_written_app a b :
  backup_written (a ++ b) = backup_written a || backup_written b.
Proof.
  induction a as [|x a IH]; simpl; [reflexivity|]. destruct x; auto.
Qed.

Lemma from_logger_not_written new :
  forallb from_logger new = true -> backup_written new = false.
Proof.
  induction new as [|x new IH]; simpl; [reflexivity|].
  intros H. apply andb_true_iff in H. destruct H as [Hx H].
  destruct x; try discriminate; auto.
Qed.

(** C5: when the connection is there, the insert is acknowledged and the
    record is read back, [addRecord] returns the added record although the
    backup cannot be read or written: the failure is reported on the error
    console, no backup file is written, nothing is thrown, and the counter
    stays one above the userID given to the record. *)
Theorem addRecord_survives_backup_failure :
  forall (e : Env) (name value : string) (s s1 : state),
    ensureConnection e s = (Ok tt, s1) ->
    insert_ok e = true ->
    has_id (fresh_id e) (records s1) = false ->
    findOne_ok e = true ->
    backup_find_ok e && backup_write_ok e = false ->
    exists out s' new,
      addRecord e name value s = (Ok (Some out), s')
      /\ p_name out = JStr name
      /\ p_value out = JStr value
      /\ p_userID out = js_or (JNum (staticUserId s1)) JNull
      /\ staticUserId s' = staticUserId s1 + 1
      /\ records s' = records s1 ++ [new_record e name value (staticUserId s1)]
      /\ trace s' = trace s1 ++ new
      /\ assigned new = [staticUserId s1]
      /\ backups new = 1%nat
      /\ In (ConsoleError "Failed to create backup:") new
      /\ backup_written new = false.
Proof.
  intros e name value s s1 Hconn Hins Hfresh Hfind Hbk.
  assert (Hc1 : collection s1 = true).
  { destruct (ensureConnection_cases e s) as
      [(err & s0 & H & _)|(s0 & H & Hc & _)]; congruence. }
  assert (Heq : addRecord e name value s = addRecord e name value s1).
  { unfold addRecord. rewrite (bind_ensureConnection_ok _ _ _ _ Hconn).
    now rewrite bind_connected by exact Hc1. }
  pose proof (addRecord_connected e name value s1 Hc1) as H. cbv zeta in H.
  rewrite Hins, Hfresh, Hfind in H. cbn [negb andb] in H.
  destruct H as (lnew & H & Hp & _).
  do 3 eexists. rewrite Heq. split; [exact H|].
  cbn [public_view fetch new_record r_id r_userID r_name r_value r_createdAt
       r_updatedAt d__id d_id d_userID d_name d_value d_createdAt d_updatedAt
       opt_val p_name p_value p_userID add_trace trace records staticUserId].
  split; [reflexivity|]. split; [reflexivity|]. split; [reflexivity|].
  split; [reflexivity|]. split; [reflexivity|].
  rewrite <- app_assoc. split; [reflexivity|].
  cbn [app]. split; [|split; [|split]].
  - cbn [assigned new_record r_userID].
    rewrite assigned_app, (plain_assigned _ (from_logger_plain _ Hp)),
      backup_effects_assigned. reflexivity.
  - cbn [backups].
    rewrite backups_app, (plain_backups _ (from_logger_plain _ Hp)),
      backup_effects_backups. reflexivity.
  - do 2 right. apply in_or_app. right.
    unfold backup_effects. rewrite Hbk. destruct (backup_mkdir_ok e); cbn; auto.
  - cbn [backup_written].
    rewrite backup_written_app, (from_logger_not_written _ Hp).
    unfold backup_effects. rewrite Hbk. destruct (backup_mkdir_ok e); reflexivity.
Qed.

Lemma addRecord_survives_backup_failure_witness :
  exists out s' new,
    addRecord (backup_refused 1) "A" "1" (boot []) = (Ok (Some out), s')
    /\ p_name out = JStr "A"
    /\ p_value out = JStr "1"
    /\ p_userID out =
         js_or (JNum (staticUserId (snd (ensureConnection (backup_refused 1) (boot []))))) JNull
    /\ staticUserId s' = staticUserId (snd (ensureConnection (backup_refused 1) (boot []))) + 1
    /\ records s' =
         records (snd (ensureConnection (backup_refused 1) (boot [])))
         ++ [new_record (backup_refused 1) "A" "1"
               (staticUserId (snd (ensureConnection (backup_refused 1) (boot []))))]
    /\ trace s' = trace (snd (ensureConnection (backup_refused 1) (boot []))) ++ new
    /\ assigned new = [staticUserId (snd (ensureConnection (backup_refused 1) (boot [])))]
    /\ backups new = 1%nat
    /\ In (ConsoleError "Failed to create backup:") new
    /\ backup_written new = false.
Proof.
  apply (addRecord_survives_backup_failure (backup_refused 1) "A" "1" (boot [])
           (snd (ensureConnection (backup_refused 1) (boot []))));
    reflexivity.
Defined.






Lemma run_keeps_log_empty cs : forall s,
  listeners s = [] ->
  listeners (snd (run cs s)) = []
  /\ log_lines (trace (snd (run cs s))) = log_lines (trace s).
Proof.
  induction cs as [|[e c] cs IH]; intros s Hl; [cbn; auto|].
  rewrite run_cons.
  assert (H1 : listeners (snd (run_call e c s)) = []
               /\ log_lines (trace (snd (run_call e c s))) = log_lines (trace s)).
  { destruct (is_close c) eqn:Hcl.
    - destruct c; try discriminate. cbn [run_call]. rewrite snd_bind_ret.
      destruct (close_step e s) as (s' & H & Ht & Hls & _).
      rewrite H. cbn [snd]. split; congruence.
    - destruct (run_call_full_step e c s Hcl) as (new & Ht & Hls & Hlog & _).
      split; [congruence|].
      rewrite Ht, log_lines_app, (Hlog Hl). now rewrite app_nil_r. }
  destruct H1 as [Hl1 Hg1]. destruct (IH _ Hl1) as [Hl2 Hg2].
  split; congruence.
Qed.

(** C7 is not met by the code.  The logger's guard finds no [emitter]
    among the exports of [db/index.js], so no listener is registered at
    startup; whatever API calls follow, nothing is appended to the log
    file, although the record events are published. *)
Theorem logger_never_writes :
  property "emitter" db_exports = None
  /\ (forall rs, listeners (boot rs) = [])
  /\ (forall rs cs, log_lines (trace (snd (run cs (boot rs)))) = [])
  /\ (exists out,
        In (Emitted "recordAdded" (Some out)) (trace one_record)
        /\ p_name out = JStr "A"
        /\ log_lines (trace one_record) = []).
Proof.
  split; [reflexivity|]. split; [reflexivity|]. split.
  - intros rs cs.
    destruct (run_keeps_log_empty cs (boot rs) eq_refl) as [_ H].
    rewrite H. reflexivity.
  - eexists. split; [|split; [|reflexivity]].
    + unfold one_record. cbn [trace In]. do 4 right. left. reflexivity.
    + reflexivity.
Qed.





(** What the amended claim leaves aside: a deleted or foreign record
    without userID is listed for the keyword [0], [Number(null)] being 0,
    though neither its name nor its id contains a zero. *)
Example zero_lists_null_userID :
  Shell.search_hit "0"
    (Some (mkPublic (Some "abc") JNull (JStr "n") (JStr "v") None JNull JNull None))
  = true.
Proof. reflexivity. Qed.

Lemma date_rendering_digit t :
  exists k rest, 0 <= k <= 9 /\ date_rendering t = String (Js.digit k) rest.
Proof.
  unfold date_rendering. destruct (JsDate.civil_from_days _) as [[y m] d].
  unfold JsDate.pad4. eexists. eexists. split; [|reflexivity].
  apply DateFacts.mod10.
Qed.

(** The first ten characters of a timestamp written by [toISOString], for
    a year of four digits, are the date. *)
Lemma slice_iso_date t :
  0 <= year_of t <= 9999 ->
  Js.slice0 10 (JsDate.iso_of_time t) = date_rendering t.
Proof.
  unfold year_of, date_rendering, JsDate.iso_of_time.
  destruct (JsDate.civil_from_days _) as [[y m] d]. cbn [fst]. intros [H1 H2].
  apply Z.leb_le in H1. apply Z.leb_le in H2. rewrite H1, H2. reflexivity.
Qed.

(** C9, as stated, fails.  A document whose [updatedAt] is set but is not
    a date makes [toPublic] throw a RangeError: here it is a number beyond
    the range of dates, which no engine takes for a date.  And for a
    [createdAt] that is not a timestamp, what is exposed is neither null
    nor the rendering of a date. *)
Lemma toPublic_throws_on_bad_date :
  toPublic iso_only (Some broken_doc) = Throw RangeError
  /\ exists out,
       toPublic iso_only (Some undated_doc) = Ok (Some out)
       /\ p_created out = Some "created to"
       /\ forall t, p_created out <> Some (date_rendering t).
Proof.
  split; [reflexivity|]. eexists. split; [reflexivity|]. split; [reflexivity|].
  intros t H. change (Some "created to" = Some (date_rendering t)) in H.
  destruct (date_rendering_digit t) as (k & rest & Hk & E). rewrite E in H.
  assert (H' : "c"%char = Js.digit k) by congruence. clear H. rename H' into H.
  apply DateFacts.digit_cases in Hk.
  repeat (destruct Hk as [Hk|Hk]; [subst k; discriminate H|]).
  subst k. discriminate H.
Qed.

(** The failure does not depend on what the engine makes of other
    strings; and on an engine that takes [x] for no date, a document with
    that [updatedAt] fails in the same way. *)
Lemma toPublic_throws_on_every_engine other :
  toPublic other (Some broken_doc) = Throw RangeError.
Proof. reflexivity. Qed.

Example toPublic_throws_on_text :
  toPublic iso_only (Some text_doc) = Throw RangeError.
Proof. reflexivity. Qed.

(** C9 (amended): [toPublic] returns null for a null document, and for a
    document whose [updatedAt] is absent (or falsy) or denotes a valid date
    it returns, without throwing, the object made of: the internal id as a
    string, or else the [id] property as a string, or else null; the
    userID or null; name and value as they are; the date-only rendering
    of [createdAt] when it is a timestamp as [toISOString] writes it,
    with a year of four digits, and null when it is absent (or falsy);
    [createdAt] and [updatedAt] as they are, or null; and the
    seconds-precision rendering of the date that [updatedAt] denotes, or
    null. *)
Theorem toPublic_normalises :
  forall (other : string -> option Z) (doc : jsdoc),
    updatedAt_ok other doc = true ->
    toPublic other None = Ok None
    /\ toPublic other (Some doc) = Ok (Some (public_view other doc))
    /\ (forall t, d_createdAt doc = JStr (JsDate.iso_of_time t) ->
          0 <= year_of t <= 9999 ->
          p_created (public_view other doc) = Some (date_rendering t))
    /\ (truthy (d_createdAt doc) = false ->
        p_created (public_view other doc) = None)
    /\ (truthy (d_updatedAt doc) = false ->
        p_updated (public_view other doc) = None)
    /\ (truthy (d_updatedAt doc) = true ->
        exists t, Date_new other (d_updatedAt doc) = Some t
                  /\ p_updated (public_view other doc) = Some (seconds_rendering t)).
Proof.
  intros other doc H. split; [reflexivity|].
  split; [now rewrite toPublic_view, H|]. split; [|split; [|split]].
  - intros t Hc Hy. unfold public_view. cbn [p_created]. rewrite Hc.
    cbn [truthy String_]. rewrite iso_nonempty. cbn [negb].
    now rewrite slice_iso_date.
  - intros Hc. unfold public_view. cbn [p_created]. now rewrite Hc.
  - intros Ht. unfold public_view. cbn [p_updated]. now rewrite Ht.
  - intros Ht. unfold updatedAt_ok in H. rewrite Ht in H. cbn [negb orb] in H.
    unfold public_view. cbn [p_updated]. rewrite Ht.
    destruct (Date_new other (d_updatedAt doc)) as [t|]; [|discriminate H].
    exists t. split; reflexivity.
Qed.

Lemma toPublic_normalises_witness :
  updatedAt_ok iso_only sample_doc = true
  /\ toPublic iso_only None = Ok None
  /\ toPublic iso_only (Some sample_doc) = Ok (Some (public_view iso_only sample_doc))
  /\ p_updated (public_view iso_only sample_doc) = Some "2025-11-05 08:00:00"
  /\ p_created (public_view iso_only sample_doc) = Some (date_rendering sample_time)
  /\ date_rendering sample_time = "2025-11-04".
Proof.
  assert (H : updatedAt_ok iso_only sample_doc = true) by reflexivity.
  split; [exact H|].
  destruct (toPublic_normalises iso_only sample_doc H) as (H1 & H2 & H3 & _).
  split; [exact H1|]. split; [exact H2|]. split; [reflexivity|].
  split; [|reflexivity].
  apply (H3 sample_time); [reflexivity|]. vm_compute. split; discriminate.
Defined.

(** C10, as stated, fails in its last part: the userID consumed by a
    failed insert is issued again when the process closes the connection
    and reconnects, because the counter is then re-seeded from the stored
    maximum. *)
Lemma skipped_userID_issued_after_close :
  staticUserId one_record = 2
  /\ fst (addRecord (insert_refused 2) "B" "2" one_record) = Throw DriverError
  /\ staticUserId (snd (addRecord (insert_refused 2) "B" "2" one_record)) = 3
  /\ assigned (trace (snd (run skipped_calls
                 (snd (addRecord (insert_refused 2) "B" "2" one_record)))))
     = [1; 2].
Proof. repeat split; vm_compute; reflexivity. Qed.

(** C10 (amended): [addRecord] takes the next userID before the insert is
    attempted; when the insert is refused, [addRecord] throws, nothing is
    stored, and the counter has still advanced, so that no later call on
    the same connection (any sequence of API calls without [close]) gives
    that userID to a record. *)
Theorem failed_insert_consumes_userID :
  forall (e : Env) (name value : string) (s s1 : state),
    ensureConnection e s = (Ok tt, s1) ->
    insert_ok e && negb (has_id (fresh_id e) (records s1)) = false ->
    exists s2,
      addRecord e name value s = (Throw DriverError, s2)
      /\ staticUserId s2 = staticUserId s1 + 1
      /\ records s2 = records s1
      /\ trace s2 = trace s1
      /\ forall cs, close_free cs = true ->
           exists new,
             trace (snd (run cs s2)) = trace s2 ++ new
             /\ ~ In (staticUserId s1) (assigned new).
Proof.
  intros e name value s s1 Hconn Hins.
  assert (Hc1 : collection s1 = true).
  { destruct (ensureConnection_cases e s) as
      [(err & s0 & H & _)|(s0 & H & Hc & _)]; congruence. }
  assert (Heq : addRecord e name value s = addRecord e name value s1).
  { unfold addRecord. rewrite (bind_ensureConnection_ok _ _ _ _ Hconn).
    now rewrite bind_connected by exact Hc1. }
  pose proof (addRecord_connected e name value s1 Hc1) as H. cbv zeta in H.
  rewrite Hins in H.
  exists (set_staticUserId (staticUserId s1 + 1) s1).
  rewrite Heq. split; [exact H|].
  split; [reflexivity|]. split; [reflexivity|]. split; [reflexivity|].
  intros cs Hcf.
  destruct (run_floor cs (set_staticUserId (staticUserId s1 + 1) s1) Hcf Hc1)
    as (new & Ht & Hf).
  exists new. split; [exact Ht|].
  intros Hin. rewrite Forall_forall in Hf. specialize (Hf _ Hin). cbn in Hf. lia.
Qed.

Lemma failed_insert_consumes_userID_witness :
  exists s2,
    addRecord (insert_refused 2) "B" "2" one_record = (Throw DriverError, s2)
    /\ staticUserId s2 = staticUserId one_record + 1
    /\ records s2 = records one_record
    /\ trace s2 = trace one_record
    /\ forall cs, close_free cs = true ->
         exists new,
           trace (snd (run cs s2)) = trace s2 ++ new
           /\ ~ In (staticUserId one_record) (assigned new).
Proof.
  apply (failed_insert_consumes_userID (insert_refused 2) "B" "2"
           one_record one_record); reflexivity.
Defined.

End Claims.

(** ** Further results on the record store *)

Module StoreFacts.

Import Vault VaultSpec VaultFacts StoreSpec.
Local Open Scope vault_scope.
Local Open Scope list_scope.

Lemma stored_ids_app a b : stored_ids (a ++ b) = stored_ids a ++ stored_ids b.
Proof. unfold stored_ids. apply flat_map_app. Qed.

Lemma stored_ids_cons r rs :
  stored_ids (r :: rs) =
  match r_userID r with Some n => n :: stored_ids rs | None => stored_ids rs end.
Proof. unfold stored_ids. cbn [flat_map]. destruct (r_userID r); reflexivity. Qed.

Lemma stored_ids_update q n v u rs :
  stored_ids (update_first q (apply_set n v u) rs) = stored_ids rs.
Proof.
  induction rs as [|r rs IH]; [reflexivity|].
  cbn [update_first]. destruct (matches q r).
  - reflexivity.
  - change (r :: update_first q (apply_set n v u) rs)
      with ([r] ++ update_first q (apply_set n v u) rs).
    change (r :: rs) with ([r] ++ rs).
    now rewrite !stored_ids_app, IH.
Qed.

(** [remove_first] takes out the first matching record, if there is one. *)
Lemma remove_first_split q rs :
  match find (matches q) rs with
  | Some r =>
      exists a b, rs = a ++ r :: b /\ remove_first q rs = a ++ b
                  /\ matches q r = true
                  /\ Forall (fun x => matches q x = false) a
  | None => remove_first q rs = rs
  end.
Proof.
  induction rs as [|x rs IH]; [reflexivity|].
  cbn [find remove_first]. destruct (matches q x) eqn:E.
  - exists [], rs. repeat split; auto.
  - destruct (find (matches q) rs) as [r|].
    + destruct IH as (a & b & -> & -> & Hm & Ha).
      exists (x :: a), b. repeat split; auto.
    + now rewrite IH.
Qed.

Lemma update_first_split q f rs :
  match find (matches q) rs with
  | Some r =>
      exists a b, rs = a ++ r :: b /\ update_first q f rs = a ++ f r :: b
                  /\ matches q r = true
                  /\ Forall (fun x => matches q x = false) a
  | None => update_first q f rs = rs
  end.
Proof.
  induction rs as [|x rs IH]; [reflexivity|].
  cbn [find update_first]. destruct (matches q x) eqn:E.
  - exists [], rs. repeat split; auto.
  - destruct (find (matches q) rs) as [r|].
    + destruct IH as (a & b & -> & -> & Hm & Ha).
      exists (x :: a), b. repeat split; auto.
    + now rewrite IH.
Qed.

Lemma stored_ids_remove q rs :
  exists a b mid,
    stored_ids rs = a ++ mid ++ b /\ stored_ids (remove_first q rs) = a ++ b.
Proof.
  pose proof (remove_first_split q rs) as H.
  destruct (find (matches q) rs) as [r|].
  - destruct H as (a & b & -> & -> & _).
    exists (stored_ids a), (stored_ids b), (stored_ids [r]).
    change (r :: b) with ([r] ++ b). now rewrite !stored_ids_app.
  - rewrite H. exists (stored_ids rs), [], []. now rewrite !app_nil_r.
Qed.

Lemma max_userID_bound rs :
  match max_userID rs with
  | Some m => Forall (fun k => k <= m) (stored_ids rs)
  | None => stored_ids rs = []
  end.
Proof.
  induction rs as [|r rs IH]; [reflexivity|].
  cbn [max_userID]. rewrite stored_ids_cons.
  destruct (r_userID r) as [n|].
  - destruct (max_userID rs) as [m|].
    + constructor; [lia|]. eapply Forall_impl; [|exact IH]. cbn. intros; lia.
    + rewrite IH. constructor; [lia|constructor].
  - exact IH.
Qed.

(** A call other than [close] either fails to connect, or behaves as on
    the connected state that [ensureConnection] leaves. *)
Lemma run_call_via e c s :
  is_close c = false ->
  (exists err s1, ensureConnection e s = (Throw err, s1)
                  /\ run_call e c s = (Throw err, s1))
  \/ (exists s1, ensureConnection e s = (Ok tt, s1)
                 /\ collection s1 = true
                 /\ run_call e c s = run_call e c s1).
Proof.
  intros Hcl.
  destruct (ensureConnection_cases e s) as
    [(err & s1 & H & _)|(s1 & H & Hc1 & _)].
  - left. exists err, s1. split; [exact H|].
    rewrite run_call_after_connection by exact Hcl.
    now apply bind_ensureConnection_throw.
  - right. exists s1. split; [exact H|]. split; [exact Hc1|].
    rewrite !run_call_after_connection by exact Hcl.
    rewrite (bind_ensureConnection_ok _ _ _ _ H).
    now rewrite bind_connected by exact Hc1.
Qed.

Lemma run_call_store_change e c s :
  is_close c = false -> collection s = true ->
  store_change e s (snd (run_call e c s))
  /\ collection (snd (run_call e c s)) = true.
Proof.
  intros Hcl Hc. destruct c; try discriminate; cbn [run_call];
    rewrite snd_bind_ret.
  - unfold init. rewrite ensureConnection_connected by exact Hc.
    split; [left; split; [reflexivity|cbn; lia]|exact Hc].
  - pose proof (addRecord_connected e name value s Hc) as H. cbv zeta in H.
    destruct (insert_ok e && negb (has_id (fresh_id e) (records s))).
    + destruct (findOne_ok e).
      * destruct H as (lnew & -> & _). cbn [snd add_trace records staticUserId collection].
        split; [|reflexivity]. right; left. exists name, value. auto.
      * rewrite H. cbn [snd records staticUserId collection].
        split; [|reflexivity]. right; left. exists name, value. auto.
    + rewrite H. cbn [snd set_staticUserId records staticUserId collection].
      split; [|exact Hc]. left. split; [reflexivity|cbn; lia].
  - rewrite listRecords_connected by exact Hc.
    split; [left; split; [reflexivity|cbn; lia]|exact Hc].
  - destruct (getQueryFromId_total id) as (q & Hq).
    pose proof (updateRecord_connected e id newName newValue s q Hc Hq) as H.
    destruct (modify_ok e);
      [|rewrite H; split; [left; split; [reflexivity|cbn; lia]|exact Hc]].
    destruct (found q s) as [r|];
      [|rewrite H; split; [left; split; [reflexivity|cbn; lia]|exact Hc]].
    cbv zeta in H. destruct (negb (String.eqb _ _)).
    + destruct H as (lnew & -> & _).
      cbn [snd add_trace set_records records staticUserId collection].
      split; [|exact Hc]. right; right; left. exists q, newName, newValue. auto.
    + rewrite H. cbn [snd set_records records staticUserId collection].
      split; [|exact Hc]. right; right; left. exists q, newName, newValue. auto.
  - destruct (getQueryFromId_total id) as (q & Hq).
    pose proof (deleteRecord_connected e id s q Hc Hq) as H.
    destruct (modify_ok e);
      [|rewrite H; split; [left; split; [reflexivity|cbn; lia]|exact Hc]].
    destruct (found q s) as [r|];
      [|rewrite H; split; [left; split; [reflexivity|cbn; lia]|exact Hc]].
    cbv zeta in H. destruct (negb (String.eqb _ _)).
    + destruct H as (lnew & -> & _).
      cbn [snd add_trace set_records records staticUserId collection].
      split; [|exact Hc]. right; right; right. exists q. auto.
    + rewrite H. cbn [snd set_records records staticUserId collection].
      split; [|exact Hc]. right; right; right. exists q. auto.
Qed.

Lemma store_inv_change e s s' :
  collection s = true -> collection s' = true ->
  store_inv s -> store_change e s s' -> store_inv s'.
Proof.
  intros Hc Hc' [Hnd Hb] Hch. specialize (Hb Hc).
  destruct Hch as [[Hr Hn]|[(name & value & Hr & Hn)|[(q & n & v & Hr & Hn)
                  |(q & Hr & Hn)]]]; unfold store_inv; rewrite Hr.
  - split; [exact Hnd|]. intros _.
    eapply Forall_impl; [|exact Hb]. cbn. intros; lia.
  - rewrite stored_ids_app.
    replace (stored_ids [new_record e name value (staticUserId s)])
      with [staticUserId s] by reflexivity.
    split.
    + apply NoDup_app; [exact Hnd | repeat constructor; auto |].
      intros x Hx [Hx'|[]]. subst x. rewrite Forall_forall in Hb.
      specialize (Hb _ Hx). cbn in Hb. lia.
    + intros _. rewrite Hn. apply Forall_app. split.
      * eapply Forall_impl; [|exact Hb]. cbn. intros; lia.
      * constructor; [lia|constructor].
  - rewrite stored_ids_update. split; [exact Hnd|]. intros _. now rewrite Hn.
  - destruct (stored_ids_remove q (records s)) as (a & b & mid & E1 & E2).
    rewrite E2. rewrite E1 in Hnd, Hb. split.
    + clear - Hnd. induction a as [|x a IH]; cbn in *.
      * now apply NoDup_app_remove_l in Hnd.
      * inversion Hnd as [|? ? Hx Hnd']; subst. constructor; [|auto].
        intros Hin. apply Hx. apply in_app_or in Hin.
        apply in_or_app. destruct Hin; [left; auto|right; apply in_or_app; auto].
    + intros _. rewrite Hn. rewrite !Forall_app in Hb. apply Forall_app.
      destruct Hb as (Ha & _ & Hb'). auto.
Qed.

Lemma close_exact e s :
  close e s =
  (Ok tt,
   if client s
   then mkState false false (staticUserId s) (records s) (listeners s) (trace s)
   else s).
Proof.
  destruct s as [cl co n rs ls tr]. unfold close. mnorm.
  destruct cl; mnorm; [destruct (close_ok e); mnorm|]; reflexivity.
Qed.

Lemma run_call_keeps_store_inv e c s :
  scan_ok e = true -> store_inv s -> store_inv (snd (run_call e c s)).
Proof.
  intros Hscan Hinv. destruct (is_close c) eqn:Hcl.
  - destruct c; try discriminate. cbn [run_call]. rewrite snd_bind_ret.
    rewrite close_exact. cbn [snd]. destruct (client s); [|exact Hinv].
    destruct Hinv as [Hnd _]. split; [exact Hnd|]. cbn. discriminate.
  - destruct (run_call_via e c s Hcl) as
      [(err & s1 & H & ->)|(s1 & H & Hc1 & ->)].
    + cbn [snd].
      destruct (ensureConnection_cases e s) as
        [(err' & s1' & H' & _ & Hc1 & _ & Hr & _)|(s1' & H' & _)]; [|congruence].
      assert (s1' = s1) by congruence. subst s1'.
      destruct Hinv as [Hnd _]. split; [now rewrite Hr|]. congruence.
    + assert (Hinv1 : store_inv s1).
      { destruct (ensureConnection_cases e s) as
          [(err' & s1' & H' & _)|(s1' & H' & _ & Hr & _ & Hn & _)]; [congruence|].
        assert (s1' = s1) by congruence. subst s1'.
        destruct Hinv as [Hnd Hb]. split; [now rewrite Hr|]. intros _.
        rewrite Hr, Hn. destruct (collection s); [now apply Hb|].
        unfold seed. rewrite Hscan.
        pose proof (max_userID_bound (records s)) as Hm.
        destruct (max_userID (records s)) as [m|].
        - eapply Forall_impl; [|exact Hm]. cbn. intros; lia.
        - rewrite Hm. constructor. }
      destruct (run_call_store_change e c s1 Hcl Hc1) as [Hch Hc'].
      now apply (store_inv_change e s1 _ Hc1 Hc' Hinv1 Hch).
Qed.

Lemma mapM_toPublic other rs s :
  mapM (fun d => lift (toPublic other (Some d))) (map fetch rs) s =
  (if forallb (record_ok other) rs then Ok (listing other rs)
   else Throw RangeError, s).
Proof.
  induction rs as [|r rs IH]; [reflexivity|].
  cbn [map mapM forallb listing]. unfold bind at 1. unfold lift at 1.
  rewrite toPublic_view. unfold record_ok at 1.
  destruct (updatedAt_ok other (fetch r)); [|reflexivity].
  unfold bind. rewrite IH. cbn [andb].
  destruct (forallb (record_ok other) rs); reflexivity.
Qed.

Lemma no_match_find q r rs :
  Forall (fun x => matches q x = false) rs -> matches q r = true ->
  find (matches q) (rs ++ [r]) = Some r
  /\ remove_first q (rs ++ [r]) = rs.
Proof.
  intros Hf Hr. induction Hf as [|x rs Hx Hf IH]; cbn [app find remove_first].
  - rewrite Hr. auto.
  - rewrite Hx. destruct IH as [-> ->]. auto.
Qed.

Lemma not_stored_no_match n rs :
  ~ In n (stored_ids rs) -> Forall (fun x => matches (Q_userID n) x = false) rs.
Proof.
  induction rs as [|r rs IH]; intros H; constructor.
  - rewrite stored_ids_cons in H. cbn [matches].
    destruct (r_userID r) as [k|]; [|reflexivity].
    apply Z.eqb_neq. intros ->. apply H. now left.
  - apply IH. intros Hin. apply H. rewrite stored_ids_cons.
    destruct (r_userID r); [right|]; exact Hin.
Qed.

Lemma connection_state e s s1 :
  ensureConnection e s = (Ok tt, s1) ->
  collection s1 = true /\ records s1 = records s /\ listeners s1 = listeners s.
Proof.
  intros H. destruct (ensureConnection_cases e s) as
    [(err & s0 & H0 & _)|(s0 & H0 & Hc & Hr & Hl & _)]; [congruence|].
  assert (s0 = s1) by congruence. subst s0. auto.
Qed.

Lemma record_ok_apply_set other n v t r :
  - JsDate.maxTime <= t <= JsDate.maxTime ->
  record_ok other (apply_set n v (JsDate.iso_of_time t) r) = true.
Proof.
  intros Ht. unfold record_ok, updatedAt_ok.
  cbn [fetch apply_set r_updatedAt d_updatedAt opt_val].
  rewrite Date_new_iso by exact Ht. apply orb_true_r.
Qed.

Lemma Forall_update_first (P : record -> Prop) q f rs :
  Forall P rs -> (forall r, P (f r)) -> Forall P (update_first q f rs).
Proof.
  intros H Hf. induction H as [|x rs Hx H IH]; cbn [update_first]; [constructor|].
  destruct (matches q x); constructor; auto.
Qed.

Lemma Forall_remove_first (P : record -> Prop) q rs :
  Forall P rs -> Forall P (remove_first q rs).
Proof.
  intros H. induction H as [|x rs Hx H IH]; cbn [remove_first]; [constructor|].
  destruct (matches q x); [exact H|constructor; auto].
Qed.

Lemma run_call_keeps_dates other e c s :
  - JsDate.maxTime <= now e <= JsDate.maxTime ->
  Forall (fun r => record_ok other r = true) (records s) ->
  Forall (fun r => record_ok other r = true) (records (snd (run_call e c s))).
Proof.
  intros Hnow Hok. destruct (is_close c) eqn:Hcl.
  - destruct c; try discriminate. cbn [run_call]. rewrite snd_bind_ret.
    rewrite close_exact. cbn [snd]. destruct (client s); exact Hok.
  - destruct (run_call_via e c s Hcl) as
      [(err & s1 & H & ->)|(s1 & H & Hc1 & ->)].
    + cbn [snd].
      destruct (ensureConnection_cases e s) as
        [(err' & s1' & H' & _ & _ & _ & Hr & _)|(s1' & H' & _)]; [|congruence].
      assert (s1' = s1) by congruence. subst s1'. now rewrite Hr.
    + destruct (connection_state e s s1 H) as (_ & Hr & _).
      rewrite <- Hr in Hok.
      destruct (run_call_store_change e c s1 Hcl Hc1) as [Hch _].
      destruct Hch as [[Hr' _]|[(name & value & Hr' & _)|[(q & n & v & Hr' & _)
                      |(q & Hr' & _)]]]; rewrite Hr'.
      * exact Hok.
      * apply Forall_app. split; [exact Hok|]. constructor; [reflexivity|constructor].
      * apply Forall_update_first; [exact Hok|].
        intros r. now apply record_ok_apply_set.
      * now apply Forall_remove_first.
Qed.

Lemma connection_outcome e s :
  (exists err s1, ensureConnection e s = (Throw err, s1)
                  /\ records s1 = records s /\ collection s1 = false)
  \/ (exists s1, ensureConnection e s = (Ok tt, s1)
                 /\ collection s1 = true /\ records s1 = records s).
Proof.
  destruct (ensureConnection_cases e s) as
    [(err & s1 & H & _ & Hc & _ & Hr & _)|(s1 & H & Hc & Hr & _)].
  - left. exists err, s1. auto.
  - right. exists s1. auto.
Qed.

Lemma api_via_connection {A} e (k : unit -> M A) s :
  (exists err s1, bind (ensureConnection e) k s = (Throw err, s1)
                  /\ ensureConnection e s = (Throw err, s1)
                  /\ records s1 = records s)
  \/ (exists s1, bind (ensureConnection e) k s = bind (ensureConnection e) k s1
                 /\ ensureConnection e s = (Ok tt, s1)
                 /\ collection s1 = true /\ records s1 = records s).
Proof.
  destruct (connection_outcome e s) as [(err & s1 & H & Hr & _)|(s1 & H & Hc & Hr)].
  - left. exists err, s1. split; [now apply bind_ensureConnection_throw|]. auto.
  - right. exists s1. split; [|auto].
    rewrite (bind_ensureConnection_ok _ _ _ _ H).
    now rewrite bind_connected by exact Hc.
Qed.

Lemma updateRecord_via e id n v s :
  (exists err s1, updateRecord e id n v s = (Throw err, s1)
                  /\ ensureConnection e s = (Throw err, s1)
                  /\ records s1 = records s)
  \/ (exists s1, updateRecord e id n v s = updateRecord e id n v s1
                 /\ ensureConnection e s = (Ok tt, s1)
                 /\ collection s1 = true /\ records s1 = records s).
Proof. unfold updateRecord. apply api_via_connection. Qed.

Lemma deleteRecord_via e id s :
  (exists err s1, deleteRecord e id s = (Throw err, s1)
                  /\ ensureConnection e s = (Throw err, s1)
                  /\ records s1 = records s)
  \/ (exists s1, deleteRecord e id s = deleteRecord e id s1
                 /\ ensureConnection e s = (Ok tt, s1)
                 /\ collection s1 = true /\ records s1 = records s).
Proof. unfold deleteRecord. apply api_via_connection. Qed.

Lemma find_none_Forall q rs :
  find (matches q) rs = None -> Forall (fun x => matches q x = false) rs.
Proof.
  intros H. apply Forall_forall. intros x Hx.
  exact (find_none _ _ H x Hx).
Qed.

Lemma written_app a b : written (a ++ b) = written a ++ written b.
Proof.
  induction a as [|x a IH]; [reflexivity|].
  destruct x; cbn [app written]; rewrite IH; reflexivity.
Qed.

Lemma from_logger_written new : forallb from_logger new = true -> written new = [].
Proof.
  induction new as [|x new IH]; [reflexivity|].
  cbn [forallb]. intros H. apply andb_true_iff in H. destruct H as [Hx H].
  destruct x; try discriminate; cbn [written]; auto.
Qed.

Lemma backup_effects_written e rs :
  written (backup_effects e rs) =
  if backup_find_ok e && backup_write_ok e then [(backup_file e, snapshot rs)] else [].
Proof.
  unfold backup_effects.
  destruct (backup_mkdir_ok e), (backup_find_ok e && backup_write_ok e); reflexivity.
Qed.

Lemma ensureConnection_written e s :
  written (trace (snd (ensureConnection e s))) = written (trace s).
Proof.
  destruct (collection s) eqn:Hc.
  - now rewrite ensureConnection_connected by exact Hc.
  - destruct s as [cl co n rs ls tr]. cbn in Hc. subst co.
    unfold ensureConnection, ensureBackupDir, fails.
    destruct (mkdir_ok e), cl, (connect_ok e), (connect_failure e), (scan_ok e);
      cbn [negb andb connect_stage_eqb]; mnorm;
      try (destruct (option_map fetch_userID (top_userID rs)) as [d|];
           [destruct (d_userID d)|]);
      mnorm; rewrite <- ?app_assoc; cbn [app snd trace];
      first [ reflexivity
            | rewrite written_app; cbn [written]; apply app_nil_r ].
Qed.

(** *** The connection along a run *)

Lemma run_call_client e c s :
  is_close c = false -> collection s = true ->
  client (snd (run_call e c s)) = client s.
Proof.
  intros Hcl Hc. destruct c; try discriminate; cbn [run_call];
    rewrite snd_bind_ret.
  - unfold init. now rewrite ensureConnection_connected by exact Hc.
  - pose proof (addRecord_connected e name value s Hc) as H. cbv zeta in H.
    destruct (insert_ok e && negb (has_id (fresh_id e) (records s)));
      [|rewrite H; reflexivity].
    destruct (findOne_ok e); [destruct H as (lnew & -> & _)|rewrite H]; reflexivity.
  - now rewrite listRecords_connected by exact Hc.
  - destruct (getQueryFromId_total id) as (q & Hq).
    pose proof (updateRecord_connected e id newName newValue s q Hc Hq) as H.
    destruct (modify_ok e); [|rewrite H; reflexivity].
    destruct (found q s) as [r|]; [|rewrite H; reflexivity].
    cbv zeta in H. destruct (negb (String.eqb _ _));
      [destruct H as (lnew & -> & _)|rewrite H]; reflexivity.
  - destruct (getQueryFromId_total id) as (q & Hq).
    pose proof (deleteRecord_connected e id s q Hc Hq) as H.
    destruct (modify_ok e); [|rewrite H; reflexivity].
    destruct (found q s) as [r|]; [|rewrite H; reflexivity].
    cbv zeta in H. destruct (negb (String.eqb _ _));
      [destruct H as (lnew & -> & _)|rewrite H]; reflexivity.
Qed.

Lemma ensureConnection_client e s s1 :
  (collection s = true -> client s = true) ->
  ensureConnection e s = (Ok tt, s1) -> client s1 = true.
Proof.
  intros Hinv H. destruct (collection s) eqn:Hc.
  - rewrite ensureConnection_connected in H by exact Hc.
    injection H as <-. now apply Hinv.
  - destruct (ensureConnection_fresh e s Hc) as
      (new & _ & _ & [(_ & _ & _ & H')|[(_ & _ & H')|[(_ & _ & H')|(_ & _ & H')]]]);
      [congruence|congruence|congruence|].
    rewrite H' in H. injection H as <-. reflexivity.
Qed.

Lemma run_call_keeps_client e c s :
  (collection s = true -> client s = true) ->
  collection (snd (run_call e c s)) = true -> client (snd (run_call e c s)) = true.
Proof.
  intros Hinv. destruct (is_close c) eqn:Hcl.
  - destruct c; try discriminate. cbn [run_call]. rewrite snd_bind_ret.
    rewrite close_exact. cbn [snd].
    destruct (client s) eqn:E; [discriminate|].
    intros Hc. specialize (Hinv Hc). congruence.
  - destruct (run_call_via e c s Hcl) as
      [(err & s1 & H & ->)|(s1 & H & Hc1 & ->)].
    + cbn [snd]. intros Hc.
      destruct (ensureConnection_cases e s) as
        [(err' & s1' & H' & _ & Hc1 & _)|(s1' & H' & _)]; congruence.
    + intros _. rewrite run_call_client by assumption.
      now apply (ensureConnection_client e s s1).
Qed.

Lemma run_keeps_client cs : forall s,
  (collection s = true -> client s = true) ->
  collection (snd (run cs s)) = true -> client (snd (run cs s)) = true.
Proof.
  induction cs as [|[e c] cs IH]; intros s Hinv; [exact Hinv|].
  rewrite run_cons. apply IH. now apply run_call_keeps_client.
Qed.

Lemma run_app a : forall b s, snd (run (a ++ b) s) = snd (run b (snd (run a s))).
Proof.
  induction a as [|[e c] a IH]; intros b s; [reflexivity|].
  cbn [app]. rewrite !run_cons. apply IH.
Qed.

(** *** Messages of [createBackup] *)

(** Called on a process that is not connected, with the server out of
    reach, [createBackup] does print the message. *)
Example createBackup_can_reconnect :
  existsb backup_reconnect
    (trace (snd (createBackup (Scenario.unreachable 1) (boot [])))) = true.
Proof. reflexivity. Qed.

Lemma from_logger_quiet new :
  forallb from_logger new = true -> existsb backup_reconnect new = false.
Proof.
  induction new as [|x new IH]; [reflexivity|].
  cbn [forallb]. intros H. apply andb_true_iff in H. destruct H as [Hx H].
  destruct x; try discriminate; cbn [existsb backup_reconnect orb]; auto.
Qed.

Lemma backup_effects_quiet e rs : existsb backup_reconnect (backup_effects e rs) = false.
Proof.
  unfold backup_effects.
  destruct (backup_mkdir_ok e), (backup_find_ok e && backup_write_ok e); reflexivity.
Qed.

Lemma ensureConnection_quiet e s :
  existsb backup_reconnect (trace (snd (ensureConnection e s)))
  = existsb backup_reconnect (trace s).
Proof.
  destruct (collection s) eqn:Hc.
  - now rewrite ensureConnection_connected by exact Hc.
  - destruct s as [cl co n rs ls tr]. cbn in Hc. subst co.
    unfold ensureConnection, ensureBackupDir, fails.
    destruct (mkdir_ok e), cl, (connect_ok e), (connect_failure e), (scan_ok e);
      cbn [negb andb connect_stage_eqb]; mnorm;
      try (destruct (option_map fetch_userID (top_userID rs)) as [d|];
           [destruct (d_userID d)|]);
      mnorm; rewrite <- ?app_assoc; cbn [app snd trace];
      first [ reflexivity
            | rewrite existsb_app;
              cbn [existsb backup_reconnect String.eqb Ascii.eqb Bool.eqb];
              apply orb_false_r ].
Qed.

(** With a client at hand [ensureConnection] does not call
    [client.connect()], and prints no error. *)
Lemma ensureConnection_with_client e s :
  client s = true -> collection s = false ->
  exists new,
    trace (snd (ensureConnection e s)) = trace s ++ new
    /\ existsb console_error new = false.
Proof.
  intros Hcl Hc. destruct s as [cl co n rs ls tr]. cbn in Hcl, Hc. subst cl co.
  unfold ensureConnection, ensureBackupDir, fails.
  destruct (mkdir_ok e), (connect_ok e), (connect_failure e), (scan_ok e);
    cbn [negb andb connect_stage_eqb]; mnorm;
    try (destruct (option_map fetch_userID (top_userID rs)) as [d|];
         [destruct (d_userID d)|]);
    mnorm; rewrite <- ?app_assoc; cbn [app snd trace];
    first [ exists []; split; [now rewrite app_nil_r|reflexivity]
          | eexists; split; reflexivity ].
Qed.

Lemma run_call_quiet e c s :
  existsb backup_reconnect (trace (snd (run_call e c s)))
  = existsb backup_reconnect (trace s).
Proof.
  destruct (is_close c) eqn:Hcl.
  - destruct c; try discriminate. cbn [run_call]. rewrite snd_bind_ret.
    rewrite close_exact. cbn [snd]. destruct (client s); reflexivity.
  - pose proof (ensureConnection_quiet e s) as Hw.
    destruct (run_call_via e c s Hcl) as
      [(err & s1 & H & ->)|(s1 & H & Hc & ->)]; rewrite H in Hw; cbn [snd] in Hw.
    + exact Hw.
    + rewrite <- Hw. clear Hw H s. rename s1 into s.
      destruct c; try discriminate; cbn [run_call]; rewrite snd_bind_ret.
      * unfold init. now rewrite ensureConnection_connected by exact Hc.
      * pose proof (addRecord_connected e name value s Hc) as H. cbv zeta in H.
        destruct (insert_ok e && negb (has_id (fresh_id e) (records s)));
          [|rewrite H; destruct s; reflexivity].
        destruct (findOne_ok e).
        -- destruct H as (lnew & -> & Hp & _).
           cbn [snd add_trace trace records].
           rewrite !existsb_app. cbn [existsb backup_reconnect].
           rewrite existsb_app, (from_logger_quiet _ Hp), backup_effects_quiet.
           cbn [orb]. now rewrite !orb_false_r.
        -- rewrite H. cbn [snd trace]. rewrite existsb_app. apply orb_false_r.
      * now rewrite listRecords_connected by exact Hc.
      * destruct (getQueryFromId_total id) as (q & Hq).
        pose proof (updateRecord_connected e id newName newValue s q Hc Hq) as H.
        destruct (modify_ok e); [|now rewrite H].
        destruct (found q s) as [r|]; [|now rewrite H].
        cbv zeta in H. destruct (negb (String.eqb _ _)).
        -- destruct H as (lnew & -> & Hp & _).
           cbn [snd add_trace trace set_records]. rewrite existsb_app.
           cbn [existsb backup_reconnect]. rewrite (from_logger_quiet _ Hp).
           apply orb_false_r.
        -- now rewrite H.
      * destruct (getQueryFromId_total id) as (q & Hq).
        pose proof (deleteRecord_connected e id s q Hc Hq) as H.
        destruct (modify_ok e); [|now rewrite H].
        destruct (found q s) as [r|]; [|now rewrite H].
        cbv zeta in H. destruct (negb (String.eqb _ _)).
        -- destruct H as (lnew & -> & Hp & _).
           cbn [snd add_trace trace set_records records].
           rewrite existsb_app. cbn [existsb backup_reconnect].
           rewrite existsb_app, (from_logger_quiet _ Hp), backup_effects_quiet.
           cbn [orb]. now rewrite ?orb_false_r.
        -- now rewrite H.
Qed.

End StoreFacts.

(** ** The name of a backup file *)

Module StampFacts.

Import JsDate DateFacts StoreSpec.

Lemma digit_not_dot k : 0 <= k <= 9 -> Ascii.eqb (Js.digit k) "." = false.
Proof. intros H. by_digit H. Qed.

Lemma digit_not_colon k : 0 <= k <= 9 -> Ascii.eqb (Js.digit k) ":" = false.
Proof. intros H. by_digit H. Qed.

Lemma digit_not_terminator k : 0 <= k <= 9 -> Js.is_line_terminator (Js.digit k) = false.
Proof. intros H. by_digit H. Qed.

Lemma stamp_digit k s : 0 <= k <= 9 ->
  stamp (String (Js.digit k) s) = String (Js.digit k) (stamp s).
Proof.
  intros H. unfold stamp, Js.replace_all. cbn [Js.string_map].
  rewrite (digit_not_colon k H). cbn [Js.cut_fraction].
  now rewrite (digit_not_dot k H).
Qed.

Lemma stamp_pad2 n k : stamp (pad2 n k) = pad2 n (stamp k).
Proof. unfold pad2. now rewrite !stamp_digit by apply mod10. Qed.

Lemma stamp_pad4 n k : stamp (pad4 n k) = pad4 n (stamp k).
Proof.
  unfold pad4, pad3. rewrite !stamp_digit by apply mod10.
  now rewrite stamp_pad2.
Qed.

Lemma stamp_pad6 n k : stamp (pad6 n k) = pad6 n (stamp k).
Proof.
  unfold pad6. rewrite !stamp_digit by apply mod10.
  now rewrite stamp_pad4.
Qed.

(** The fraction of a second is cut off. *)
Lemma stamp_fraction n : stamp (String "." (pad3 n "Z")) = EmptyString.
Proof.
  unfold stamp, Js.replace_all, pad3, pad2. cbn [Js.string_map].
  rewrite !digit_not_colon by apply mod10.
  cbn [Js.cut_fraction Ascii.eqb Bool.eqb].
  rewrite !digit_not_terminator by apply mod10.
  cbn [Js.drop_line]. rewrite !digit_not_terminator by apply mod10.
  reflexivity.
Qed.

Lemma stamp_sep c s :
  Ascii.eqb c "." = false -> Ascii.eqb c ":" = false ->
  stamp (String c s) = String c (stamp s).
Proof.
  intros H1 H2. unfold stamp, Js.replace_all. cbn [Js.string_map].
  rewrite H2. cbn [Js.cut_fraction]. now rewrite H1.
Qed.

Lemma stamp_colon s : stamp (String ":" s) = String "-" (stamp s).
Proof. reflexivity. Qed.

(** The stamp of a time value is that of the start of its second. *)
Lemma stamp_by_second t :
  stamp (iso_of_time t) = stamp (iso_of_time (1000 * (t / 1000))).
Proof.
  unfold iso_of_time.
  assert (E0 : (1000 * (t / 1000)) / msPerDay = t / msPerDay)
    by (unfold msPerDay; dlia).
  rewrite E0. destruct (civil_from_days (t / msPerDay)) as [[y m] d].
  set (r := t mod msPerDay). set (r' := (1000 * (t / 1000)) mod msPerDay).
  assert (E1 : r' / 3600000 = r / 3600000)
    by (subst r r'; unfold msPerDay; dlia).
  assert (E2 : r' / 60000 mod 60 = r / 60000 mod 60)
    by (f_equal; subst r r'; unfold msPerDay; dlia).
  assert (E3 : r' / 1000 mod 60 = r / 1000 mod 60)
    by (f_equal; subst r r'; unfold msPerDay; dlia).
  rewrite E1, E2, E3.
  destruct ((0 <=? y) && (y <=? 9999)); [|destruct (y <? 0)];
    repeat first [ rewrite stamp_pad6 | rewrite stamp_pad4 | rewrite stamp_pad2
                 | rewrite stamp_colon | rewrite stamp_fraction
                 | rewrite (stamp_sep "-") by reflexivity
                 | rewrite (stamp_sep "T") by reflexivity
                 | rewrite (stamp_sep "+") by reflexivity ];
    reflexivity.
Qed.

Lemma backup_file_stamp e :
  VaultSpec.backup_file e =
  (Vault.BACKUP_DIR ++ "/" ++
   ("backup_" ++ stamp (iso_of_time (Vault.backup_now e)) ++ ".json"))%string.
Proof. unfold VaultSpec.backup_file, stamp. reflexivity. Qed.

End StampFacts.

(** ** Facts about the shell *)

Module ShellFacts.

Import Vault VaultSpec VaultFacts StoreSpec StoreFacts Shell Menu.
Local Open Scope vault_scope.
Local Open Scope list_scope.

Lemma is_digit_lower c : Js.is_digit (Js.lower_char c) = Js.is_digit c.
Proof.
  destruct c as [b0 b1 b2 b3 b4 b5 b6 b7];
    destruct b0, b1, b2, b3, b4, b5, b6, b7; reflexivity.
Qed.

Lemma lower_digit c : Js.is_digit c = true -> Js.lower_char c = c.
Proof.
  destruct c as [b0 b1 b2 b3 b4 b5 b6 b7];
    destruct b0, b1, b2, b3, b4, b5, b6, b7; intros H;
    first [reflexivity | discriminate H].
Qed.

Lemma digit_not_space c : Js.is_digit c = true -> Js.is_space c = false.
Proof.
  destruct c as [b0 b1 b2 b3 b4 b5 b6 b7];
    destruct b0, b1, b2, b3, b4, b5, b6, b7; intros H;
    first [reflexivity | discriminate H].
Qed.

Lemma digit_is_hex c : Js.is_digit c = true -> Js.is_hex c = true.
Proof. intros H. unfold Js.is_hex. now rewrite H. Qed.

Lemma forall_digits_lower s :
  Js.string_forall Js.is_digit (Js.toLowerCase s) = Js.string_forall Js.is_digit s.
Proof.
  induction s as [|c s IH]; [reflexivity|].
  cbn. fold (Js.toLowerCase s). now rewrite is_digit_lower, IH.
Qed.

Lemma all_digits_lower s : Js.all_digits (Js.toLowerCase s) = Js.all_digits s.
Proof.
  unfold Js.all_digits. rewrite forall_digits_lower.
  destruct s; reflexivity.
Qed.

Lemma lower_all_digits s :
  Js.string_forall Js.is_digit s = true -> Js.toLowerCase s = s.
Proof.
  induction s as [|c s IH]; [reflexivity|].
  cbn. intros H. apply andb_true_iff in H. destruct H as [Hc H].
  fold (Js.toLowerCase s). now rewrite (lower_digit c Hc), IH.
Qed.

(** *** Decimal numerals *)

Lemma append_nil_r s : (s ++ EmptyString)%string = s.
Proof. induction s; cbn; congruence. Qed.

Lemma append_assoc a b c : ((a ++ b) ++ c)%string = (a ++ (b ++ c))%string.
Proof. induction a; cbn; congruence. Qed.

Lemma length_append a b :
  String.length (a ++ b) = (String.length a + String.length b)%nat.
Proof. induction a; cbn; congruence. Qed.

Lemma parse_digits_app a s t :
  Js.parse_digits a (s ++ t) = Js.parse_digits (Js.parse_digits a s) t.
Proof. revert a. induction s as [|c s IH]; intros a; cbn; auto. Qed.


(** The numeral of [n] is a non-empty string of digits that reads back
    as [n]. *)
Lemma dec_digits_spec fuel : forall n acc,
  0 <= n < 2 ^ Z.of_nat fuel -> (0 < fuel)%nat ->
  exists ds c,
    Js.dec_digits fuel n acc = (String c ds ++ acc)%string
    /\ Js.string_forall Js.is_digit (String c ds) = true
    /\ forall a, Js.parse_digits a (String c ds) =
                 a * 10 ^ Z.of_nat (String.length (String c ds)) + n.
Proof.
  induction fuel as [|f IH]; intros n acc Hn Hf; [lia|].
  cbn [Js.dec_digits]. destruct (n <? 10) eqn:E.
  - apply Z.ltb_lt in E. exists EmptyString, (Js.digit (n mod 10)).
    rewrite Z.mod_small by lia. split; [reflexivity|]. split.
    + cbn [Js.string_forall]. rewrite DateFacts.digit_is_digit by lia. reflexivity.
    + intros a. cbn [Js.parse_digits String.length].
      rewrite DateFacts.digit_val_digit by lia.
      change (10 ^ Z.of_nat 1) with 10. lia.
  - apply Z.ltb_ge in E.
    assert (Hf' : (0 < f)%nat).
    { destruct f; [|lia]. cbn in Hn. lia. }
    assert (Hn' : 0 <= n / 10 < 2 ^ Z.of_nat f).
    { rewrite Nat2Z.inj_succ, Z.pow_succ_r in Hn by lia.
      split; [apply Z.div_pos; lia|].
      apply Z.div_lt_upper_bound; lia. }
    destruct (IH (n / 10) (String (Js.digit (n mod 10)) acc) Hn' Hf')
      as (ds & c & E1 & E2 & E3).
    exists (ds ++ String (Js.digit (n mod 10)) EmptyString)%string, c.
    split; [|split].
    + rewrite E1. cbn [append]. f_equal.
      rewrite append_assoc. reflexivity.
    + cbn [Js.string_forall] in *. apply andb_true_iff in E2.
      destruct E2 as [Hc Hds]. rewrite Hc. cbn [andb].
      clear - Hds. induction ds as [|x ds IHd].
      * cbn [append Js.string_forall].
        now rewrite DateFacts.digit_is_digit by apply DateFacts.mod10.
      * cbn [append Js.string_forall] in *.
        apply andb_true_iff in Hds. destruct Hds as [Hx Hds].
        now rewrite Hx, IHd.
    + intros a.
      change (String c (ds ++ String (Js.digit (n mod 10)) EmptyString))
        with (String c ds ++ String (Js.digit (n mod 10)) EmptyString)%string.
      rewrite parse_digits_app, E3. cbn [Js.parse_digits].
      rewrite DateFacts.digit_val_digit by apply DateFacts.mod10.
      rewrite (length_append (String c ds)). cbn [String.length].
      rewrite ?Nat.add_1_r. cbn [String.length].
      rewrite !Nat2Z.inj_succ, !Z.pow_succ_r by lia.
      pose proof (Z.div_mod n 10 ltac:(lia)).
      set (P := 10 ^ Z.of_nat (String.length ds)) in *. lia.
Qed.

Lemma dec_of_nonneg_spec n :
  0 <= n ->
  exists ds c,
    Js.dec_of_nonneg n = String c ds
    /\ Js.string_forall Js.is_digit (String c ds) = true
    /\ Js.parseInt (String c ds) = n.
Proof.
  intros Hn. unfold Js.dec_of_nonneg.
  destruct (dec_digits_spec (S (Z.to_nat (Z.log2 n))) n EmptyString)
    as (ds & c & E1 & E2 & E3); [|lia|].
  - split; [exact Hn|]. rewrite Nat2Z.inj_succ, Z2Nat.id by apply Z.log2_nonneg.
    destruct (Z.eq_dec n 0) as [->|Hz]; [cbn; lia|].
    apply Z.log2_spec. lia.
  - exists ds, c. split.
    + rewrite E1. apply append_nil_r.
    + split; [exact E2|]. unfold Js.parseInt. rewrite E3. lia.
Qed.

(** *** Trimming *)

Lemma rev_onto_rev s : forall acc acc',
  Js.string_rev_onto (Js.string_rev_onto s acc) acc'
  = Js.string_rev_onto acc (s ++ acc')%string.
Proof.
  induction s as [|c s IH]; intros acc acc'; [reflexivity|].
  cbn [Js.string_rev_onto]. rewrite IH. reflexivity.
Qed.

Lemma string_rev_involutive s : Js.string_rev (Js.string_rev s) = s.
Proof.
  unfold Js.string_rev. rewrite rev_onto_rev. cbn.
  induction s; cbn; congruence.
Qed.

Lemma forall_rev_onto p s : forall acc,
  Js.string_forall p (Js.string_rev_onto s acc)
  = Js.string_forall p s && Js.string_forall p acc.
Proof.
  induction s as [|c s IH]; intros acc; [reflexivity|].
  cbn [Js.string_rev_onto Js.string_forall]. rewrite IH.
  cbn [Js.string_forall]. destruct (p c), (Js.string_forall p s); reflexivity.
Qed.

Lemma trimStart_digits s :
  Js.string_forall Js.is_digit s = true -> Js.trimStart s = s.
Proof.
  destruct s as [|c s]; [reflexivity|]. cbn. intros H.
  apply andb_true_iff in H. destruct H as [Hc _].
  now rewrite (digit_not_space c Hc).
Qed.

Lemma trim_digits s :
  Js.string_forall Js.is_digit s = true -> Js.trim s = s.
Proof.
  intros H. unfold Js.trim, Js.trimEnd. rewrite (trimStart_digits s H).
  rewrite trimStart_digits; [apply string_rev_involutive|].
  unfold Js.string_rev. rewrite forall_rev_onto, H. reflexivity.
Qed.

(** *** The shell reads a userID *)


(** *** The existence check of the update command *)




(** *** The longest name *)

Lemma longestName_from ps : forall acc,
  exists l,
    longestName acc (map Some ps) = Ok l
    /\ (String.length acc <= String.length l)%nat
    /\ Forall (fun p => (String.length (name_text p) <= String.length l)%nat) ps
    /\ (l = acc
        \/ exists a p b,
             ps = a ++ p :: b /\ l = name_text p
             /\ (String.length acc < String.length l)%nat
             /\ Forall (fun x => (String.length (name_text x) < String.length l)%nat) a).
Proof.
  induction ps as [|p ps IH]; intros acc.
  - exists acc. repeat split; auto.
  - cbn [map longestName].
    destruct (String.length acc <? String.length (name_text p))%nat eqn:E.
    + apply Nat.ltb_lt in E.
      destruct (IH (name_text p)) as (l & H1 & H2 & H3 & H4).
      exists l. split; [exact H1|]. split; [lia|]. split; [constructor; auto|].
      right. destruct H4 as [->|(a & p' & b & -> & -> & H5 & H6)].
      * exists [], p, ps.
        split; [reflexivity|]. split; [reflexivity|]. split; [exact E|constructor].
      * exists (p :: a), p', b.
        split; [reflexivity|]. split; [reflexivity|]. split; [lia|].
        constructor; auto.
    + apply Nat.ltb_ge in E.
      destruct (IH acc) as (l & H1 & H2 & H3 & H4).
      exists l. split; [exact H1|]. split; [exact H2|].
      split; [constructor; auto; lia|].
      destruct H4 as [->|(a & p' & b & -> & -> & H5 & H6)]; [now left|].
      right. exists (p :: a), p', b.
      split; [reflexivity|]. split; [reflexivity|]. split; [exact H5|].
      constructor; [lia|exact H6].
Qed.

(** *** The statistics *)

Lemma time_of_fields_range y m d h mi s ms t :
  JsDate.time_of_fields y m d h mi s ms = Some t -> in_range t.
Proof.
  unfold JsDate.time_of_fields, in_range.
  match goal with |- (if ?c then _ else _) = _ -> _ => destruct c end;
    [|discriminate].
  cbv zeta. destruct ((- JsDate.maxTime <=? _) && _) eqn:E; [|discriminate].
  intros [= <-]. apply andb_true_iff in E. destruct E as [E1 E2].
  apply Z.leb_le in E1. apply Z.leb_le in E2. split; assumption.
Qed.

Lemma parse_after_year_range y l t :
  JsDate.parse_after_year y l = Some t -> in_range t.
Proof.
  unfold JsDate.parse_after_year. intros H.
  repeat match type of H with
         | match ?x with _ => _ end = Some _ => destruct x; try discriminate H
         end.
  now apply time_of_fields_range in H.
Qed.

Lemma parse_iso_range s t : JsDate.parse_iso s = Some t -> in_range t.
Proof.
  unfold JsDate.parse_iso, JsDate.parse_expanded, JsDate.parse_plain. intros H.
  repeat match type of H with
         | match ?x with _ => _ end = Some _ => destruct x; try discriminate H
         end; now apply parse_after_year_range in H.
Qed.

Lemma clip_range x t : JsDate.clip x = Some t -> in_range t.
Proof.
  unfold JsDate.clip, in_range. destruct x as [n|]; [|discriminate].
  destruct ((- JsDate.maxTime <=? n) && (n <=? JsDate.maxTime)) eqn:E;
    [|discriminate].
  intros [= <-]. apply andb_true_iff in E. destruct E as [E1 E2].
  apply Z.leb_le in E1. apply Z.leb_le in E2. split; assumption.
Qed.

Lemma parse_range other s t : JsDate.parse other s = Some t -> in_range t.
Proof.
  unfold JsDate.parse. destruct (JsDate.parse_iso s) as [t'|] eqn:E.
  - intros [= <-]. now apply parse_iso_range in E.
  - apply clip_range.
Qed.

Lemma Date_new_range other v : time_or_nan (Date_new other v).
Proof.
  destruct v as [| |b|n|s|o]; cbn [Date_new time_or_nan]; auto.
  - unfold in_range, JsDate.maxTime. lia.
  - unfold in_range, JsDate.maxTime. destruct b; lia.
  - destruct ((- JsDate.maxTime <=? n) && (n <=? JsDate.maxTime)) eqn:E; [|exact I].
    apply andb_true_iff in E. destruct E as [E1 E2].
    apply Z.leb_le in E1. apply Z.leb_le in E2. split; assumption.
  - destruct (JsDate.parse other s) eqn:E; [|exact I]. now apply parse_range in E.
  - destruct (JsDate.parse other (oid_hex o)) eqn:E; [|exact I].
    now apply parse_range in E.
Qed.

Lemma Date_new_in_range other t : in_range t -> Date_new other (JNum t) = Some t.
Proof.
  intros [H1 H2]. cbn [Date_new].
  apply Z.leb_le in H1. apply Z.leb_le in H2. now rewrite H1, H2.
Qed.

Lemma fold_nan f l : fold_left (nan_step f) l None = None.
Proof. induction l as [|x l IH]; [reflexivity|exact IH]. Qed.

Lemma fold_in_nan f l : forall x, In None l -> fold_left (nan_step f) l x = None.
Proof.
  induction l as [|y l IH]; intros x H; [destruct H|].
  cbn [fold_left]. destruct H as [H|H].
  - subst y. destruct x; apply fold_nan.
  - now apply IH.
Qed.

Lemma nan_fold_nan f l : In None l -> nan_fold f l = None.
Proof.
  destruct l as [|x l]; intros H; [destruct H|].
  destruct H as [H|H].
  - subst x. apply fold_nan.
  - now apply fold_in_nan.
Qed.

Lemma fold_range f l :
  (forall a b, in_range a -> in_range b -> in_range (f a b)) ->
  Forall time_or_nan l -> forall x, time_or_nan x ->
  time_or_nan (fold_left (nan_step f) l x).
Proof.
  intros Hf H. induction H as [|y l Hy H IH]; intros x Hx; [exact Hx|].
  cbn [fold_left]. apply IH. destruct x, y; cbn; auto.
Qed.

Lemma fold_valid f l :
  (forall a b, in_range a -> in_range b -> in_range (f a b)) ->
  Forall valid_time l -> forall x, valid_time x ->
  valid_time (fold_left (nan_step f) l x).
Proof.
  intros Hf H. induction H as [|y l Hy H IH]; intros x Hx; [exact Hx|].
  cbn [fold_left]. apply IH.
  destruct Hx as (a & -> & Ha). destruct Hy as (b & -> & Hb).
  exists (f a b). split; [reflexivity|]. now apply Hf.
Qed.

Lemma max_in_range a b : in_range a -> in_range b -> in_range (Z.max a b).
Proof. unfold in_range. lia. Qed.

Lemma min_in_range a b : in_range a -> in_range b -> in_range (Z.min a b).
Proof. unfold in_range. lia. Qed.

Lemma timestamps_range other sel ps : Forall time_or_nan (timestamps other sel ps).
Proof.
  unfold timestamps. apply Forall_forall. intros x Hx.
  apply in_map_iff in Hx. destruct Hx as (v & <- & _). apply Date_new_range.
Qed.

Lemma all_present_map ps : all_present (map Some ps) = Some ps.
Proof. induction ps as [|p ps IH]; [reflexivity|]. cbn. now rewrite IH. Qed.

Lemma created_valid other ps :
  forallb (createdAt_ok other) ps = true ->
  Forall valid_time (timestamps other p_createdAt ps).
Proof.
  intros H. unfold timestamps. induction ps as [|p ps IH]; [constructor|].
  cbn [forallb] in H. apply andb_true_iff in H. destruct H as [Hp H].
  cbn [map filter]. destruct (truthy (p_createdAt p)) eqn:E; [|auto].
  cbn [map]. constructor; [|auto].
  unfold createdAt_ok in Hp. rewrite E in Hp. cbn [negb orb] in Hp.
  pose proof (Date_new_range other (p_createdAt p)) as Hr.
  destruct (Date_new other (p_createdAt p)) as [t|]; [|discriminate Hp].
  exists t. auto.
Qed.

Lemma created_nan other ps :
  forallb (createdAt_ok other) ps = false ->
  In None (timestamps other p_createdAt ps).
Proof.
  unfold timestamps. induction ps as [|p ps IH]; [discriminate|].
  cbn [forallb]. intros H. apply andb_false_iff in H.
  cbn [map filter]. unfold createdAt_ok in H at 1.
  destruct (truthy (p_createdAt p)) eqn:E; cbn [negb orb] in H.
  - cbn [map]. destruct (Date_new other (p_createdAt p)) as [t|].
    + right. destruct H as [H|H]; [discriminate H|auto].
    + now left.
  - destruct H as [H|H]; [discriminate H|auto].
Qed.

Lemma render_day_valid other x :
  valid_time x -> exists d, render_day other x = Ok d.
Proof.
  intros (t & -> & Ht). unfold render_day.
  rewrite (Date_new_in_range other t Ht). cbn. eauto.
Qed.

End ShellFacts.

(** ** Facts about the connection string *)

Module UriFacts.

Import Uri.

Lemma strip_prefix_app p s : strip_prefix p (p ++ s) = Some s.
Proof.
  induction p as [|a p IH]; [reflexivity|].
  cbn. now rewrite Ascii.eqb_refl.
Qed.

Lemma span_app f a b :
  Js.string_forall f a = true ->
  match b with EmptyString => True | String c _ => f c = false end ->
  span f (a ++ b) = (a, b).
Proof.
  intros Ha Hb. induction a as [|c a IH].
  - cbn. destruct b as [|c b]; [reflexivity|]. cbn. now rewrite Hb.
  - cbn in Ha. apply andb_true_iff in Ha. destruct Ha as [Hc Ha].
    cbn. rewrite Hc, (IH Ha). reflexivity.
Qed.

Lemma span_all f a :
  Js.string_forall f a = true -> span f a = (a, EmptyString).
Proof.
  intros Ha. rewrite <- (ShellFacts.append_nil_r a) at 1.
  now apply span_app.
Qed.

Lemma scheme_rest scheme rest :
  scheme = "mongodb://" \/ scheme = "mongodb+srv://" ->
  match strip_prefix "mongodb+srv://" (scheme ++ rest) with
  | Some r => Some r
  | None => strip_prefix "mongodb://" (scheme ++ rest)
  end = Some rest.
Proof.
  intros [->| ->].
  - replace (strip_prefix "mongodb+srv://" ("mongodb://" ++ rest)) with (@None string)
      by reflexivity.
    apply strip_prefix_app.
  - now rewrite strip_prefix_app.
Qed.

End UriFacts.

(** ** Further properties of the code *)

Module Extra.

Import Vault VaultSpec VaultFacts StoreSpec StoreFacts StampFacts Shell Menu ShellFacts
  Uri UriFacts Scenario Scenario2.
Local Open Scope vault_scope.
Local Open Scope list_scope.

(** X1: as long as every largest-userID scan resolves, no run of API
    calls, [close] and reconnections included, stores two records with
    the same userID, and on a connected process every stored userID stays
    below the counter. *)
Theorem stored_userIDs_stay_unique :
  forall (cs : list (Env * call)) (s : state),
    scans_succeed cs = true ->
    store_inv s ->
    store_inv (snd (run cs s)).
Proof.
  intros cs. induction cs as [|[e c] cs IH]; intros s Hsc Hinv; [exact Hinv|].
  cbn in Hsc. apply andb_true_iff in Hsc. destruct Hsc as [He Hsc].
  rewrite run_cons. apply IH; [exact Hsc|].
  now apply run_call_keeps_store_inv.
Qed.

Lemma stored_userIDs_stay_unique_witness :
  scans_succeed reuse_calls = true
  /\ store_inv (boot two_stored)
  /\ store_inv (snd (run reuse_calls (boot two_stored))).
Proof.
  assert (H1 : scans_succeed reuse_calls = true) by reflexivity.
  assert (H2 : store_inv (boot two_stored)).
  { split; [|discriminate]. cbn. repeat constructor; cbn; intuition discriminate. }
  split; [exact H1|]. split; [exact H2|].
  apply (stored_userIDs_stay_unique reuse_calls (boot two_stored) H1 H2).
Defined.

(** X2: when the scan of the first connection fails, the counter stays at
    1: the first [addRecord] of the process stores its record with userID
    1 whatever the collection holds, so a collection that already has a
    record with userID 1 gets a second one. *)
Theorem failed_scan_duplicates_userID :
  forall (e : Env) (name value : string) (rs : list record),
    connect_ok e = true ->
    scan_ok e = false ->
    insert_ok e = true ->
    has_id (fresh_id e) rs = false ->
    findOne_ok e = true ->
    exists out s',
      addRecord e name value (boot rs) = (Ok (Some out), s')
      /\ records s' = rs ++ [new_record e name value 1]
      /\ p_userID out = JNum 1
      /\ (In 1 (stored_ids rs) -> ~ NoDup (stored_ids (records s'))).
Proof.
  intros e name value rs Hco Hsc Hins Hfresh Hfind.
  destruct (ensureConnection_fresh e (boot rs) eq_refl)
    as (new & _ & _ & [(_ & Hf & _)|[(_ & Hf & _)|[(Hf & _)|(_ & _ & Hconn)]]]);
    try (unfold fails in Hf; rewrite Hco in Hf; discriminate Hf).
  assert (Hseed : seed e (boot rs) = 1) by (unfold seed; now rewrite Hsc).
  rewrite Hseed in Hconn.
  set (s1 := add_trace new (mkState true true 1 (records (boot rs))
                              (listeners (boot rs)) (trace (boot rs)))) in *.
  assert (Hc1 : collection s1 = true) by reflexivity.
  assert (Heq : addRecord e name value (boot rs) = addRecord e name value s1).
  { unfold addRecord. rewrite (bind_ensureConnection_ok _ _ _ _ Hconn).
    now rewrite bind_connected by exact Hc1. }
  pose proof (addRecord_connected e name value s1 Hc1) as H. cbv zeta in H.
  assert (Hr1 : records s1 = rs) by reflexivity.
  assert (Hn1 : staticUserId s1 = 1) by reflexivity.
  rewrite Hr1, Hn1, Hins, Hfresh, Hfind in H. cbn [negb andb] in H.
  destruct H as (lnew & H & _).
  do 2 eexists. rewrite Heq. split; [exact H|].
  cbn [add_trace records]. split; [reflexivity|]. split; [reflexivity|].
  intros Hin Hnd. rewrite stored_ids_app in Hnd.
  replace (stored_ids [new_record e name value 1]) with [1] in Hnd by reflexivity.
  apply NoDup_remove_2 in Hnd. apply Hnd. now rewrite app_nil_r.
Qed.

Lemma failed_scan_duplicates_userID_witness :
  exists out s',
    addRecord blind_scan "A" "1" (boot [first_stored]) = (Ok (Some out), s')
    /\ records s' = [first_stored] ++ [new_record blind_scan "A" "1" 1]
    /\ p_userID out = JNum 1
    /\ (In 1 (stored_ids [first_stored]) -> ~ NoDup (stored_ids (records s'))).
Proof.
  apply (failed_scan_duplicates_userID blind_scan "A" "1" [first_stored]);
    reflexivity.
Defined.

(** X3: [listRecords], when the connection is there and the find resolves,
    returns the public view of every stored record, in store order, and
    leaves the process as the connection left it; but a single stored
    record whose [updatedAt] is set and is not a date for the engine
    makes the whole call throw a RangeError. *)
Theorem listRecords_lists_the_collection :
  forall (e : Env) (s s1 : state),
    ensureConnection e s = (Ok tt, s1) ->
    find_ok e = true ->
    listRecords e s =
      (if forallb (record_ok (other_dates e)) (records s1)
       then Ok (listing (other_dates e) (records s1))
       else Throw RangeError, s1).
Proof.
  intros e s s1 Hconn Hfind.
  destruct (connection_state e s s1 Hconn) as (Hc1 & _).
  unfold listRecords. rewrite (bind_ensureConnection_ok _ _ _ _ Hconn).
  unfold findAll. unfold bind at 1. unfold gets at 1. rewrite Hfind.
  unfold bind at 1. unfold ret at 1. rewrite filter_all.
  apply mapM_toPublic.
Qed.

Lemma listRecords_lists_the_collection_witness :
  listRecords (fair 2) one_record =
    (if forallb (record_ok (other_dates (fair 2))) (records one_record)
     then Ok (listing (other_dates (fair 2)) (records one_record))
     else Throw RangeError, one_record).
Proof.
  apply (listRecords_lists_the_collection (fair 2) one_record one_record);
    reflexivity.
Defined.

(** X4: the code keeps the stored timestamps readable, whatever the
    engine makes of strings that are not timestamps: if every stored
    [updatedAt] is absent or a date, it is still so after any run of API
    calls whose clock readings are valid time values, so that
    normalising a stored record never throws. *)
Theorem stored_dates_stay_valid :
  forall (other : string -> option Z) (cs : list (Env * call)) (s : state),
    clocks_valid cs = true ->
    Forall (fun r => record_ok other r = true) (records s) ->
    Forall (fun r => record_ok other r = true) (records (snd (run cs s)))
    /\ forall r, In r (records (snd (run cs s))) ->
         toPublic other (Some (fetch r)) = Ok (Some (public_view other (fetch r))).
Proof.
  intros other cs.
  assert (H : forall s, clocks_valid cs = true ->
            Forall (fun r => record_ok other r = true) (records s) ->
            Forall (fun r => record_ok other r = true) (records (snd (run cs s)))).
  { induction cs as [|[e c] cs IH]; intros s Hcl Hok; [exact Hok|].
    cbn in Hcl. apply andb_true_iff in Hcl. destruct Hcl as [He Hcl].
    apply andb_true_iff in He. rewrite !Z.leb_le in He.
    rewrite run_cons. apply IH; [exact Hcl|].
    now apply run_call_keeps_dates. }
  intros s Hcl Hok. specialize (H s Hcl Hok). split; [exact H|].
  intros r Hin. rewrite Forall_forall in H. specialize (H r Hin).
  rewrite toPublic_view. unfold record_ok in H. now rewrite H.
Qed.

Lemma stored_dates_stay_valid_witness :
  clocks_valid reuse_calls = true
  /\ Forall (fun r => record_ok iso_only r = true) (records (boot two_stored))
  /\ Forall (fun r => record_ok iso_only r = true)
       (records (snd (run reuse_calls (boot two_stored)))).
Proof.
  assert (H1 : clocks_valid reuse_calls = true) by reflexivity.
  assert (H2 : Forall (fun r => record_ok iso_only r = true)
                 (records (boot two_stored)))
    by (repeat constructor).
  split; [exact H1|]. split; [exact H2|].
  apply (stored_dates_stay_valid iso_only reuse_calls (boot two_stored) H1 H2).
Defined.

(** X5: a record that [addRecord] has returned is the last entry of the
    next [listRecords], after the records that were stored before, and it
    is listed exactly as [addRecord] returned it. *)
Theorem added_record_is_listed :
  forall (e e' : Env) (name value : string) (s s1 : state),
    ensureConnection e s = (Ok tt, s1) ->
    insert_ok e = true ->
    has_id (fresh_id e) (records s1) = false ->
    findOne_ok e = true ->
    find_ok e' = true ->
    forallb (record_ok (other_dates e')) (records s1) = true ->
    exists out s',
      addRecord e name value s = (Ok (Some out), s')
      /\ listRecords e' s' =
           (Ok (listing (other_dates e') (records s1) ++ [Some out]), s')
      /\ p_name out = JStr name /\ p_value out = JStr value
      /\ p_updatedAt out = JNull.
Proof.
  intros e e' name value s s1 Hconn Hins Hfresh Hfind Hfind' Hok.
  destruct (connection_state e s s1 Hconn) as (Hc1 & _).
  assert (Heq : addRecord e name value s = addRecord e name value s1).
  { unfold addRecord. rewrite (bind_ensureConnection_ok _ _ _ _ Hconn).
    now rewrite bind_connected by exact Hc1. }
  pose proof (addRecord_connected e name value s1 Hc1) as H. cbv zeta in H.
  rewrite Hins, Hfresh, Hfind in H. cbn [negb andb] in H.
  destruct H as (lnew & H & _).
  do 2 eexists. rewrite Heq. split; [exact H|].
  split; [|repeat split].
  unfold listRecords. rewrite bind_connected by reflexivity.
  unfold findAll. unfold bind at 1. unfold gets at 1. rewrite Hfind'.
  unfold bind at 1. unfold ret at 1. rewrite filter_all.
  rewrite mapM_toPublic. cbn [add_trace records].
  rewrite forallb_app, Hok. cbn [forallb andb].
  replace (record_ok (other_dates e') (new_record e name value (staticUserId s1)))
    with true by reflexivity.
  unfold listing. rewrite map_app. reflexivity.
Qed.

Lemma added_record_is_listed_witness :
  exists out s',
    addRecord (fair 2) "B" "2" one_record = (Ok (Some out), s')
    /\ listRecords (fair 3) s' =
         (Ok (listing (other_dates (fair 3)) (records one_record) ++ [Some out]), s')
    /\ p_name out = JStr "B" /\ p_value out = JStr "2"
    /\ p_updatedAt out = JNull.
Proof.
  apply (added_record_is_listed (fair 2) (fair 3) "B" "2" one_record one_record);
    reflexivity.
Defined.

(** X6: deleting the record that [addRecord] has just returned, by its
    userID, gives back the collection as it was before the add, provided
    no earlier record has that userID, and the counter is not given back.
    What [deleteRecord] returns is not the record as [addRecord] returned
    it: it is null when the value is the empty string, and otherwise a
    record without name, value, userID or dates. *)
Theorem add_then_delete_restores :
  forall (e e' : Env) (name value : string) (s s1 : state),
    ensureConnection e s = (Ok tt, s1) ->
    insert_ok e = true ->
    has_id (fresh_id e) (records s1) = false ->
    findOne_ok e = true ->
    modify_ok e' = true ->
    ~ In (staticUserId s1) (stored_ids (records s1)) ->
    exists out s' s'',
      addRecord e name value s = (Ok (Some out), s')
      /\ p_name out = JStr name /\ p_value out = JStr value
      /\ deleteRecord e' (T_number (staticUserId s1)) s' =
           (Ok (if String.eqb value EmptyString then None else Some blank), s'')
      /\ out <> blank
      /\ records s'' = records s1
      /\ staticUserId s'' = staticUserId s1 + 1.
Proof.
  intros e e' name value s s1 Hconn Hins Hfresh Hfind Hmod Hnew.
  destruct (connection_state e s s1 Hconn) as (Hc1 & _).
  assert (Heq : addRecord e name value s = addRecord e name value s1).
  { unfold addRecord. rewrite (bind_ensureConnection_ok _ _ _ _ Hconn).
    now rewrite bind_connected by exact Hc1. }
  pose proof (addRecord_connected e name value s1 Hc1) as H. cbv zeta in H.
  rewrite Hins, Hfresh, Hfind in H. cbn [negb andb] in H.
  destruct H as (lnew & H & _). rewrite Heq, H.
  set (r := new_record e name value (staticUserId s1)) in *.
  match goal with |- context [(Ok (Some (public_view _ (fetch r))), ?st)] =>
    set (s' := st) end.
  assert (Hc' : collection s' = true) by reflexivity.
  pose proof (deleteRecord_connected e' (T_number (staticUserId s1)) s'
                (Q_userID (staticUserId s1)) Hc' eq_refl) as Hd.
  rewrite Hmod in Hd. unfold found in Hd.
  assert (Hm : matches (Q_userID (staticUserId s1)) r = true).
  { cbn. apply Z.eqb_refl. }
  destruct (no_match_find _ r (records s1) (not_stored_no_match _ _ Hnew) Hm)
    as [Hf Hrm].
  replace (records s') with (records s1 ++ [r]) in Hd by reflexivity.
  rewrite Hf in Hd. cbv zeta in Hd.
  change (r_value r) with value in Hd.
  exists (public_view (other_dates e) (fetch r)), s'.
  destruct (String.eqb value EmptyString); cbn [negb] in Hd.
  - eexists. split; [reflexivity|]. split; [reflexivity|]. split; [reflexivity|].
    split; [exact Hd|]. split; [discriminate|].
    cbn [set_records records staticUserId]. rewrite Hrm. split; reflexivity.
  - destruct Hd as (lnew' & Hd & _).
    eexists. split; [reflexivity|]. split; [reflexivity|]. split; [reflexivity|].
    split; [exact Hd|]. split; [discriminate|].
    cbn [add_trace set_records records staticUserId]. rewrite Hrm. split; reflexivity.
Qed.

Lemma add_then_delete_restores_witness :
  exists out s' s'',
    addRecord (fair 2) "B" "2" one_record = (Ok (Some out), s')
    /\ p_name out = JStr "B" /\ p_value out = JStr "2"
    /\ deleteRecord (fair 3) (T_number (staticUserId one_record)) s' =
         (Ok (if String.eqb "2" EmptyString then None else Some blank), s'')
    /\ out <> blank
    /\ records s'' = records one_record
    /\ staticUserId s'' = staticUserId one_record + 1.
Proof.
  apply (add_then_delete_restores (fair 2) (fair 3) "B" "2" one_record one_record);
    try reflexivity.
  cbn. intros [H|[]]. discriminate H.
Defined.

(** X7: [updateRecord] changes at most one stored record, the first one
    that matches the resolved id, and only its name, value and
    [updatedAt]: whatever it returns or throws, the collection keeps its
    records in the same order, each with its [_id], [userID] and
    [createdAt]. *)
Theorem updateRecord_touches_one_record :
  forall (e : Env) (id : token) (newName newValue : string) (s : state),
    let s' := snd (updateRecord e id newName newValue s) in
    map identity (records s') = map identity (records s)
    /\ (records s' = records s
        \/ exists q a r b,
             getQueryFromId id = Ok q
             /\ records s = a ++ r :: b
             /\ records s' =
                  a ++ apply_set newName newValue (JsDate.iso_of_time (now e)) r :: b
             /\ matches q r = true
             /\ Forall (fun x => matches q x = false) a).
Proof.
  intros e id n v s s'.
  assert (H : records s' = records s
        \/ exists q a r b,
             getQueryFromId id = Ok q
             /\ records s = a ++ r :: b
             /\ records s' = a ++ apply_set n v (JsDate.iso_of_time (now e)) r :: b
             /\ matches q r = true
             /\ Forall (fun x => matches q x = false) a).
  { subst s'.
    destruct (updateRecord_via e id n v s) as
      [(err & s1 & -> & _ & Hr)|(s1 & -> & _ & Hc & Hr)].
    - left. exact Hr.
    - rewrite <- Hr.
      destruct (getQueryFromId_total id) as (q & Hq).
      pose proof (updateRecord_connected e id n v s1 q Hc Hq) as H.
      destruct (modify_ok e); [|rewrite H; now left].
      unfold found in H.
      pose proof (update_first_split q (apply_set n v (JsDate.iso_of_time (now e)))
                    (records s1)) as Hsp.
      destruct (find (matches q) (records s1)) as [r|]; [|rewrite H; now left].
      destruct Hsp as (a & b & E1 & E2 & Hm & Ha).
      right. exists q, a, r, b. split; [exact Hq|]. split; [exact E1|].
      split; [|auto]. cbv zeta in H. rewrite <- E2.
      destruct (negb (String.eqb _ _)).
      + destruct H as (lnew & -> & _). reflexivity.
      + rewrite H. reflexivity. }
  split; [|exact H].
  destruct H as [->|(q & a & r & b & _ & -> & -> & _)]; [reflexivity|].
  rewrite !map_app. reflexivity.
Qed.

(** X8: what [deleteRecord] does to the collection, by outcome.  When it
    returns a record, exactly the first record that matches the resolved
    id has been removed; its value is not empty, and what is returned is
    a record without name, value, userID or dates.  When it returns null,
    either no record matches and nothing is removed, or the first match
    had an empty value and has been removed all the same.  When it
    throws, nothing is removed. *)
Theorem deleteRecord_removes_first_match :
  forall (e : Env) (id : token) (s : state),
    exists q,
      getQueryFromId id = Ok q
      /\ match deleteRecord e id s with
         | (Ok (Some out), s') =>
             exists a r b,
               records s = a ++ r :: b /\ records s' = a ++ b
               /\ matches q r = true
               /\ Forall (fun x => matches q x = false) a
               /\ r_value r <> EmptyString
               /\ out = blank
         | (Ok None, s') =>
             (records s' = records s
              /\ Forall (fun x => matches q x = false) (records s))
             \/ exists a r b,
                  records s = a ++ r :: b /\ records s' = a ++ b
                  /\ matches q r = true
                  /\ Forall (fun x => matches q x = false) a
                  /\ r_value r = EmptyString
         | (Throw _, s') => records s' = records s
         end.
Proof.
  intros e id s. destruct (getQueryFromId_total id) as (q & Hq).
  exists q. split; [exact Hq|].
  destruct (deleteRecord_via e id s) as
    [(err & s1 & -> & _ & Hr)|(s1 & -> & _ & Hc & Hr)].
  - exact Hr.
  - rewrite <- Hr.
    pose proof (deleteRecord_connected e id s1 q Hc Hq) as H.
    destruct (modify_ok e); [|rewrite H; reflexivity].
    unfold found in H.
    pose proof (remove_first_split q (records s1)) as Hsp.
    destruct (find (matches q) (records s1)) as [r|] eqn:Hf.
    + destruct Hsp as (a & b & E1 & E2 & Hm & Ha). cbv zeta in H.
      destruct (String.eqb (r_value r) EmptyString) eqn:Hv; cbn [negb] in H.
      * rewrite H. right. exists a, r, b. cbn [set_records records].
        apply String.eqb_eq in Hv. auto.
      * destruct H as (lnew & -> & _). exists a, r, b.
        cbn [add_trace set_records records].
        apply String.eqb_neq in Hv. repeat split; auto.
    + rewrite H. left. split; [reflexivity|]. now apply find_none_Forall.
Qed.

(** X9: [close] never throws, also when the driver's [close] rejects; it
    leaves the process without a client, keeps the collection, the
    counter and the trace, and closing again changes nothing. *)
Theorem close_is_quiet_and_idempotent :
  forall (e e' : Env) (s : state),
    exists s',
      close e s = (Ok tt, s')
      /\ client s' = false
      /\ records s' = records s
      /\ staticUserId s' = staticUserId s
      /\ trace s' = trace s
      /\ close e' s' = (Ok tt, s').
Proof.
  intros e e' s. rewrite close_exact. eexists. split; [reflexivity|].
  rewrite close_exact.
  destruct (client s) eqn:Hcl; cbn [client records staticUserId trace];
    rewrite ?Hcl; repeat split; reflexivity.
Qed.

Lemma set_client_idem s : client s = true -> set_client true s = s.
Proof. destruct s; cbn. now intros ->. Qed.

(** X10: what is retried after [init] has thrown.  The collection handle
    stays unset and no record is touched.  When the connection string
    itself was refused, no client is kept and the module is as it was, so
    that the next call builds a client again.  Otherwise the module keeps
    the client it has created: the next [init] never calls
    [client.connect()] again, and returns normally, with a collection
    handle and without printing an error, whatever the state of the
    server, unless the database name is refused. *)
Theorem failed_connect_is_not_retried :
  forall (e e' : Env) (s s1 : state) (err : error),
    init e s = (Throw err, s1) ->
    collection s1 = false /\ records s1 = records s
    /\ ((err = ParseError /\ fails e AtConstructor = true
         /\ client s = false /\ s1 = s
         /\ (fails e' AtConstructor = true ->
             init e' s1 = (Throw ParseError, s1)))
        \/ ((err = ConnectionError /\ fails e AtConnect = true
             \/ err = ArgumentError /\ fails e AtDatabase = true)
            /\ client s1 = true
            /\ match init e' s1 with
               | (Ok _, s2) =>
                   fails e' AtDatabase = false
                   /\ collection s2 = true /\ records s2 = records s
                   /\ existsb console_error
                        (skipn (List.length (trace s1)) (trace s2)) = false
               | (Throw err', s2) =>
                   err' = ArgumentError /\ fails e' AtDatabase = true /\ s2 = s1
               end)).
Proof.
  unfold init. intros e e' s s1 err H.
  destruct (collection s) eqn:Hc.
  { rewrite ensureConnection_connected in H by exact Hc. discriminate. }
  assert (Hnext : forall s1, collection s1 = false -> client s1 = true ->
            records s1 = records s ->
            match ensureConnection e' s1 with
            | (Ok _, s2) =>
                fails e' AtDatabase = false
                /\ collection s2 = true /\ records s2 = records s
                /\ existsb console_error
                     (skipn (List.length (trace s1)) (trace s2)) = false
            | (Throw err', s2) =>
                err' = ArgumentError /\ fails e' AtDatabase = true /\ s2 = s1
            end).
  { clear. intros s1 Hc1 Hcl1 Hr1.
    destruct (ensureConnection_with_client e' s1 Hcl1 Hc1) as (new' & Ht & Hq).
    destruct (ensureConnection_fresh e' s1 Hc1) as
      (new & _ & _ & [(Hx & _)|[(Hx & _)|[(Hf & _ & H)|(_ & Hf & H)]]]);
      try congruence; rewrite H in Ht |- *.
    - rewrite set_client_idem by exact Hcl1. auto.
    - split; [exact Hf|]. split; [destruct s1; reflexivity|].
      split; [destruct s1; exact Hr1|].
      cbn [snd] in Ht. rewrite Ht.
      now rewrite skipn_app, skipn_all, Nat.sub_diag. }
  destruct (ensureConnection_fresh e s Hc) as
    (new & _ & _ & [(Hcl & Hf & _ & H')|[(Hcl & Hf & H')|[(Hf & _ & H')|(_ & _ & H')]]]);
    rewrite H' in H; [| | |discriminate H]; injection H as <- <-.
  - split; [exact Hc|]. split; [reflexivity|]. left.
    split; [reflexivity|]. split; [exact Hf|]. split; [exact Hcl|].
    split; [reflexivity|]. intros Hf'.
    destruct (ensureConnection_fresh e' s Hc) as
      (new' & _ & _ & [(_ & _ & _ & H2)|[(_ & Hx & _)|[(Hx & _)|([Hx|Hx] & _)]]]);
      [exact H2| | | |];
      try congruence;
      unfold fails in Hf', Hx; try rewrite Hx in Hf';
      destruct (connect_ok e'), (connect_failure e'); discriminate.
  - split; [destruct s; exact Hc|]. split; [destruct s; reflexivity|].
    right. split; [left; auto|]. split; [destruct s; reflexivity|].
    apply Hnext; destruct s; auto.
  - split; [destruct s; exact Hc|]. split; [destruct s; reflexivity|].
    right. split; [right; auto|]. split; [destruct s; reflexivity|].
    apply Hnext; destruct s; auto.
Qed.

Lemma failed_connect_is_not_retried_witness :
  init (unreachable 1) (boot two_stored)
    = (Throw ConnectionError, snd (init (unreachable 1) (boot two_stored)))
  /\ client (snd (init (unreachable 1) (boot two_stored))) = true
  /\ (exists s2,
        init (unreachable 2) (snd (init (unreachable 1) (boot two_stored))) = (Ok tt, s2))
  /\ init (bad_uri 1) (boot two_stored) = (Throw ParseError, boot two_stored).
Proof.
  assert (H : init (unreachable 1) (boot two_stored)
              = (Throw ConnectionError, snd (init (unreachable 1) (boot two_stored))))
    by reflexivity.
  split; [exact H|].
  destruct (failed_connect_is_not_retried (unreachable 1) (unreachable 2) _ _ _ H)
    as (_ & _ & [(Hx & _)|(_ & Hcl & _)]); [discriminate Hx|].
  split; [exact Hcl|]. split; [eexists; reflexivity|reflexivity].
Defined.

(** X11: every backup file is a snapshot of the collection as the call
    leaves it.  An API call writes at most one backup file; the file is
    named after the clock reading of [createBackup] and holds one entry
    per record of the collection at the end of the call, in store order:
    after [addRecord] it includes the new record, after [deleteRecord] it
    omits the deleted one. *)
Theorem backup_is_snapshot :
  forall (e : Env) (c : call) (s : state),
    let s' := snd (run_call e c s) in
    written (trace s') = written (trace s)
    \/ written (trace s') =
         written (trace s) ++ [(backup_file e, snapshot (records s'))].
Proof.
  intros e c s s'. subst s'. destruct (is_close c) eqn:Hcl.
  - destruct c; try discriminate. cbn [run_call]. rewrite snd_bind_ret.
    rewrite close_exact. cbn [snd]. left. destruct (client s); reflexivity.
  - pose proof (ensureConnection_written e s) as Hw.
    destruct (run_call_via e c s Hcl) as
      [(err & s1 & H & ->)|(s1 & H & Hc & ->)]; rewrite H in Hw; cbn [snd] in Hw.
    + left. exact Hw.
    + rewrite <- Hw. clear Hw H s. rename s1 into s.
      destruct c; try discriminate; cbn [run_call]; rewrite snd_bind_ret.
      * unfold init. rewrite ensureConnection_connected by exact Hc. now left.
      * pose proof (addRecord_connected e name value s Hc) as H. cbv zeta in H.
        destruct (insert_ok e && negb (has_id (fresh_id e) (records s)));
          [|rewrite H; left; destruct s; reflexivity].
        destruct (findOne_ok e).
        -- destruct H as (lnew & -> & Hp & _).
           cbn [snd add_trace trace records].
           rewrite !written_app. cbn [written]. rewrite written_app.
           rewrite (from_logger_written _ Hp), backup_effects_written.
           cbn [app]. destruct (backup_find_ok e && backup_write_ok e).
           ++ right. now rewrite !app_nil_r.
           ++ left. now rewrite !app_nil_r.
        -- rewrite H. left. cbn [snd trace]. rewrite written_app. apply app_nil_r.
      * rewrite listRecords_connected by exact Hc. now left.
      * destruct (getQueryFromId_total id) as (q & Hq).
        pose proof (updateRecord_connected e id newName newValue s q Hc Hq) as H.
        destruct (modify_ok e); [|rewrite H; now left].
        destruct (found q s) as [r|]; [|rewrite H; now left].
        cbv zeta in H. destruct (negb (String.eqb _ _)).
        -- destruct H as (lnew & -> & Hp & _). left.
           cbn [snd add_trace trace set_records]. rewrite written_app.
           cbn [written]. rewrite (from_logger_written _ Hp). apply app_nil_r.
        -- rewrite H. now left.
      * destruct (getQueryFromId_total id) as (q & Hq).
        pose proof (deleteRecord_connected e id s q Hc Hq) as H.
        destruct (modify_ok e); [|rewrite H; now left].
        destruct (found q s) as [r|]; [|rewrite H; now left].
        cbv zeta in H. destruct (negb (String.eqb _ _)).
        -- destruct H as (lnew & -> & Hp & _).
           cbn [snd add_trace trace set_records records].
           rewrite written_app. cbn [written]. rewrite written_app.
           rewrite (from_logger_written _ Hp), backup_effects_written.
           cbn [app]. destruct (backup_find_ok e && backup_write_ok e).
           ++ right. now rewrite ?app_nil_r.
           ++ left. now rewrite ?app_nil_r.
        -- rewrite H. now left.
Qed.

(** X12: the name of a backup file depends on the clock of [createBackup]
    only up to the second: two backups made within the same second are
    written to the same file, so the later one replaces the earlier. *)
Theorem same_second_same_backup_file :
  forall e1 e2 : Env,
    backup_now e1 / 1000 = backup_now e2 / 1000 ->
    backup_file e1 = backup_file e2.
Proof.
  intros e1 e2 H. rewrite !backup_file_stamp.
  rewrite (stamp_by_second (backup_now e1)), (stamp_by_second (backup_now e2)), H.
  reflexivity.
Qed.

Lemma same_second_same_backup_file_witness :
  backup_now (fair 1) <> backup_now (fair 2)
  /\ backup_file (fair 1) = backup_file (fair 2).
Proof.
  split; [discriminate|].
  apply (same_second_same_backup_file (fair 1) (fair 2)). reflexivity.
Defined.

(** X13: the search command matches its keyword without regard to
    case: two keywords that are equal once lower-cased select the same
    records. *)
Theorem search_ignores_keyword_case :
  forall (t1 t2 : string) (r : option public),
    Js.toLowerCase t1 = Js.toLowerCase t2 ->
    search_hit t1 r = search_hit t2 r.
Proof.
  intros t1 t2 r H. destruct r as [p|]; [|reflexivity].
  unfold search_hit. cbv zeta. rewrite H.
  assert (Hd : Js.all_digits t1 = Js.all_digits t2).
  { rewrite <- (all_digits_lower t1), H. apply all_digits_lower. }
  destruct (Js.all_digits t2) eqn:E2; rewrite Hd; [|reflexivity].
  assert (E1 : Js.all_digits t1 = true) by congruence.
  unfold Js.all_digits in E1, E2.
  apply andb_true_iff in E1. apply andb_true_iff in E2.
  destruct E1 as [_ E1]. destruct E2 as [_ E2].
  rewrite (lower_all_digits _ E1), (lower_all_digits _ E2) in H.
  subst t2. reflexivity.
Qed.

Lemma search_ignores_keyword_case_witness :
  search_hit "ABC" (Some abc_record) = search_hit "abc" (Some abc_record).
Proof.
  apply (search_ignores_keyword_case "ABC" "abc" (Some abc_record)).
  reflexivity.
Defined.

(** X14: the statistics report as longest name the first name of maximal
    length among the listed records: no listed name is longer, the names
    before it are strictly shorter, and the result is empty (shown as
    N/A) only when every name is empty. *)
Theorem longest_name_is_first_longest :
  forall ps : list public,
    exists l,
      longestName EmptyString (map Some ps) = Ok l
      /\ Forall (fun p => (String.length (name_text p) <= String.length l)%nat) ps
      /\ ((l = EmptyString /\ Forall (fun p => name_text p = EmptyString) ps)
          \/ exists a p b,
               ps = a ++ p :: b /\ l = name_text p
               /\ Forall (fun x => (String.length (name_text x) < String.length l)%nat) a).
Proof.
  intros ps. destruct (longestName_from ps EmptyString) as (l & H1 & _ & H3 & H4).
  exists l. split; [exact H1|]. split; [exact H3|].
  destruct H4 as [->|(a & p & b & E1 & E2 & _ & H6)].
  - left. split; [reflexivity|].
    eapply Forall_impl; [|exact H3]. cbn. intros p Hp.
    destruct (name_text p); [reflexivity|cbn in Hp; lia].
  - right. exists a, p, b. auto.
Qed.

(** X15: a userID given to [updateRecord] or [deleteRecord] as its
    decimal numeral selects the same records as the number itself when it
    is not negative; the numeral of a negative number selects nothing,
    while the number itself is looked up. *)
Theorem numeral_token_resolution :
  forall n : Z,
    getQueryFromId (T_string (String_ (JNum n)))
    = Ok (if 0 <=? n then Q_userID n else Q_id_absent)
    /\ getQueryFromId (T_number n) = Ok (Q_userID n).
Proof.
  intros n. split; [|reflexivity].
  cbn [getQueryFromId String_]. unfold Js.string_of_Z.
  destruct (n <? 0) eqn:E.
  - apply Z.ltb_lt in E. replace (0 <=? n) with false by (symmetry; apply Z.leb_gt; lia).
    destruct (dec_of_nonneg_spec (- n)) as (ds & c & E1 & E2 & _); [lia|].
    rewrite E1.
    assert (Ht : Js.trim (String "-" (String c ds)) = String "-" (String c ds)).
    { unfold Js.trim, Js.trimEnd. cbn [Js.trimStart].
      replace (Js.is_space "-") with false by reflexivity.
      unfold Js.string_rev at 2. cbn [Js.string_rev_onto].
      fold (Js.string_rev_onto (String c ds) (String "-" EmptyString)).
      assert (Hs : Js.string_forall (fun x => negb (Js.is_space x))
                     (Js.string_rev_onto (String c ds) (String "-" EmptyString)) = true).
      { rewrite forall_rev_onto. apply andb_true_iff. split; [|reflexivity].
        clear - E2. revert E2. generalize (String c ds). intros s.
        induction s as [|x s IH]; [reflexivity|]. cbn. intros H.
        apply andb_true_iff in H. destruct H as [Hx H].
        now rewrite (digit_not_space x Hx), IH. }
      cbn [Js.string_rev_onto] in Hs |- *.
      destruct (Js.string_rev_onto ds (String c (String "-" EmptyString)))
        as [|y t] eqn:Er.
      - exfalso.
        assert (Hl : String.length (Js.string_rev_onto ds (String c (String "-" EmptyString)))
                     = O) by now rewrite Er.
        assert (G : forall s acc, (String.length acc <=
                     String.length (Js.string_rev_onto s acc))%nat).
        { clear. induction s as [|x s IH]; intros acc; cbn; [lia|].
          specialize (IH (String x acc)). cbn in IH. lia. }
        specialize (G ds (String c (String "-" EmptyString))).
        rewrite Hl in G. cbn [String.length] in G. lia.
      - cbn [Js.string_forall] in Hs. apply andb_true_iff in Hs.
        destruct Hs as [Hy _]. apply negb_true_iff in Hy.
        cbn [Js.trimStart]. rewrite Hy. rewrite <- Er.
        change (Js.string_rev_onto ds (String c (String "-" EmptyString)))
          with (Js.string_rev (String "-" (String c ds))).
        apply string_rev_involutive. }
    rewrite Ht. cbn [String.length Nat.eqb].
    replace (Js.all_digits (String "-" (String c ds))) with false by reflexivity.
    unfold ObjectId_new. cbn [Js.string_forall].
    replace (Js.is_hex "-") with false by reflexivity.
    cbn [andb]. rewrite andb_false_r. reflexivity.
  - apply Z.ltb_ge in E. replace (0 <=? n) with true by (symmetry; apply Z.leb_le; lia).
    destruct (dec_of_nonneg_spec n E) as (ds & c & E1 & E2 & E3).
    rewrite E1, (trim_digits _ E2). cbn [String.length Nat.eqb].
    unfold Js.all_digits. rewrite E2. cbn [String.eqb negb andb].
    now rewrite E3.
Qed.





(** X18: [close] really disconnects.  In every state that a run of API
    calls reaches from the start of the process, a collection handle is
    held only together with a client; so after a [close] the module holds
    neither, whatever happened before, and the next call connects anew. *)
Theorem close_disconnects :
  forall (cs : list (Env * call)) (rs : list record) (e : Env),
    let s := snd (run cs (boot rs)) in
    let s' := snd (run (cs ++ [(e, Close)]) (boot rs)) in
    (collection s = true -> client s = true)
    /\ client s' = false /\ collection s' = false.
Proof.
  intros cs rs e s s'.
  assert (Hinv : collection s = true -> client s = true).
  { subst s. apply run_keeps_client. discriminate. }
  split; [exact Hinv|]. subst s'. rewrite run_app. fold s.
  rewrite run_cons. cbn [run snd run_call]. rewrite snd_bind_ret, close_exact.
  cbn [snd]. destruct (client s) eqn:Ecl; [split; reflexivity|].
  split; [exact Ecl|].
  destruct (collection s) eqn:Eco; [|reflexivity].
  specialize (Hinv eq_refl). congruence.
Qed.

(** X19: the exported API never makes [createBackup] connect by itself:
    [createBackup] is entered only on a connected process, so its own
    connection attempt, with its error message, is never taken in any
    run of API calls. *)
Theorem createBackup_never_reconnects :
  forall (cs : list (Env * call)) (rs : list record),
    existsb backup_reconnect (trace (snd (run cs (boot rs)))) = false.
Proof.
  intros cs rs.
  assert (H : forall s, existsb backup_reconnect (trace (snd (run cs s)))
                        = existsb backup_reconnect (trace s)).
  { induction cs as [|[e c] cs IH]; intros s; [reflexivity|].
    rewrite run_cons, IH. apply run_call_quiet. }
  rewrite H. reflexivity.
Qed.

(** X20: the statistics throw a RangeError exactly when some listed
    record has a [createdAt] that is set but is not a date for the
    engine; a malformed or missing modification time only turns Last
    Modified into N/A.
    Otherwise they are computed for every non-empty listing, with the
    number of listed records as total, and the two creation dates are
    either both given or both N/A. *)
Theorem statistics_outcome :
  forall (other : string -> option Z) (p : public) (ps : list public),
    if forallb (createdAt_ok other) (p :: ps)
    then exists st,
           statistics_of other (map Some (p :: ps)) = Ok (Some st)
           /\ st_total st = List.length (p :: ps)
           /\ (st_earliest st = None <-> st_latest st = None)
    else statistics_of other (map Some (p :: ps)) = Throw RangeError.
Proof.
  intros other p0 ps0. set (ps := p0 :: ps0).
  assert (Hne : exists q qs, map Some ps = Some q :: qs) by (do 2 eexists; reflexivity).
  unfold statistics_of. destruct Hne as (q & qs & Hne). rewrite Hne, <- Hne.
  rewrite all_present_map. cbv zeta.
  (* Last Modified never throws *)
  set (modTs := timestamps other (fun r => js_or (p_updatedAt r) (p_createdAt r)) ps).
  assert (Hlm : exists lm,
     match (match modTs with [] => None | _ :: _ => nan_fold Z.max modTs end) with
     | Some t =>
         if t =? 0 then Ok None
         else rbind (toISOString (Date_new other (JNum t)))
                (fun iso => Ok (Some (Js.before_first "." (Js.replace_first "T" " " iso))))
     | None => Ok None
     end = Ok lm).
  { pose proof (timestamps_range other (fun r => js_or (p_updatedAt r) (p_createdAt r)) ps)
      as Hr. fold modTs in Hr.
    destruct modTs as [|x l]; [eauto|].
    inversion Hr as [|? ? Hx Hl]; subst.
    pose proof (fold_range Z.max l max_in_range Hl x Hx) as Hf.
    unfold nan_fold. destruct (fold_left (nan_step Z.max) l x) as [t|]; [|eauto].
    destruct (t =? 0); [eauto|]. cbn in Hf.
    rewrite (Date_new_in_range other t Hf). cbn. eauto. }
  destruct Hlm as (lm & ->). cbn [rbind].
  destruct (longestName_from ps EmptyString) as (l & -> & _). cbn [rbind].
  destruct (forallb (createdAt_ok other) ps) eqn:Eok.
  - pose proof (created_valid other ps Eok) as Hv.
    destruct (timestamps other p_createdAt ps) as [|x ts].
    + cbn [rbind fst snd]. eexists. split; [reflexivity|].
      cbn [st_total st_earliest st_latest]. rewrite length_map.
      split; [reflexivity|tauto].
    + inversion Hv as [|? ? Hx Hts]; subst.
      destruct (render_day_valid other _ (fold_valid Z.min ts min_in_range Hts x Hx))
        as (d1 & E1).
      destruct (render_day_valid other _ (fold_valid Z.max ts max_in_range Hts x Hx))
        as (d2 & E2).
      unfold nan_fold. rewrite E1, E2. cbn [rbind fst snd].
      eexists. split; [reflexivity|].
      cbn [st_total st_earliest st_latest]. rewrite length_map.
      split; [reflexivity|]. split; discriminate.
  - pose proof (created_nan other ps Eok) as Hn.
    destruct (timestamps other p_createdAt ps) as [|x ts]; [destruct Hn|].
    rewrite (nan_fold_nan Z.min (x :: ts) Hn). reflexivity.
Qed.

(** X21: [extractDbName] takes as database name the first path segment
    of a mongodb or mongodb+srv connection string, and only when nothing
    but a query string follows it.  For a string made of the scheme, a
    host part without a slash, a slash, a segment [name] without a
    question mark or slash, and a rest, it returns the decoded [name]
    when [name] is not empty and the rest is empty or begins a query
    string; when the rest begins with a slash (a trailing slash or a
    second segment) or the segment is empty, it returns null, so that the
    default database is used.  A string without a path returns null as
    well. *)
Theorem extractDbName_reads_first_segment :
  forall (decode : string -> option string) (scheme host name tail : string),
    scheme = "mongodb://" \/ scheme = "mongodb+srv://" ->
    host <> EmptyString ->
    Js.string_forall not_slash host = true ->
    Js.string_forall segment_char name = true ->
    after_name tail = true ->
    extractDbName decode (Some (scheme ++ host ++ "/" ++ name ++ tail)%string)
    = (if negb (String.eqb name EmptyString) && begins_query tail
       then match decode name with Some d => Name d | None => URIError end
       else NoName)
    /\ extractDbName decode (Some (scheme ++ host)%string) = NoName.
Proof.
  intros decode scheme host name tail Hs Hh Hhost Hname Htail.
  assert (Hne : forall r, String.eqb (scheme ++ r) EmptyString = false).
  { intros r. destruct Hs as [->| ->]; reflexivity. }
  assert (Hhe : String.eqb host EmptyString = false).
  { destruct host; [congruence|reflexivity]. }
  split; unfold extractDbName; rewrite Hne; unfold match_db_segment;
    rewrite (scheme_rest _ _ Hs).
  - rewrite (span_app not_slash host ("/" ++ name ++ tail) Hhost) by reflexivity.
    rewrite Hhe. cbn [append Ascii.eqb Bool.eqb].
    rewrite (span_app segment_char name tail Hname).
    + destruct name as [|c name]; [reflexivity|]. cbn [String.eqb negb andb].
      destruct tail as [|t tail]; [reflexivity|].
      cbn [begins_query]. destruct (Ascii.eqb t "?"); reflexivity.
    + destruct tail as [|t tail]; [exact I|]. cbn [after_name] in Htail.
      unfold segment_char.
      destruct (Ascii.eqb t "?"), (Ascii.eqb t "/"); try reflexivity.
      discriminate Htail.
  - rewrite (span_all not_slash host Hhost). rewrite Hhe. reflexivity.
Qed.

Lemma extractDbName_reads_first_segment_witness :
  extractDbName Some (Some "mongodb://localhost:27017/scd_Project?retryWrites=true")
  = Name "scd_Project"
  /\ extractDbName Some (Some "mongodb://localhost:27017/scd_Project/") = NoName.
Proof.
  split.
  - apply (extractDbName_reads_first_segment Some "mongodb://" "localhost:27017"
             "scd_Project" "?retryWrites=true");
      first [left; reflexivity | discriminate | reflexivity].
  - apply (extractDbName_reads_first_segment Some "mongodb://" "localhost:27017"
             "scd_Project" "/");
      first [left; reflexivity | discriminate | reflexivity].
Defined.

End Extra.
